(** * pymultifracs: structure functions and multifractal spectrum

    A shallow embedding of [pymultifracs/structurefunction.py] and
    [pymultifracs/mfspectrum.py].

    - Python objects whose attributes are assigned by the methods are
      records threaded through a small state-and-exception monad; the
      state holds the estimator being built ([self]) and the
      multi-resolution quantity it reads.
    - numpy's float64 arithmetic is an interface ([NumPy]); the two helpers
      imported from [utils] are an interface too ([Utils]).
    - Python dictionaries keep insertion order: association lists.
    - Arrays are lists, matrices are lists of rows; in-place item assignment
      is list insert. *)

From Stdlib Require Import ZArith QArith Qabs Lia.
From stdpp Require Import base list strings.

Set Default Proof Using "Type".

(** ** A fragment of the Python runtime *)

(** Exceptions. The first five are Python's own; the last four are the
    error kinds named by the specification (no exception class is defined
    or raised in the two source files). *)
Inductive exn : Set :=
  | TypeError | KeyError | ValueError | IndexError | AttributeError
  | InvalidWindowError | DegenerateRegressionError
  | ZeroMassError | EmptyScaleError.

#[global] Instance exn_eq_dec : EqDecision exn.
Proof. solve_decision. Defined.

Inductive outcome (A : Type) : Type :=
  | Ok (a : A)
  | Raise (e : exn).
Arguments Ok {A} a.
Arguments Raise {A} e.

#[global] Instance outcome_ret : MRet outcome := λ A a, Ok a.
#[global] Instance outcome_bind : MBind outcome := λ A B f m,
  match m with Ok a => f a | Raise e => Raise e end.
#[global] Instance outcome_fmap : FMap outcome := λ A B f m,
  match m with Ok a => Ok (f a) | Raise e => Raise e end.

Definition is_Ok {A} (m : outcome A) : Prop := ∃ a, m = Ok a.

(** [for x in l: b = f(b, x)] where [f] may raise. *)
Fixpoint foldM {A B} (f : B → A → outcome B) (b : B) (l : list A) : outcome B :=
  match l with
  | [] => Ok b
  | x :: l' => b' ← f b x; foldM f b' l'
  end.

(** [[f(x) for x in l]] where [f] may raise. *)
Fixpoint traverse {A B} (f : A → outcome B) (l : list A) : outcome (list B) :=
  match l with
  | [] => Ok []
  | x :: l' => y ← f x; ys ← traverse f l'; Ok (y :: ys)
  end.

(** [enumerate(l)] *)
Definition enumerate {A} (l : list A) : list (nat * A) := imap pair l.

(** [d[k]] on a dict: [KeyError] when the key is absent. *)
Fixpoint dict_get {K V} `{EqDecision K} (d : list (K * V)) (k : K) : outcome V :=
  match d with
  | [] => Raise KeyError
  | (k', v) :: d' => if decide (k = k') then Ok v else dict_get d' k
  end.

(** [list(d)]: the keys, in insertion order. *)
Definition dict_keys {K V} (d : list (K * V)) : list K := d.*1.

(** [l[i]] on a sequence with a non-negative index. *)
Definition item {A} (l : list A) (i : nat) : outcome A :=
  match l !! i with Some a => Ok a | None => Raise IndexError end.

(** Reading an attribute that may not have been assigned yet. *)
Definition attr {A} (o : option A) : outcome A :=
  match o with Some a => Ok a | None => Raise AttributeError end.

(** Python slice bounds: a negative bound counts from the end, and both
    bounds are clipped to [0, len]. *)
Definition slice_bound (n i : Z) : Z :=
  if (i <? 0)%Z then Z.max (i + n) 0 else Z.min i n.

(** [l[start:stop]] *)
Definition py_slice {A} (l : list A) (start stop : Z) : list A :=
  let n := Z.of_nat (length l) in
  let a := slice_bound n start in
  let b := slice_bound n stop in
  take (Z.to_nat (b - a)) (drop (Z.to_nat a) l).

(** [np.arange(a, b)] on integers. *)
Definition arange (a b : Z) : list Z := seqZ a (b - a).

(** [a[mask]] with a boolean mask: numpy requires the mask to have the
    length of the array. *)
Fixpoint select {A} (a : list A) (mask : list bool) : list A :=
  match a, mask with
  | x :: a', b :: mask' => if b then x :: select a' mask' else select a' mask'
  | _, _ => []
  end.

Definition mask_index {A} (a : list A) (mask : list bool) : outcome (list A) :=
  if decide (length a = length mask) then Ok (select a mask) else Raise IndexError.

(** *** Calling a function: positional arguments against required parameters *)

(** A call with positional arguments only, to a function whose parameters
    (after [self]) are all required and have no default: [TypeError] unless
    there are as many arguments as parameters. *)
Definition bind_arguments {A} (params : list string) (args : list A)
  : outcome (list (string * A)) :=
  if decide (length params = length args) then Ok (zip params args)
  else Raise TypeError.

(** *** Dataclasses *)

Inductive field_kind : Set :=
  | InitVarField      (* [x: InitVar[T]] *)
  | InitField         (* [x: T] *)
  | NoInitField.      (* [x: T = field(init=False)] *)

#[global] Instance field_kind_eq_dec : EqDecision field_kind.
Proof. solve_decision. Defined.

Record field_decl : Set := Field { field_name : string; kind : field_kind }.

(** The parameters of the generated [__init__], in declaration order. *)
Definition init_params (fs : list field_decl) : list string :=
  field_name <$> filter (λ f, kind f ≠ NoInitField) fs.

(** The generated [__init__] ends with [self.__post_init__(...)], passing
    the init-only variables, in declaration order, and nothing else. *)
Definition post_init_args (fs : list field_decl) : list string :=
  field_name <$> filter (λ f, kind f = InitVarField) fs.


(** ** numpy and the [utils] helpers *)

(** The float64 operations of numpy that the two modules use. They are an
    interface: the development holds for every implementation of it. *)
Class NumPy (F : Type) := {
  of_int : Z → F;                 (* an integer used as a float *)
  f_add : F → F → F;
  f_sub : F → F → F;
  f_mul : F → F → F;
  f_div : F → F → F;
  f_abs : F → F;                  (* np.abs, one element *)
  f_log2 : F → F;                 (* np.log2, one element *)
  f_power : F → F → F;            (* np.power, one element *)
  f_eqb : F → F → bool;           (* == *)
  np_sum : list F → F;            (* a.sum() of a one-dimensional array *)
  np_mean : list F → F;           (* np.mean of a one-dimensional array *)
}.

(** [from .utils import linear_regression, fast_power]: the module is not
    among the sources, so both are parameters. [fast_power(array, q)] works
    element by element; [linear_regression(x, y, nj)] returns the pair
    (slope, intercept) or raises. *)
Class Utils (F : Type) := {
  fast_power : F → F → F;
  linear_regression : list Z → list F → list F → outcome (F * F);
}.

Section Estimators.
Context {F : Type} `{!NumPy F, !Utils F}.

(** [np.zeros(n)], [np.ones(n)] *)
Definition np_zeros (n : nat) : list F := replicate n (of_int 0).
Definition np_ones (n : nat) : list F := replicate n (of_int 1).

(** [np.zeros((r, c))] *)
Definition np_zeros2 (r c : nat) : list (list F) := replicate r (np_zeros c).

(** [fast_power(a, q)] on an array. *)
Definition fast_power_array (a : list F) (q : F) : list F :=
  (λ x, fast_power x q) <$> a.

(** [m[:, j] = col] *)
Definition set_column (j : nat) (col : list F) (m : list (list F)) : list (list F) :=
  zip_with (λ row v, <[j := v]> row) m col.

(** [m[a:b, i]] *)
Definition column_slice (m : list (list F)) (a b : Z) (i : nat) : outcome (list F) :=
  traverse (λ row, item row i) (py_slice m a b).

(** A matrix of [r] rows and [c] columns, and its item [m[i, p]]. *)
Definition shape (m : list (list F)) (r c : nat) : Prop :=
  length m = r ∧ Forall (λ row, length row = c) m.
Definition entry (m : list (list F)) (i p : nat) : option F :=
  row ← m !! i; row !! p.

(** ** The multi-resolution quantity

    The attributes the estimators read: [name], the dict [nj] (number of
    coefficients at scale j) and the dict [values] (coefficients at scale
    j). *)
Record MultiResolutionQuantity := MRQ {
  mrq_name : string;
  mrq_nj : list (Z * Z);
  mrq_values : list (Z * list F);
}.

(** Modelled from the spec: [MultiResolutionQuantityBase.get_nj_interv] is
    not among the sources. The spec's [weight_over_interval(j1, j2)] returns,
    for each j in [j1, j2], the count at scale j: a sequence of length
    j2 - j1 + 1. [nj] is a dict; a scale without a count is a [KeyError]. *)
Definition get_nj_interv (nj : list (Z * Z)) (j1 j2 : Z) : outcome (list F) :=
  traverse (λ j, of_int <$> dict_get nj j) (arange j1 (j2 + 1)).

(** ** State: the object under construction and the quantity it reads *)

Record world (S : Type) := World {
  w_mrq : MultiResolutionQuantity;
  w_self : S;
}.
Arguments World {S} _ _.
Arguments w_mrq {S} _.
Arguments w_self {S} _.

Definition Py (S A : Type) : Type := world S → outcome (A * world S).

Definition py_ret {S A} (a : A) : Py S A := λ w, Ok (a, w).
Definition py_bind {S A B} (f : A → Py S B) (m : Py S A) : Py S B :=
  λ w, match m w with Ok (a, w') => f a w' | Raise e => Raise e end.

#[global] Instance Py_ret {S} : MRet (Py S) := λ A, py_ret.
#[global] Instance Py_bind {S} : MBind (Py S) := λ A B, py_bind.

(** The argument [mrq] of the methods refers to the quantity of the state. *)
Definition get_mrq {S} : Py S MultiResolutionQuantity := λ w, Ok (w_mrq w, w).
Definition get_self {S} : Py S S := λ w, Ok (w_self w, w).
(** [self.x = v] *)
Definition set_self {S} (f : S → S) : Py S unit :=
  λ w, Ok (tt, World (w_mrq w) (f (w_self w))).
Definition lift {S A} (m : outcome A) : Py S A :=
  λ w, match m with Ok a => Ok (a, w) | Raise e => Raise e end.
(** [self.x] *)
Definition getattr {S A} (proj : S → option A) : Py S A :=
  self ← get_self; lift (attr (proj self)).

(** [for x in l: body] *)
Fixpoint for_ {S A} (l : list A) (body : A → Py S unit) : Py S unit :=
  match l with
  | [] => mret tt
  | x :: l' => body x ;; for_ l' body
  end.

(** ** structurefunction.py *)

(** The attributes of a [StructureFunction]. The init fields [q], [j1],
    [j2], [wtype] are set by the generated [__init__]; every other attribute
    is absent ([None]) until a method assigns it. *)
Record StructureFunction := SF {
  sf_name : option string;
  sf_q : list F;
  sf_j1 : Z;
  sf_j2 : Z;
  sf_wtype : bool;
  sf_j : option (list Z);
  sf_values : option (list (list F));
  sf_logvalues : option (list (list F));
  sf_zeta : option (list F);
  sf_intercept : option (list F);
}.

Definition sf_set_name v (s : StructureFunction) :=
  SF (Some v) (sf_q s) (sf_j1 s) (sf_j2 s) (sf_wtype s) (sf_j s)
     (sf_values s) (sf_logvalues s) (sf_zeta s) (sf_intercept s).
Definition sf_set_j v (s : StructureFunction) :=
  SF (sf_name s) (sf_q s) (sf_j1 s) (sf_j2 s) (sf_wtype s) (Some v)
     (sf_values s) (sf_logvalues s) (sf_zeta s) (sf_intercept s).
Definition sf_set_logvalues v (s : StructureFunction) :=
  SF (sf_name s) (sf_q s) (sf_j1 s) (sf_j2 s) (sf_wtype s) (sf_j s)
     (sf_values s) (Some v) (sf_zeta s) (sf_intercept s).
Definition sf_set_zeta v (s : StructureFunction) :=
  SF (sf_name s) (sf_q s) (sf_j1 s) (sf_j2 s) (sf_wtype s) (sf_j s)
     (sf_values s) (sf_logvalues s) (Some v) (sf_intercept s).
Definition sf_set_intercept v (s : StructureFunction) :=
  SF (sf_name s) (sf_q s) (sf_j1 s) (sf_j2 s) (sf_wtype s) (sf_j s)
     (sf_values s) (sf_logvalues s) (sf_zeta s) (Some v).

(** The dataclass fields, in declaration order (lines 54-62). The base
    class [MultiResolutionQuantityBase] is not among the sources; it is
    taken to declare no init-only variable, as the signature
    [__post_init__(self, mrq)] of this class requires. *)
Definition SF_fields : list field_decl :=
  [ Field "mrq" InitVarField; Field "q" InitField; Field "j1" InitField;
    Field "j2" InitField; Field "wtype" InitField; Field "j" NoInitField;
    Field "values" NoInitField; Field "logvalues" NoInitField;
    Field "zeta" NoInitField ].

(** [def __post_init__(self, mrq)] *)
Definition SF_post_init_params : list string := ["mrq"].

(** The inner loop of [_compute] (lines 79-82): the moments of one scale. *)
Definition sf_moments (c_j : list F) (qs : list F) : list F :=
  foldl (λ s_j '(ind_q, q),
           <[ind_q := np_mean (fast_power_array (f_abs <$> c_j) q)]> s_j)
        (np_zeros (length qs)) (enumerate qs).

(** The local matrix [values] of [_compute] (lines 74-84). *)
Definition sf_local_values (mrq : MultiResolutionQuantity) (qs : list F) (js : list Z)
  : outcome (list (list F)) :=
  foldM (λ values '(ind_j, j),
           c_j ← dict_get (mrq_values mrq) j;
           Ok (set_column ind_j (sf_moments c_j qs) values))
        (np_zeros2 (length qs) (length js)) (enumerate js).

(** [_compute] (lines 72-86). The matrix [values] is a local variable; the
    method assigns [self.logvalues] only. *)
Definition SF_compute : Py StructureFunction unit :=
  self ← get_self;
  mrq ← get_mrq;
  js ← getattr sf_j;
  values ← lift (sf_local_values mrq (sf_q self) js);
  set_self (sf_set_logvalues (map (map f_log2) values)).

(** The body of the loop of [_compute_zeta] (lines 105-108). *)
Definition SF_zeta_step (x : list Z) (nj : list F) (ind_j1 ind_j2 : Z) (ind_q : nat)
  : Py StructureFunction unit :=
  logvalues ← getattr sf_logvalues;
  row ← lift (item logvalues ind_q);
  let y := py_slice row ind_j1 (ind_j2 + 1) in
  '(slope, intercept) ← lift (linear_regression x y nj);
  zeta ← getattr sf_zeta;
  set_self (sf_set_zeta (<[ind_q := slope]> zeta));;
  intercepts ← getattr sf_intercept;
  set_self (sf_set_intercept (<[ind_q := intercept]> intercepts)).

(** The weights of the regressions (lines 97-100, and 121-124 of
    mfspectrum.py). *)
Definition regression_weights (nj : list (Z * Z)) (j1 j2 : Z) (wtype : bool)
  : outcome (list F) :=
  if wtype then get_nj_interv nj j1 j2
  else Ok (np_ones (length (arange j1 (j2 + 1)))).

(** [_compute_zeta] (lines 88-108). *)
Definition SF_compute_zeta : Py StructureFunction unit :=
  self ← get_self;
  set_self (sf_set_zeta (np_zeros (length (sf_q self))));;
  set_self (sf_set_intercept (np_zeros (length (sf_q self))));;
  let x := arange (sf_j1 self) (sf_j2 self + 1) in
  mrq ← get_mrq;
  nj ← lift (regression_weights (mrq_nj mrq) (sf_j1 self) (sf_j2 self) (sf_wtype self));
  let ind_j1 := (sf_j1 self - 1)%Z in
  let ind_j2 := (sf_j2 self - 1)%Z in
  for_ (seq 0 (length (sf_q self))) (SF_zeta_step x nj ind_j1 ind_j2).

(** [__post_init__] (lines 64-70). *)
Definition SF_post_init : Py StructureFunction unit :=
  mrq ← get_mrq;
  set_self (sf_set_name (mrq_name mrq));;
  set_self (sf_set_j (dict_keys (mrq_values mrq)));;
  SF_compute;;
  SF_compute_zeta.

(** The generated [__init__(self, mrq, q, j1, j2, wtype)]: it stores the
    init fields, then calls [self.__post_init__] with the init-only
    variables. The result is the final state: the new object and the
    quantity as construction leaves it. *)
Definition StructureFunction_init (mrq : MultiResolutionQuantity)
    (q : list F) (j1 j2 : Z) (wtype : bool) : outcome (world StructureFunction) :=
  _ ← bind_arguments SF_post_init_params (post_init_args SF_fields);
  '(_, w) ← SF_post_init
     (World mrq (SF None q j1 j2 wtype None None None None None));
  Ok w.

(** [StructureFunction(mrq, q, j1, j2, wtype)] *)
Definition StructureFunction_new (mrq : MultiResolutionQuantity)
    (q : list F) (j1 j2 : Z) (wtype : bool) : outcome StructureFunction :=
  w_self <$> StructureFunction_init mrq q j1 j2 wtype.

(** [get_H] (lines 110-116) *)
Definition get_H (self : StructureFunction) : outcome (option F) :=
  zeta ← attr (sf_zeta self);
  H ← mask_index zeta ((λ x, f_eqb x (of_int 2)) <$> sf_q self);
  match H with
  | H0 :: _ => Ok (Some (f_div H0 (of_int 2)))
  | [] => Ok None
  end.

(** ** mfspectrum.py *)

(** The attributes of a [MultifractalSpectrum]. *)
Record MultifractalSpectrum := MFS {
  mfs_name : option string;
  mfs_nj : option (list (Z * Z));
  mfs_j : option (list Z);
  mfs_j1 : Z;
  mfs_j2 : Z;
  mfs_wtype : bool;
  mfs_q : list F;
  mfs_Dq : option (list F);
  mfs_hq : option (list F);
  mfs_U : option (list (list F));
  mfs_V : option (list (list F));
}.

Definition mfs_set_name v (s : MultifractalSpectrum) :=
  MFS (Some v) (mfs_nj s) (mfs_j s) (mfs_j1 s) (mfs_j2 s) (mfs_wtype s)
      (mfs_q s) (mfs_Dq s) (mfs_hq s) (mfs_U s) (mfs_V s).
Definition mfs_set_nj v (s : MultifractalSpectrum) :=
  MFS (mfs_name s) (Some v) (mfs_j s) (mfs_j1 s) (mfs_j2 s) (mfs_wtype s)
      (mfs_q s) (mfs_Dq s) (mfs_hq s) (mfs_U s) (mfs_V s).
Definition mfs_set_j v (s : MultifractalSpectrum) :=
  MFS (mfs_name s) (mfs_nj s) (Some v) (mfs_j1 s) (mfs_j2 s) (mfs_wtype s)
      (mfs_q s) (mfs_Dq s) (mfs_hq s) (mfs_U s) (mfs_V s).
Definition mfs_set_Dq v (s : MultifractalSpectrum) :=
  MFS (mfs_name s) (mfs_nj s) (mfs_j s) (mfs_j1 s) (mfs_j2 s) (mfs_wtype s)
      (mfs_q s) (Some v) (mfs_hq s) (mfs_U s) (mfs_V s).
Definition mfs_set_hq v (s : MultifractalSpectrum) :=
  MFS (mfs_name s) (mfs_nj s) (mfs_j s) (mfs_j1 s) (mfs_j2 s) (mfs_wtype s)
      (mfs_q s) (mfs_Dq s) (Some v) (mfs_U s) (mfs_V s).
Definition mfs_set_U v (s : MultifractalSpectrum) :=
  MFS (mfs_name s) (mfs_nj s) (mfs_j s) (mfs_j1 s) (mfs_j2 s) (mfs_wtype s)
      (mfs_q s) (mfs_Dq s) (mfs_hq s) (Some v) (mfs_V s).
Definition mfs_set_V v (s : MultifractalSpectrum) :=
  MFS (mfs_name s) (mfs_nj s) (mfs_j s) (mfs_j1 s) (mfs_j2 s) (mfs_wtype s)
      (mfs_q s) (mfs_Dq s) (mfs_hq s) (mfs_U s) (Some v).

(** The dataclass fields, in declaration order (lines 66-75). *)
Definition MFS_fields : list field_decl :=
  [ Field "mrq" InitVarField; Field "j" NoInitField; Field "j1" InitField;
    Field "j2" InitField; Field "wtype" InitField; Field "q" InitField;
    Field "Dq" NoInitField; Field "hq" NoInitField; Field "U" NoInitField;
    Field "V" NoInitField ].

(** [def __post_init__(self, mrq, j1, j2, wtype)] (line 77) *)
Definition MFS_post_init_params : list string := ["mrq"; "j1"; "j2"; "wtype"].

(** [np.stack(arrays)] of one-dimensional arrays of one length: the list of
    rows; [ValueError] on an empty list. *)
Definition np_stack (arrays : list (list F)) : outcome (list (list F)) :=
  match arrays with
  | [] => Raise ValueError
  | _ => Ok arrays
  end.

(** One pass of the loop over scales (lines 95-109): the rows [V[ind_j, :]]
    and [U[ind_j, :]] computed from the count [nj] and the coefficients. *)
Definition mfs_R (mrq_values_j : list F) (qs : list F) : outcome (list (list F)) :=
  match np_stack ((λ q, fast_power_array mrq_values_j q) <$> qs) with
  | Ok temp => Ok ((λ row, (λ t, f_div t (np_sum row)) <$> row) <$> temp)
  | Raise e => Raise e
  end.

Definition mfs_V_row (mrq_values_j : list F) (R_j : list (list F)) : list F :=
  (λ row, np_sum (zip_with f_mul row (f_log2 <$> mrq_values_j))) <$> R_j.

Definition mfs_U_row (nj : Z) (R_j : list (list F)) : list F :=
  (λ row, f_add (f_log2 (of_int nj)) (np_sum (zip_with f_mul row (f_log2 <$> row))))
    <$> R_j.

(** The local matrices [U] and [V] (lines 91-109). *)
Definition mfs_local_UV (mrq : MultiResolutionQuantity) (qs : list F) (js : list Z)
  : outcome (list (list F) * list (list F)) :=
  foldM (λ '(U, V) '(ind_j, j),
           nj ← dict_get (mrq_nj mrq) j;
           c_j ← dict_get (mrq_values mrq) j;
           let mrq_values_j := f_abs <$> c_j in
           R_j ← mfs_R mrq_values_j qs;
           let V' := <[ind_j := mfs_V_row mrq_values_j R_j]> V in
           let U' := <[ind_j := mfs_U_row nj R_j]> U in
           Ok (U', V'))
        (np_zeros2 (length js) (length qs), np_zeros2 (length js) (length qs))
        (enumerate js).

(** The regression loop (lines 115-134) on the local arrays [Dq], [hq]. *)
Definition mfs_regressions (U V : list (list F)) (x : list Z) (wj : list F)
    (j1 j2 : Z) (nq : nat) : outcome (list F * list F) :=
  foldM (λ '(Dq, hq) ind_q,
           y ← column_slice U (j1 - 1) j2 ind_q;
           z ← column_slice V (j1 - 1) j2 ind_q;
           '(slope_1, _) ← linear_regression x y wj;
           '(slope_2, _) ← linear_regression x z wj;
           Ok (<[ind_q := f_add (of_int 1) slope_1]> Dq, <[ind_q := slope_2]> hq))
        (np_zeros nq, np_zeros nq) (seq 0 nq).

(** [_compute] (lines 85-137). [self.get_nj_interv] reads [self.nj]. *)
Definition MFS_compute : Py MultifractalSpectrum unit :=
  self ← get_self;
  mrq ← get_mrq;
  js ← getattr mfs_j;
  '(U, V) ← lift (mfs_local_UV mrq (mfs_q self) js);
  set_self (mfs_set_U U);;
  set_self (mfs_set_V V);;
  let x := arange (mfs_j1 self) (mfs_j2 self + 1) in
  wj ← (if mfs_wtype self
        then nj ← getattr mfs_nj; lift (get_nj_interv nj (mfs_j1 self) (mfs_j2 self))
        else mret (np_ones (length x)));
  '(Dq, hq) ← lift (mfs_regressions U V x wj (mfs_j1 self) (mfs_j2 self)
                      (length (mfs_q self)));
  set_self (mfs_set_Dq Dq);;
  set_self (mfs_set_hq hq).

(** The body of [__post_init__] (lines 79-83). *)
Definition MFS_post_init : Py MultifractalSpectrum unit :=
  mrq ← get_mrq;
  set_self (mfs_set_name (mrq_name mrq));;
  set_self (mfs_set_nj (mrq_nj mrq));;
  set_self (mfs_set_j (dict_keys (mrq_values mrq)));;
  MFS_compute.

(** The generated [__init__(self, mrq, j1, j2, wtype, q)]: the call
    [self.__post_init__(mrq)] is bound against the four parameters that
    [__post_init__] declares. *)
Definition MultifractalSpectrum_init (mrq : MultiResolutionQuantity)
    (j1 j2 : Z) (wtype : bool) (q : list F) : outcome (world MultifractalSpectrum) :=
  _ ← bind_arguments MFS_post_init_params (post_init_args MFS_fields);
  '(_, w) ← MFS_post_init
     (World mrq (MFS None None None j1 j2 wtype q None None None None));
  Ok w.

(** [MultifractalSpectrum(mrq, j1, j2, wtype, q)] *)
Definition MultifractalSpectrum_new (mrq : MultiResolutionQuantity)
    (j1 j2 : Z) (wtype : bool) (q : list F) : outcome MultifractalSpectrum :=
  w_self <$> MultifractalSpectrum_init mrq j1 j2 wtype q.

End Estimators.

Arguments World {F S} _ _.
Arguments w_mrq {F S} _.
Arguments w_self {F S} _.

(** ** structurefunction.py: the second accessor and the plots *)

(** The plotting methods raise exceptions that construction cannot raise. *)
Inductive plot_exn : Set :=
  | Builtin (e : exn)
  | ZeroDivisionError
  | UnboundLocalError
  | AssertionError.

Inductive result (A : Type) : Type :=
  | Return (a : A)
  | Throw (e : plot_exn).
Arguments Return {A} a.
Arguments Throw {A} e.

#[global] Instance result_ret : MRet result := λ A a, Return a.
#[global] Instance result_bind : MBind result := λ A B f m,
  match m with Return a => f a | Throw e => Throw e end.

Definition from_outcome {A} (m : outcome A) : result A :=
  match m with Ok a => Return a | Raise e => Throw (Builtin e) end.

(** [for x in l: b = f(b, x)] where [f] may throw. *)
Fixpoint fold_result {A B} (f : B → A → result B) (b : B) (l : list A) : result B :=
  match l with
  | [] => Return b
  | x :: l' => match f b x with Return b' => fold_result f b' l' | Throw e => Throw e end
  end.

(** [a % b] and [a // b] on integers. Python's remainder has the sign of the
    divisor and its quotient is the floor, as [Z.modulo] and [Z.div]. *)
Definition py_mod (a b : Z) : result Z :=
  if (b =? 0)%Z then Throw ZeroDivisionError else Return (a mod b)%Z.
Definition py_floordiv (a b : Z) : result Z :=
  if (b =? 0)%Z then Throw ZeroDivisionError else Return (a / b)%Z.

(** [int(np.ceil(a / b))] on integers: the true quotient, rounded up. (The
    float quotient is exact enough for this whenever the integers are below
    2^53.) *)
Definition py_ceil_div (a b : Z) : result Z :=
  if (b =? 0)%Z then Throw ZeroDivisionError else Return (- ((- a) / b))%Z.

(** The position that the index [i] denotes in a sequence of [n] items: a
    negative index counts from the end; out of range is an [IndexError]. *)
Definition norm_index (n : nat) (i : Z) : result nat :=
  if ((0 <=? i) && (i <? Z.of_nat n))%Z then Return (Z.to_nat i)
  else if ((- Z.of_nat n <=? i) && (i <? 0))%Z then Return (Z.to_nat (i + Z.of_nat n))
  else Throw (Builtin IndexError).

Section Presentation.
Context {F : Type} `{!NumPy F}.

(** [get_intercept] (lines 118-124) *)
Definition get_intercept (self : StructureFunction) : outcome (option F) :=
  intercepts ← attr (sf_intercept self);
  intercept ← mask_index intercepts ((λ x, f_eqb x (of_int 2)) <$> sf_q self);
  match intercept with
  | i0 :: _ => Ok (Some i0)
  | [] => Ok None
  end.

(** *** What matplotlib is asked to draw *)

(** A label: a fixed text, or the text formatted from an exponent
    ([f'q = {q:.3f}']). *)
Inductive label :=
  | Text (s : string)
  | QEquals (q : F).

Inductive artist :=
  (* [ax.plot(x, y, 'r--.')] *)
  | Curve (x : list Z) (y : list F)
  (* [ax.plot([x0, x1], [y0, y1], ..., label='slope = ' + '%.5f' % slope)] *)
  | RegressionLine (x0 x1 : Z) (y0 y1 : F) (slope : F)
  (* [plt.plot(self.q, self.zeta, 'k--.')] *)
  | ScalingCurve (q zeta : list F).

Record Axes := MkAxes {
  ax_artists : list artist;
  ax_xlabel : option label;
  ax_ylabel : option label;
  ax_legend : bool;
  ax_removed : bool;          (* [fig.delaxes(ax)] was called *)
}.

Definition blank_axes : Axes := MkAxes [] None None false false.

(** A figure: its label, its grid of axes ([squeeze=False]: always two
    dimensions), its title, whether it was drawn, the file it was saved to. *)
Record Figure := MkFigure {
  fig_label : string;
  fig_axes : list (list Axes);
  fig_suptitle : option string;
  fig_drawn : bool;
  fig_saved : option string;
}.

(** [plt.subplots(d1, d2, squeeze=False)]: a grid of [d1] rows and [d2]
    columns of fresh axes; matplotlib refuses a number of rows or columns
    that is not positive with a [ValueError]. *)
Definition subplots (d1 d2 : Z) : result (list (list Axes)) :=
  if ((0 <? d1) && (0 <? d2))%Z
  then Return (replicate (Z.to_nat d1) (replicate (Z.to_nat d2) blank_axes))
  else Throw (Builtin ValueError).

(** [ax.plot(x, y)]: matplotlib refuses sequences of different lengths. *)
Definition ax_plot_curve (x : list Z) (y : list F) (ax : Axes) : result Axes :=
  if decide (length x = length y)
  then Return (MkAxes (ax_artists ax ++ [Curve x y]) (ax_xlabel ax) (ax_ylabel ax)
                      (ax_legend ax) (ax_removed ax))
  else Throw (Builtin ValueError).

(** Lines 165-166 and 170-182: the labels, and the regression line when
    [zeta] is not empty. *)
Definition ax_decorate (self : StructureFunction) (ind_q : nat) (q : F) (ax : Axes)
  : result Axes :=
  let ax := MkAxes (ax_artists ax) (Some (Text "j")) (Some (QEquals q))
                   (ax_legend ax) (ax_removed ax) in
  zeta ← from_outcome (attr (sf_zeta self));
  if (0 <? length zeta)%nat then
    let x0 := sf_j1 self in
    let x1 := sf_j2 self in
    slope ← from_outcome (item zeta ind_q);
    intercepts ← from_outcome (attr (sf_intercept self));
    intercept ← from_outcome (item intercepts ind_q);
    let y0 := f_add (f_mul slope (of_int x0)) intercept in
    let y1 := f_add (f_mul slope (of_int x1)) intercept in
    Return (MkAxes (ax_artists ax ++ [RegressionLine x0 x1 y0 y1 slope])
                   (ax_xlabel ax) (ax_ylabel ax) true (ax_removed ax))
  else Return ax.

(** One pass of the loop over the exponents (lines 156-182). The axes are
    [axes[ind_q % nrow][ind_q // nrow]]. *)
Definition plot_exponent (self : StructureFunction) (x : list Z) (nrow : Z)
    (ignore_q0 : bool) (axes : list (list Axes)) (iq : nat * F)
  : result (list (list Axes)) :=
  let '(ind_q, q) := iq in
  if f_eqb q (of_int 0) && ignore_q0 then Return axes
  else
    logvalues ← from_outcome (attr (sf_logvalues self));
    y ← from_outcome (item logvalues ind_q);
    i ← py_mod (Z.of_nat ind_q) nrow;
    r ← norm_index (length axes) i;
    let row := default [] (axes !! r) in
    k ← py_floordiv (Z.of_nat ind_q) nrow;
    c ← norm_index (length row) k;
    let ax := default blank_axes (row !! c) in
    ax ← ax_plot_curve x y ax;
    ax ← ax_decorate self ind_q q ax;
    Return (<[r := <[c := ax]> row]> axes).

(** One pass of the loop that removes the axes left over (lines 184-185). *)
Definition remove_axes (nrow : Z) (axes : list (list Axes)) (j : Z)
  : result (list (list Axes)) :=
  i ← py_mod j nrow;
  r ← norm_index (length axes) i;
  let row := default [] (axes !! r) in
  k ← py_floordiv j nrow;
  c ← norm_index (length row) k;
  let ax := default blank_axes (row !! c) in
  let ax := MkAxes (ax_artists ax) (ax_xlabel ax) (ax_ylabel ax) (ax_legend ax) true in
  Return (<[r := <[c := ax]> row]> axes).

(** [len(axes.flat)] *)
Definition len_flat (axes : list (list Axes)) : Z :=
  Z.of_nat (length (concat axes)).

(** Line 135: [nrow = min(nrow, len(self.q))] *)
Definition plot_nrow (self : StructureFunction (F := F)) (nrow : Z) : Z :=
  Z.min nrow (Z.of_nat (length (sf_q self))).

(** Line 136: [nq = len(self.q) + (-1 if 0.0 in self.q and ignore_q0 else 0)] *)
Definition plot_nq (self : StructureFunction) (ignore_q0 : bool) : Z :=
  (Z.of_nat (length (sf_q self))
   + (if existsb (λ q, f_eqb q (of_int 0)) (sf_q self) && ignore_q0 then -1 else 0))%Z.

(** Lines 138-144: the numbers of rows and of columns of the grid. *)
Definition plot_dims (nrow nq : Z) : result (Z * Z) :=
  if (1 <? nq)%Z
  then plot_dim_2 ← py_ceil_div nq nrow; Return (nrow, plot_dim_2)
  else Return (1, 1)%Z.

(** [plot] (lines 126-189). [formalism] stands for [self.formalism], an
    attribute that the base class (not among the sources) provides; it is
    taken to be a string. The figure is taken to be new: [fig_axes] is the
    grid that [plt.subplots] returns. After the first loop [ind_q] is the
    last index of [self.q], whether that exponent was drawn or not; it is
    unbound when [self.q] is empty. *)
Definition plot (self : StructureFunction) (formalism figlabel : string) (nrow : Z)
    (filename : option string) (ignore_q0 : bool) : result Figure :=
  let nrow := plot_nrow self nrow in
  let nq := plot_nq self ignore_q0 in
  dims ← plot_dims nrow nq;
  axes ← subplots dims.1 dims.2;
  let suptitle := (formalism ++ " - structure functions $\log_2(S(j,q))$")%string in
  x ← from_outcome (attr (sf_j self));
  axes ← fold_result (plot_exponent self x nrow ignore_q0) axes (enumerate (sf_q self));
  ind_q ← (if decide (sf_q self = []) then Throw UnboundLocalError
           else Return (Z.of_nat (length (sf_q self)) - 1)%Z);
  axes ← fold_result (remove_axes nrow) axes (arange (ind_q + 1) (len_flat axes));
  Return (MkFigure figlabel axes (Some suptitle) true filename).

(** [plot_scaling] (lines 191-206): one figure with one axes. *)
Definition plot_scaling (self : StructureFunction) (formalism figlabel : string)
    (filename : option string) : result Figure :=
  if negb (1 <? length (sf_q self))%nat then Throw AssertionError
  else
    zeta ← from_outcome (attr (sf_zeta self));
    if decide (length (sf_q self) = length zeta) then
      Return (MkFigure figlabel
                [[MkAxes [ScalingCurve (sf_q self) zeta] (Some (Text "q"))
                         (Some (Text "$\zeta(q)$")) false false]]
                (Some (formalism ++ " - scaling function")%string) true filename)
    else Throw (Builtin ValueError).

End Presentation.

(** ** structurefunction.py on a store of shared, mutable objects

    Python passes the quantity, its dicts and its arrays by reference, and
    the methods write arrays in place ([s_j[ind_q] = ...],
    [values[:, ind_j] = s_j], [self.zeta[ind_q] = slope]). Here the objects
    live in a store, a list indexed by location; a new object takes the next
    free location, and an assignment through a reference replaces the
    object at that location. The methods of [StructureFunction] are written
    once more on this store, line by line, with the same array operations
    as above. *)
Module Store.

(** A location of the store. *)
Abbreviation loc := nat.

Section Store.
Context {F : Type} `{!NumPy F, !Utils F}.

(** The attributes of a [StructureFunction] object. The arrays are held by
    reference; [name], [j1], [j2] and [wtype] are immutable values. The
    attribute [values] is never assigned. *)
Record Estimator := MkEstimator {
  e_name : option string;
  e_q : loc;
  e_j1 : Z;
  e_j2 : Z;
  e_wtype : bool;
  e_j : option loc;
  e_logvalues : option loc;
  e_zeta : option loc;
  e_intercept : option loc;
}.

Definition set_name v (s : Estimator) :=
  MkEstimator (Some v) (e_q s) (e_j1 s) (e_j2 s) (e_wtype s) (e_j s)
              (e_logvalues s) (e_zeta s) (e_intercept s).
Definition set_j v (s : Estimator) :=
  MkEstimator (e_name s) (e_q s) (e_j1 s) (e_j2 s) (e_wtype s) (Some v)
              (e_logvalues s) (e_zeta s) (e_intercept s).
Definition set_logvalues v (s : Estimator) :=
  MkEstimator (e_name s) (e_q s) (e_j1 s) (e_j2 s) (e_wtype s) (e_j s)
              (Some v) (e_zeta s) (e_intercept s).
Definition set_zeta v (s : Estimator) :=
  MkEstimator (e_name s) (e_q s) (e_j1 s) (e_j2 s) (e_wtype s) (e_j s)
              (e_logvalues s) (Some v) (e_intercept s).
Definition set_intercept v (s : Estimator) :=
  MkEstimator (e_name s) (e_q s) (e_j1 s) (e_j2 s) (e_wtype s) (e_j s)
              (e_logvalues s) (e_zeta s) (Some v).

Inductive object :=
  (* a MultiResolutionQuantity: [name], and references to the dicts [nj]
     and [values] *)
  | Quantity (name : string) (nj values : loc)
  (* [mrq.nj]: scale -> number of coefficients *)
  | CountDict (d : list (Z * Z))
  (* [mrq.values]: scale -> reference to the array of coefficients *)
  | ArrayDict (d : list (Z * loc))
  (* an array of integers ([self.j], [x]) *)
  | Ints (a : list Z)
  (* a one-dimensional and a two-dimensional array of floats *)
  | Array (a : list F)
  | Matrix (m : list (list F))
  (* a StructureFunction *)
  | Object (s : Estimator).

Local Abbreviation store := (list object).

(** A computation on the store; an exception leaves the store as it is at
    the point where it is raised. *)
Definition St (A : Type) : Type := store → outcome A * store.

Definition ret {A} (a : A) : St A := λ h, (Ok a, h).
Definition bind {A B} (f : A → St B) (m : St A) : St B :=
  λ h, match m h with
       | (Ok a, h') => f a h'
       | (Raise e, h') => (Raise e, h')
       end.

#[global] Instance St_ret : MRet St := λ A, ret.
#[global] Instance St_bind : MBind St := λ A B, bind.

Definition lift {A} (m : outcome A) : St A := λ h, (m, h).

(** A new object takes the next free location. *)
Definition alloc (o : object) : St loc := λ h, (Ok (length h), h ++ [o]).

(** Following a reference. A reference of Python never dangles and the
    attributes read below have one type each: [TypeError] stands for a store
    that is not as the methods expect it. *)
Definition load (l : loc) : St object :=
  λ h, match h !! l with
       | Some o => (Ok o, h)
       | None => (Raise TypeError, h)
       end.

(** Replacing the object at a location: what an assignment through a
    reference does. *)
Definition update (l : loc) (o : object) : St unit := λ h, (Ok tt, <[l := o]> h).

Definition load_quantity (l : loc) : St (string * loc * loc) :=
  o ← load l;
  match o with Quantity n a b => mret (n, a, b) | _ => lift (Raise TypeError) end.
Definition load_counts (l : loc) : St (list (Z * Z)) :=
  o ← load l;
  match o with CountDict d => mret d | _ => lift (Raise TypeError) end.
Definition load_arrays (l : loc) : St (list (Z * loc)) :=
  o ← load l;
  match o with ArrayDict d => mret d | _ => lift (Raise TypeError) end.
Definition load_ints (l : loc) : St (list Z) :=
  o ← load l;
  match o with Ints a => mret a | _ => lift (Raise TypeError) end.
Definition load_array (l : loc) : St (list F) :=
  o ← load l;
  match o with Array a => mret a | _ => lift (Raise TypeError) end.
Definition load_matrix (l : loc) : St (list (list F)) :=
  o ← load l;
  match o with Matrix m => mret m | _ => lift (Raise TypeError) end.
Definition load_estimator (l : loc) : St Estimator :=
  o ← load l;
  match o with Object s => mret s | _ => lift (Raise TypeError) end.

(** [self.x = v] *)
Definition setattr (self : loc) (f : Estimator → Estimator) : St unit :=
  s ← load_estimator self;
  update self (Object (f s)).

(** [a[i] = v], in place. *)
Definition array_setitem (a : loc) (i : nat) (v : F) : St unit :=
  items ← load_array a;
  if decide (i < length items) then update a (Array (<[i := v]> items))
  else lift (Raise IndexError).

(** [m[:, j] = col], in place. *)
Definition matrix_setcolumn (m : loc) (j : nat) (col : loc) : St unit :=
  rows ← load_matrix m;
  items ← load_array col;
  update m (Matrix (set_column j items rows)).

(** [for x in l: body] *)
Fixpoint for_ {A} (l : list A) (body : A → St unit) : St unit :=
  match l with
  | [] => mret tt
  | x :: l' => body x ;; for_ l' body
  end.

(** Modelled from the spec: [MultiResolutionQuantityBase.get_nj_interv] is
    not among the sources. It reads the dict [nj] of the quantity and
    returns the counts of the scales j1..j2 in a new array. *)
Definition get_nj_interv (mrq : loc) (j1 j2 : Z) : St loc :=
  '(_, nj, _) ← load_quantity mrq;
  d ← load_counts nj;
  w ← lift (get_nj_interv d j1 j2);
  alloc (Array w).

(** [np.mean(fast_power(np.abs(c_j), q))] (line 82). [np.abs] returns a new
    array, and that array, not the array of the quantity, is what
    [fast_power] is given; no name refers to the two temporary arrays
    afterwards, so they are not kept in the store. *)
Definition SF_moment (c_j : loc) (q : F) : St F :=
  c ← load_array c_j;
  mret (np_mean (fast_power_array (f_abs <$> c) q)).

(** [_compute] (lines 72-86) *)
Definition SF_compute (self mrq : loc) : St unit :=
  s ← load_estimator self;
  qs ← load_array (e_q s);
  j ← lift (attr (e_j s));
  js ← load_ints j;
  values ← alloc (Matrix (np_zeros2 (length qs) (length js)));
  for_ (enumerate js) (λ '(ind_j, j),
    '(_, _, d) ← load_quantity mrq;
    d ← load_arrays d;
    c_j ← lift (dict_get d j);
    v ← load_matrix values;
    s_j ← alloc (Array (np_zeros (length v)));
    s ← load_estimator self;
    qs ← load_array (e_q s);
    for_ (enumerate qs) (λ '(ind_q, q),
      m ← SF_moment c_j q;
      array_setitem s_j ind_q m);;
    matrix_setcolumn values ind_j s_j);;
  v ← load_matrix values;
  logvalues ← alloc (Matrix (map (map f_log2) v));
  setattr self (set_logvalues logvalues).

(** The body of the loop of [_compute_zeta] (lines 105-108). The slice [y]
    is a view of [self.logvalues]: no new array. *)
Definition SF_zeta_step (self x nj : loc) (ind_j1 ind_j2 : Z) (ind_q : nat)
  : St unit :=
  s ← load_estimator self;
  lv ← lift (attr (e_logvalues s));
  logvalues ← load_matrix lv;
  row ← lift (item logvalues ind_q);
  let y := py_slice row ind_j1 (ind_j2 + 1) in
  xs ← load_ints x;
  w ← load_array nj;
  '(slope, intercept) ← lift (linear_regression xs y w);
  s ← load_estimator self;
  z ← lift (attr (e_zeta s));
  array_setitem z ind_q slope;;
  s ← load_estimator self;
  i ← lift (attr (e_intercept s));
  array_setitem i ind_q intercept.

(** [_compute_zeta] (lines 88-108) *)
Definition SF_compute_zeta (self mrq : loc) : St unit :=
  s ← load_estimator self;
  qs ← load_array (e_q s);
  zeta ← alloc (Array (np_zeros (length qs)));
  setattr self (set_zeta zeta);;
  s ← load_estimator self;
  qs ← load_array (e_q s);
  intercept ← alloc (Array (np_zeros (length qs)));
  setattr self (set_intercept intercept);;
  s ← load_estimator self;
  x ← alloc (Ints (arange (e_j1 s) (e_j2 s + 1)));
  s ← load_estimator self;
  nj ← (if e_wtype s then get_nj_interv mrq (e_j1 s) (e_j2 s)
        else xs ← load_ints x; alloc (Array (np_ones (length xs))));
  s ← load_estimator self;
  let ind_j1 := (e_j1 s - 1)%Z in
  let ind_j2 := (e_j2 s - 1)%Z in
  qs ← load_array (e_q s);
  for_ (seq 0 (length qs)) (SF_zeta_step self x nj ind_j1 ind_j2).

(** [__post_init__] (lines 64-70) *)
Definition SF_post_init (self mrq : loc) : St unit :=
  '(name, _, _) ← load_quantity mrq;
  setattr self (set_name name);;
  '(_, _, values) ← load_quantity mrq;
  d ← load_arrays values;
  j ← alloc (Ints (dict_keys d));
  setattr self (set_j j);;
  SF_compute self mrq;;
  SF_compute_zeta self mrq.

(** [StructureFunction(mrq, q, j1, j2, wtype)]: a new object, the init
    fields, then [__post_init__]; the result is the reference to the new
    object. *)
Definition StructureFunction_new (mrq q : loc) (j1 j2 : Z) (wtype : bool) : St loc :=
  self ← alloc (Object (MkEstimator None q j1 j2 wtype None None None None));
  lift (bind_arguments SF_post_init_params (post_init_args SF_fields));;
  SF_post_init self mrq;;
  mret self.

End Store.

Abbreviation store := (list object).

End Store.

(** What a store holds. *)
Section StoreNotions.
Context {F : Type} `{!NumPy F, !Utils F}.

(** The reference [l] points to the quantity [mrq]: the object, its two
    dicts and one array per scale. *)
Definition represents (h : list (Store.object (F := F))) (l : Store.loc)
    (mrq : MultiResolutionQuantity)
  : Prop :=
  ∃ nj values d,
    h !! l = Some (Store.Quantity (mrq_name mrq) nj values) ∧
    h !! nj = Some (Store.CountDict (mrq_nj mrq)) ∧
    h !! values = Some (Store.ArrayDict d) ∧
    Forall2 (λ '(j, c) '(j', l'), j = j' ∧ h !! l' = Some (Store.Array c))
            (mrq_values mrq) d.

(** The reference [self] points to an object with the attributes of [sf],
    its arrays behind references, and its exponents behind [q]. *)
Definition holds (h : list (Store.object (F := F))) (self q : Store.loc)
    (sf : StructureFunction)
  : Prop :=
  ∃ j logvalues zeta intercept,
    h !! self = Some (Store.Object
                        (Store.MkEstimator (sf_name sf) q (sf_j1 sf) (sf_j2 sf)
                           (sf_wtype sf) (Some j) (Some logvalues) (Some zeta)
                           (Some intercept))) ∧
    h !! q = Some (Store.Array (sf_q sf)) ∧
    h !! j = Store.Ints <$> sf_j sf ∧
    h !! logvalues = Store.Matrix <$> sf_logvalues sf ∧
    h !! zeta = Store.Array <$> sf_zeta sf ∧
    h !! intercept = Store.Array <$> sf_intercept sf ∧
    sf_values sf = None.

(** Between two stores: every object of the first that is not at a
    location of [W] is in the second, at its location, as it was. *)
Definition unchanged_outside (W : list Store.loc) (h h' : list (Store.object (F := F)))
  : Prop :=
  ∀ l o, h !! l = Some o → l ∉ W → h' !! l = Some o.

End StoreNotions.

(** ** The [utils] helpers as the specification describes them *)

Section SpecUtils.
Context {F : Type} `{!NumPy F}.

(** Modelled from the spec: [utils.fast_power] is not among the sources.
    Section 4.1: when [q == 0] the result is exactly 1 for every element,
    also where the element is 0; when [q != 0] and the element is 0 the
    result is exactly 0; otherwise the standard real power. *)
Definition spec_fast_power (x q : F) : F :=
  if f_eqb q (of_int 0) then of_int 1
  else if f_eqb x (of_int 0) then of_int 0
  else f_power x q.

(** [sum(w_i * a_i * b_i)] *)
Definition weighted_sum (w a b : list F) : F :=
  np_sum (zip_with f_mul w (zip_with f_mul a b)).

(** All the abscissas are equal (also: there is none, or one). *)
Definition all_equal (x : list Z) : bool :=
  match x with
  | [] => true
  | x0 :: xs => forallb (Z.eqb x0) xs
  end.

(** Modelled from the spec: the closed form of section 4.2, with W the sum
    of the weights and xm, ym the weighted means,
    slope = sum w (x - xm) (y - ym) / sum w (x - xm)^2 and
    intercept = ym - slope * xm. *)
Definition closed_form_fit (x : list Z) (y w : list F) : F * F :=
  let xs := of_int <$> x in
  let W := np_sum w in
  let xm := f_div (np_sum (zip_with f_mul w xs)) W in
  let ym := f_div (np_sum (zip_with f_mul w y)) W in
  let dx := (λ a, f_sub a xm) <$> xs in
  let dy := (λ a, f_sub a ym) <$> y in
  let slope := f_div (weighted_sum w dx dy) (weighted_sum w dx dx) in
  (slope, f_sub ym (f_mul slope xm)).

(** Modelled from the spec: [utils.linear_regression] is not among the
    sources. Section 4.2: the closed form above; when all the abscissas are
    equal the fit fails (section 7: DegenerateRegressionError). The three
    sequences have one length n; sequences of different lengths are outside
    the contract and are refused here with [ValueError], as numpy refuses to
    combine arrays of different shapes. *)
Definition spec_linear_regression (x : list Z) (y w : list F) : outcome (F * F) :=
  if negb ((length x =? length y) && (length x =? length w)) then Raise ValueError
  else if all_equal x then Raise DegenerateRegressionError
  else Ok (closed_form_fit x y w).

(** A second implementation of the helper interface: the same closed form
    with no guard on the abscissas, as a direct numpy transcription computes
    it. With equal abscissas the denominator is zero and the results are not
    finite; nothing is raised. It serves to run the estimators with a helper
    that does not fail on a window of one point. *)
Definition unguarded_linear_regression (x : list Z) (y w : list F) : outcome (F * F) :=
  if negb ((length x =? length y) && (length x =? length w)) then Raise ValueError
  else Ok (closed_form_fit x y w).

Definition spec_utils : Utils F :=
  {| fast_power := spec_fast_power; linear_regression := spec_linear_regression |}.

Definition unguarded_utils : Utils F :=
  {| fast_power := spec_fast_power; linear_regression := unguarded_linear_regression |}.

End SpecUtils.

(** ** An exact instance of the numeric interface

    Floats that are exact rationals, with [None] for every value that this
    instance does not compute exactly: numpy's [inf] and [nan], and values
    that are not rational. It is used to run the estimators on concrete
    inputs. *)
Module Exact.

Definition num : Type := option Q.

Definition lift2 (f : Q → Q → Q) (a b : num) : num :=
  match a, b with
  | Some x, Some y => Some (Qred (f x y))
  | _, _ => None
  end.

Definition div (a b : num) : num :=
  match a, b with
  | Some x, Some y => if Qeq_bool y 0%Q then None else Some (Qred (x / y)%Q)
  | _, _ => None
  end.

(** [Some k] when [n = 2^k]. *)
Definition log2_pos (n : Z) : option Z :=
  if ((0 <? n) && (2 ^ Z.log2 n =? n))%Z then Some (Z.log2 n) else None.

Definition log2 (a : num) : num :=
  match a with
  | Some x =>
      let r := Qred x in
      if (Z.pos (Qden r) =? 1)%Z then inject_Z <$> log2_pos (Qnum r)
      else if (Qnum r =? 1)%Z then (λ k, inject_Z (- k)) <$> log2_pos (Z.pos (Qden r))
      else None
  | None => None
  end.

(** Integer exponents only; a zero base with a negative exponent is [inf]. *)
Definition power (a b : num) : num :=
  match a, b with
  | Some x, Some y =>
      let e := Qred y in
      if (Z.pos (Qden e) =? 1)%Z
      then if Qeq_bool x 0%Q && (Qnum e <? 0)%Z then None
           else Some (Qred (Qpower x (Qnum e)))
      else None
  | _, _ => None
  end.

Definition eqb (a b : num) : bool :=
  match a, b with
  | Some x, Some y => Qeq_bool x y
  | _, _ => false
  end.

Definition sum (l : list num) : num := foldl (lift2 Qplus) (Some 0%Q) l.

Definition mean (l : list num) : num :=
  div (sum l) (Some (inject_Z (Z.of_nat (length l)))).

#[global] Instance numpy : NumPy num := {|
  of_int z := Some (inject_Z z);
  f_add := lift2 Qplus;
  f_sub := lift2 Qminus;
  f_mul := lift2 Qmult;
  f_div := div;
  f_abs a := Qabs <$> a;
  f_log2 := log2;
  f_power := power;
  f_eqb := eqb;
  np_sum := sum;
  np_mean := mean;
|}.

#[global] Instance utils : Utils num := spec_utils.

End Exact.

(** ** Concrete inputs *)

(** The quantity of scenario A, on a small scale: scales 1..4, two
    coefficients per scale. *)
Definition mrq_A : MultiResolutionQuantity (F := Exact.num) :=
  MRQ "A" [(1, 2); (2, 2); (3, 2); (4, 2)]%Z
    [ (1%Z, [Some 1%Q; Some (-1)%Q]); (2%Z, [Some 2%Q; Some 2%Q]);
      (3%Z, [Some 4%Q; Some (-4)%Q]); (4%Z, [Some 16%Q; Some 16%Q]) ].

Definition q_A : list Exact.num := [Some 2%Q; Some 1%Q].

(** [StructureFunction(mrq_A, q_A, 1, 4, False)] *)
Definition sf_A : StructureFunction (F := Exact.num) :=
  SF (Some "A") q_A 1 4 false (Some [1; 2; 3; 4]%Z) None
     (Some [ [Some 0%Q; Some 2%Q; Some 4%Q; Some 8%Q];
             [Some 0%Q; Some 1%Q; Some 2%Q; Some 4%Q] ])
     (Some [Some (13 # 5)%Q; Some (13 # 10)%Q])
     (Some [Some (-3)%Q; Some (-3 # 2)%Q]).

(** [mrq_A] with other coefficients, and another count, at scale 4. *)
Definition mrq_A4 : MultiResolutionQuantity (F := Exact.num) :=
  MRQ "A" [(1, 2); (2, 2); (3, 2); (4, 1)]%Z
    [ (1%Z, [Some 1%Q; Some (-1)%Q]); (2%Z, [Some 2%Q; Some 2%Q]);
      (3%Z, [Some 4%Q; Some (-4)%Q]); (4%Z, [Some 32%Q]) ].

(** A spectrum object over [mrq_A] as [__post_init__] hands it to
    [_compute], and as [_compute] leaves it; exponents 0 and 1, window 1..4,
    weighted. *)
Definition spectrum_A_before : MultifractalSpectrum (F := Exact.num) :=
  MFS (Some "A") (Some [(1, 2); (2, 2); (3, 2); (4, 2)]%Z) (Some [1; 2; 3; 4]%Z)
      1 4 true [Some 0%Q; Some 1%Q] None None None None.

Definition spectrum_A_after : MultifractalSpectrum (F := Exact.num) :=
  MFS (Some "A") (Some [(1, 2); (2, 2); (3, 2); (4, 2)]%Z) (Some [1; 2; 3; 4]%Z)
      1 4 true [Some 0%Q; Some 1%Q]
      (Some [Some 1%Q; Some 1%Q]) (Some [Some (13 # 10)%Q; Some (13 # 10)%Q])
      (Some [ [Some 0%Q; Some 0%Q]; [Some 0%Q; Some 0%Q];
              [Some 0%Q; Some 0%Q]; [Some 0%Q; Some 0%Q] ])
      (Some [ [Some 0%Q; Some 0%Q]; [Some 1%Q; Some 1%Q];
              [Some 2%Q; Some 2%Q]; [Some 4%Q; Some 4%Q] ]).


(** Two quantities over the scales 2..5. They differ at scale 2 only, the
    first position of the scale list: three coefficients and the count 3
    instead of one coefficient and the count 1. *)
Definition mrq_B1 : MultiResolutionQuantity (F := Exact.num) :=
  MRQ "B" [(2, 1); (3, 1); (4, 1); (5, 1)]%Z
    [ (2%Z, [Some 1%Q]); (3%Z, [Some 1%Q]); (4%Z, [Some 1%Q]); (5%Z, [Some 2%Q]) ].

Definition mrq_B2 : MultiResolutionQuantity (F := Exact.num) :=
  MRQ "B" [(2, 3); (3, 1); (4, 1); (5, 1)]%Z
    [ (2%Z, [Some 1%Q; Some 1%Q; Some 1%Q]); (3%Z, [Some 1%Q]);
      (4%Z, [Some 1%Q]); (5%Z, [Some 2%Q]) ].

(** Objects for the plots: [StructureFunction(mrq_A, q, 1, 4, False)] for
    exponents with a 0 in front, with 0 and one more exponent, and for
    exponents symmetric around 0. *)
Definition q_P : list Exact.num := [Some 0%Q; Some 1%Q; Some 2%Q].

Definition sf_P : StructureFunction (F := Exact.num) :=
  SF (Some "A") q_P 1 4 false (Some [1; 2; 3; 4]%Z) None
     (Some [ [Some 0%Q; Some 0%Q; Some 0%Q; Some 0%Q];
             [Some 0%Q; Some 1%Q; Some 2%Q; Some 4%Q];
             [Some 0%Q; Some 2%Q; Some 4%Q; Some 8%Q] ])
     (Some [Some 0%Q; Some (13 # 10)%Q; Some (13 # 5)%Q])
     (Some [Some 0%Q; Some (-3 # 2)%Q; Some (-3)%Q]).

Definition q_Z : list Exact.num := [Some 0%Q; Some 2%Q].

Definition sf_Z : StructureFunction (F := Exact.num) :=
  SF (Some "A") q_Z 1 4 false (Some [1; 2; 3; 4]%Z) None
     (Some [ [Some 0%Q; Some 0%Q; Some 0%Q; Some 0%Q];
             [Some 0%Q; Some 2%Q; Some 4%Q; Some 8%Q] ])
     (Some [Some 0%Q; Some (13 # 5)%Q])
     (Some [Some 0%Q; Some (-3)%Q]).

Definition q_S : list Exact.num :=
  [Some (-2)%Q; Some (-1)%Q; Some 0%Q; Some 1%Q; Some 2%Q].

Definition sf_S : StructureFunction (F := Exact.num) :=
  SF (Some "A") q_S 1 4 false (Some [1; 2; 3; 4]%Z) None
     (Some [ [Some 0%Q; Some (-2)%Q; Some (-4)%Q; Some (-8)%Q];
             [Some 0%Q; Some (-1)%Q; Some (-2)%Q; Some (-4)%Q];
             [Some 0%Q; Some 0%Q; Some 0%Q; Some 0%Q];
             [Some 0%Q; Some 1%Q; Some 2%Q; Some 4%Q];
             [Some 0%Q; Some 2%Q; Some 4%Q; Some 8%Q] ])
     (Some [Some (-13 # 5)%Q; Some (-13 # 10)%Q; Some 0%Q; Some (13 # 10)%Q;
            Some (13 # 5)%Q])
     (Some [Some 3%Q; Some (3 # 2)%Q; Some 0%Q; Some (-3 # 2)%Q; Some (-3)%Q]).

(** [mrq_A] without the count of the scales 2, 3 and 4. *)
Definition mrq_A_count1 : MultiResolutionQuantity (F := Exact.num) :=
  MRQ "A" [(1, 2)]%Z (mrq_values mrq_A).

(** A spectrum object with no exponent, and one over the window 2..4,
    unweighted, as [__post_init__] finds them. *)
Definition spectrum_no_q : MultifractalSpectrum (F := Exact.num) :=
  MFS None None None 1 4 true [] None None None None.

Definition spectrum_A_24 : MultifractalSpectrum (F := Exact.num) :=
  MFS None None None 2 4 false [Some 0%Q; Some 1%Q] None None None None.

(** [StructureFunction(mrq_B1, [1], 2, 4, False)]: the scale list is
    (2, 3, 4, 5) and the window is 2..4. *)
Definition sf_B1 : StructureFunction (F := Exact.num) :=
  SF (Some "B") [Some 1%Q] 2 4 false (Some [2; 3; 4; 5]%Z) None
     (Some [[Some 0%Q; Some 0%Q; Some 0%Q; Some 1%Q]])
     (Some [Some (1 # 2)%Q]) (Some [Some (-7 # 6)%Q]).

(** A quantity over the scales 2..5 with four coefficients per scale; at
    scale 5 the magnitudes are 4, 2, 1, 1. A spectrum object over it for the
    exponents 0 and 1 and the window 2..4, unweighted, as [__post_init__]
    finds it. *)
Definition mrq_S : MultiResolutionQuantity (F := Exact.num) :=
  MRQ "S" [(2, 4); (3, 4); (4, 4); (5, 4)]%Z
    [ (2%Z, [Some 1%Q; Some 1%Q; Some 1%Q; Some 1%Q]);
      (3%Z, [Some 1%Q; Some 1%Q; Some 1%Q; Some 1%Q]);
      (4%Z, [Some 1%Q; Some 1%Q; Some 1%Q; Some 1%Q]);
      (5%Z, [Some 4%Q; Some (-2)%Q; Some 1%Q; Some 1%Q]) ].

Definition spectrum_S : MultifractalSpectrum (F := Exact.num) :=
  MFS None None None 2 4 false [Some 0%Q; Some 1%Q] None None None None.

(** [spectrum_S] as the body of [__post_init__] leaves it. *)
Definition spectrum_S_after : MultifractalSpectrum (F := Exact.num) :=
  MFS (Some "S") (Some [(2, 4); (3, 4); (4, 4); (5, 4)]%Z) (Some [2; 3; 4; 5]%Z)
      2 4 false [Some 0%Q; Some 1%Q]
      (Some [Some 1%Q; Some (9 # 8)%Q]) (Some [Some (3 # 8)%Q; Some (5 # 8)%Q])
      (Some [ [Some 0%Q; Some 0%Q]; [Some 0%Q; Some 0%Q];
              [Some 0%Q; Some 0%Q]; [Some 0%Q; Some (1 # 4)%Q] ])
      (Some [ [Some 0%Q; Some 0%Q]; [Some 0%Q; Some 0%Q];
              [Some 0%Q; Some 0%Q]; [Some (3 # 4)%Q; Some (5 # 4)%Q] ]).


(** A store of a caller: an array of its own at location 0, [mrq_A] behind
    location 1 (its dicts at 2 and 3, its coefficient arrays at 4..7) and the
    exponents [q_A] at location 8. *)
Definition store_A : list (Store.object (F := Exact.num)) :=
  [ Store.Array [Some 7%Q];
    Store.Quantity "A" 2 3;
    Store.CountDict [(1, 2); (2, 2); (3, 2); (4, 2)]%Z;
    Store.ArrayDict [(1%Z, 4); (2%Z, 5); (3%Z, 6); (4%Z, 7)];
    Store.Array [Some 1%Q; Some (-1)%Q];
    Store.Array [Some 2%Q; Some 2%Q];
    Store.Array [Some 4%Q; Some (-4)%Q];
    Store.Array [Some 16%Q; Some 16%Q];
    Store.Array [Some 2%Q; Some 1%Q] ].

(** ** Notions used in the statements *)

(** The positions that [l[start:stop]] reads. *)
Definition in_slice (n : nat) (start stop : Z) (p : nat) : Prop :=
  (slice_bound (Z.of_nat n) start ≤ Z.of_nat p < slice_bound (Z.of_nat n) stop)%Z.

Section Notions.
Context {F : Type} `{!NumPy F, !Utils F}.

(** S(j, q) for the coefficients [c_j] of one scale. *)
Definition moment (c_j : list F) (q : F) : F :=
  np_mean (fast_power_array (f_abs <$> c_j) q).

(** The normalised vector R of one scale and one exponent (line 107). *)
Definition R_vector (m : list F) (q : F) : list F :=
  let temp := fast_power_array m q in
  (λ t, f_div t (np_sum temp)) <$> temp.

(** The loop of [_compute_zeta] as a fold on the arrays [zeta] and
    [intercept]. *)
Definition sf_regressions (logvalues : list (list F)) (x : list Z) (nj : list F)
    (ind_j1 ind_j2 : Z) (arrays : list F * list F) (inds : list nat)
  : outcome (list F * list F) :=
  foldM (λ '(zeta, intercepts) ind_q,
           row ← item logvalues ind_q;
           '(slope, intercept) ← linear_regression x (py_slice row ind_j1 (ind_j2 + 1)) nj;
           Ok (<[ind_q := slope]> zeta, <[ind_q := intercept]> intercepts))
        arrays inds.

(** The helper raised [e] on some arguments. *)
Definition helper_raises (e : exn) : Prop :=
  ∃ x y w, linear_regression x y w = Raise e.

End Notions.

Section PlotNotions.
Context {F : Type} `{!NumPy F}.

(** The axes of one exponent after [plot] drew in them: the curve of the
    row of [logvalues], the regression line from j1 to j2, the labels and
    the legend. *)
Definition exponent_panel (x : list Z) (j1 j2 : Z) (q_i : F) (y : list F)
    (slope intercept : F) : Axes :=
  MkAxes [ Curve x y;
           RegressionLine j1 j2 (f_add (f_mul slope (of_int j1)) intercept)
                          (f_add (f_mul slope (of_int j2)) intercept) slope ]
         (Some (Text "j")) (Some (QEquals q_i)) true false.

(** Axes in which nothing was drawn and that [fig.delaxes] removed. *)
Definition removed_axes : Axes (F := F) := MkAxes [] None None false true.

(** The exponent is passed over by the loop (line 158). *)
Definition skipped (ignore_q0 : bool) (q_i : F) : bool :=
  f_eqb q_i (of_int 0) && ignore_q0.

(** [axes[r][c]] for positions inside the grid. *)
Definition cell (axes : list (list (Axes (F := F)))) (r c : nat) : option Axes :=
  row ← axes !! r; row !! c.

(** The axes of position [i] lie inside a grid of [d1] rows and [d2]
    columns. *)
Definition fits (nrow d1 d2 i : nat) : Prop :=
  i mod nrow < d1 ∧ i / nrow < d2.

(** The arrays of an object are consistent for plotting: one row of
    [logvalues], one slope and one intercept per exponent, and one column
    of [logvalues] per scale. *)
Definition plottable (x : list Z) (lv : list (list F)) (zeta ic q : list F) : Prop :=
  length lv = length q ∧ (∀ row, row ∈ lv → length row = length x) ∧
  length zeta = length q ∧ length ic = length q.

(** The panel that [plot] draws for position [i]. *)
Definition panel_at (x : list Z) (j1 j2 : Z) (q : list F) (lv : list (list F))
    (zeta ic : list F) (i : nat) : Axes :=
  exponent_panel x j1 j2 (default (of_int 0) (q !! i)) (default [] (lv !! i))
    (default (of_int 0) (zeta !! i)) (default (of_int 0) (ic !! i)).

(** Position [i] holds an exponent that the loop does not pass over. *)
Definition drawn (ignore_q0 : bool) (q : list F) (i : nat) : bool :=
  match q !! i with
  | Some q_i => negb (skipped ignore_q0 q_i)
  | None => false
  end.

(** The grid has [d1] rows and [d2] columns and its axes at row [r] and
    column [c] are [st (c * nrow + r)]. *)
Definition grid_holds (nrow d1 d2 : nat) (st : nat → Axes (F := F))
    (axes : list (list Axes)) : Prop :=
  length axes = d1 ∧
  ∀ r row, axes !! r = Some row →
    length row = d2 ∧ ∀ c, c < d2 → row !! c = Some (st (c * nrow + r)).

(** The axes of position [idx] once the first loop has gone through the
    positions below [k], and once the second loop has gone through the
    positions from [len(q)] to below [bound]. *)
Definition after_drawing (ignore_q0 : bool) (x : list Z) (j1 j2 : Z) (q : list F)
    (lv : list (list F)) (zeta ic : list F) (k idx : nat) : Axes :=
  if (idx <? k) && drawn ignore_q0 q idx then panel_at x j1 j2 q lv zeta ic idx
  else blank_axes.

Definition after_removing (ignore_q0 : bool) (x : list Z) (j1 j2 : Z) (q : list F)
    (lv : list (list F)) (zeta ic : list F) (bound idx : nat) : Axes :=
  if idx <? length q then after_drawing ignore_q0 x j1 j2 q lv zeta ic (length q) idx
  else if idx <? bound then removed_axes
  else blank_axes.

End PlotNotions.

(** ** The windows of the claims: by scale *)

(** The list positions at which the slice [[j1-1 : j2]] of a sequence of
    [n] items starts and stops. *)
Definition window_start (n : nat) (j1 : Z) : nat :=
  Z.to_nat (slice_bound (Z.of_nat n) (j1 - 1)).
Definition window_stop (n : nat) (j2 : Z) : nat :=
  Z.to_nat (slice_bound (Z.of_nat n) j2).

Section ScaleWindows.
Context {F : Type} `{!NumPy F, !Utils F}.

(** log2 S(j, q_i) for the coefficients [c_j] of the scale j: the log2 of
    the mean of [fast_power(|c_j|, q_i)]. *)
Definition log_moment (c_j : list F) (q_i : F) : F :=
  f_log2 (np_mean ((λ m_i, fast_power m_i q_i) <$> (f_abs <$> c_j))).

(** The window of section 4.3 of the specification, step 3: the ordinates
    [logvalues[q_i, j1..j2]] are those of the scales j1, ..., j2. *)
Definition scale_window (mrq : MultiResolutionQuantity) (q_i : F) (j1 j2 : Z)
  : outcome (list F) :=
  traverse (λ j, c_j ← dict_get (mrq_values mrq) j; Ok (log_moment c_j q_i))
           (arange j1 (j2 + 1)).

(** Section 4.4 of the specification, for the magnitudes [m] of one scale
    and one exponent: R_i = t_i / sum(t) with t_i = m_i^q, V = sum(R * log2(m))
    and U = log2(n) + sum(R * log2(R)). *)
Definition spec_R (m : list F) (q_i : F) : list F :=
  let t := (λ m_i, fast_power m_i q_i) <$> m in
  (λ t_i, f_div t_i (np_sum t)) <$> t.

Definition spec_V (c_j : list F) (q_i : F) : F :=
  let m := f_abs <$> c_j in
  np_sum (zip_with f_mul (spec_R m q_i) (f_log2 <$> m)).

Definition spec_U (n : Z) (c_j : list F) (q_i : F) : F :=
  let R := spec_R (f_abs <$> c_j) q_i in
  f_add (f_log2 (of_int n)) (np_sum (zip_with f_mul R (f_log2 <$> R))).

(** The windows [U[j1..j2, q_i]] and [V[j1..j2, q_i]] by scale. *)
Definition scale_window_U (mrq : MultiResolutionQuantity) (q_i : F) (j1 j2 : Z)
  : outcome (list F) :=
  traverse (λ j, n ← dict_get (mrq_nj mrq) j;
                 c_j ← dict_get (mrq_values mrq) j;
                 Ok (spec_U n c_j q_i))
           (arange j1 (j2 + 1)).

Definition scale_window_V (mrq : MultiResolutionQuantity) (q_i : F) (j1 j2 : Z)
  : outcome (list F) :=
  traverse (λ j, c_j ← dict_get (mrq_values mrq) j; Ok (spec_V c_j q_i))
           (arange j1 (j2 + 1)).

(** The scale list holds the scales j1, ..., j2 at the positions j1-1, ...,
    j2-1: the positions that the slices of the code read. *)
Definition window_aligned (js : list Z) (j1 j2 : Z) : Prop :=
  ∀ k j, arange j1 (j2 + 1) !! k = Some j → js !! (Z.to_nat (j1 - 1) + k) = Some j.

End ScaleWindows.

(** * Properties *)

(** ** The runtime fragment *)

Lemma foldM_app {A B} (f : B → A → outcome B) (b : B) (l1 l2 : list A) :
  foldM f b (l1 ++ l2) = b' ← foldM f b l1; foldM f b' l2.
Proof.
  revert b. induction l1 as [|x l1 IH]; intros b; simpl; [done|].
  destruct (f b x); simpl; [apply IH | done].
Qed.

Lemma foldM_ext {A B} (f g : B → A → outcome B) (b : B) (l : list A) :
  (∀ b x, x ∈ l → f b x = g b x) → foldM f b l = foldM g b l.
Proof.
  revert b. induction l as [|x l IH]; intros b Hfg; simpl; [done|].
  rewrite Hfg by left. destruct (g b x); simpl; [|done].
  apply IH. intros b' y Hy. apply Hfg. by right.
Qed.

Lemma traverse_ext {A B} (f g : A → outcome B) (l : list A) :
  (∀ x, x ∈ l → f x = g x) → traverse f l = traverse g l.
Proof.
  induction l as [|x l IH]; intros Hfg; simpl; [done|].
  rewrite Hfg by left. rewrite IH; [done|].
  intros y Hy. apply Hfg. by right.
Qed.

Lemma traverse_Ok {A B} (f : A → outcome B) (l : list A) (ys : list B) :
  traverse f l = Ok ys →
  length ys = length l ∧
  ∀ i x, l !! i = Some x → ∃ y, f x = Ok y ∧ ys !! i = Some y.
Proof.
  revert ys. induction l as [|x l IH]; intros ys; simpl.
  - intros [= <-]. split; [done|]. intros i x Hx. by rewrite lookup_nil in Hx.
  - destruct (f x) as [y|] eqn:Hfx; simpl; [|done].
    destruct (traverse f l) as [ys'|] eqn:Hl; simpl; [|done].
    intros [= <-]. destruct (IH ys' eq_refl) as [Hlen Hi].
    split; [simpl; by rewrite Hlen|].
    intros [|i] x'; simpl.
    + intros [= <-]. eauto.
    + apply Hi.
Qed.


Lemma enumerate_snoc {A} (l : list A) (x : A) :
  enumerate (l ++ [x]) = enumerate l ++ [(length l, x)].
Proof.
  unfold enumerate. rewrite imap_app. simpl. by rewrite Nat.add_0_r.
Qed.

Lemma dict_get_keys {K V} `{EqDecision K} (d : list (K * V)) (k : K) :
  k ∈ dict_keys d → is_Ok (dict_get d k).
Proof.
  unfold dict_keys. induction d as [|[k' v] d IH]; simpl.
  - intros H. by apply elem_of_nil in H.
  - intros H. destruct (decide (k = k')) as [->|Hne]; [by eexists|].
    apply IH. apply elem_of_cons in H as [?|?]; [done|done].
Qed.

Lemma slice_bound_range (n i : Z) : (0 ≤ n → 0 ≤ slice_bound n i ≤ n)%Z.
Proof. unfold slice_bound. destruct (Z.ltb_spec i 0); lia. Qed.

Lemma py_slice_lookup {A} (l : list A) (start stop : Z) (i : nat) :
  py_slice l start stop !! i =
    if decide (Z.of_nat i < slice_bound (Z.of_nat (length l)) stop
                            - slice_bound (Z.of_nat (length l)) start)%Z
    then l !! (Z.to_nat (slice_bound (Z.of_nat (length l)) start) + i)
    else None.
Proof.
  unfold py_slice. cbv zeta.
  set (a := slice_bound _ start). set (b := slice_bound _ stop).
  case_decide as Hi.
  - rewrite lookup_take_lt by lia. by rewrite lookup_drop.
  - rewrite lookup_take_ge; [done | lia].
Qed.

Lemma py_slice_length {A} (l : list A) (start stop : Z) :
  length (py_slice l start stop) =
    Z.to_nat (slice_bound (Z.of_nat (length l)) stop
              - slice_bound (Z.of_nat (length l)) start).
Proof.
  unfold py_slice. cbv zeta. rewrite length_take, length_drop.
  pose proof (slice_bound_range (Z.of_nat (length l)) start ltac:(lia)).
  pose proof (slice_bound_range (Z.of_nat (length l)) stop ltac:(lia)).
  lia.
Qed.

(** The slice [[j1-1 : j2]] of a sequence of [n] items: its items are the
    items at the positions from [window_start] to below [window_stop]. *)
Lemma window_items {A} (row : list A) (n : nat) (j1 j2 : Z) :
  length row = n →
  length (py_slice row (j1 - 1) j2) = window_stop n j2 - window_start n j1 ∧
  ∀ k, k < window_stop n j2 - window_start n j1 →
    window_start n j1 + k < n ∧
    py_slice row (j1 - 1) j2 !! k = row !! (window_start n j1 + k).
Proof.
  intros <-. unfold window_start, window_stop.
  pose proof (slice_bound_range (Z.of_nat (length row)) (j1 - 1) ltac:(lia)).
  pose proof (slice_bound_range (Z.of_nat (length row)) j2 ltac:(lia)).
  split; [rewrite py_slice_length; lia|].
  intros k Hk. split; [lia|].
  rewrite py_slice_lookup. rewrite decide_True by lia. done.
Qed.

Lemma traverse_Ok_intro {A B} (f : A → outcome B) (l : list A) (ys : list B) :
  length ys = length l →
  (∀ i x, l !! i = Some x → ∃ y, f x = Ok y ∧ ys !! i = Some y) →
  traverse f l = Ok ys.
Proof.
  revert ys. induction l as [|x l IH]; intros [|y ys] Hlen Hi; simpl in *;
    try discriminate; [done|].
  destruct (Hi 0 x eq_refl) as (y' & -> & [= <-]). simpl.
  rewrite (IH ys); [done|lia|].
  intros i x' Hx'. apply (Hi (S i) x' Hx').
Qed.

Lemma py_slice_ext {A} (l1 l2 : list A) (start stop : Z) :
  length l1 = length l2 →
  (∀ p, in_slice (length l1) start stop p → l1 !! p = l2 !! p) →
  py_slice l1 start stop = py_slice l2 start stop.
Proof.
  intros Hlen Hagree. apply list_eq. intros i.
  rewrite !py_slice_lookup, <- Hlen.
  case_decide as Hi; [|done].
  apply Hagree. unfold in_slice.
  pose proof (slice_bound_range (Z.of_nat (length l1)) start ltac:(lia)).
  lia.
Qed.

(** With [1 ≤ j1] and [0 ≤ j2] the slice [[j1-1 : j2]] reads the positions
    j1-1 .. j2-1 that exist. *)
Lemma in_slice_window (n : nat) (j1 j2 : Z) (p : nat) :
  (1 ≤ j1)%Z → (0 ≤ j2)%Z →
  in_slice n (j1 - 1) j2 p ↔ (j1 - 1 ≤ Z.of_nat p ≤ j2 - 1)%Z ∧ p < n.
Proof.
  intros H1 H2. unfold in_slice, slice_bound.
  destruct (Z.ltb_spec (j1 - 1) 0), (Z.ltb_spec j2 0); lia.
Qed.

(** ** Arrays filled in place *)

Section Arrays.
Context {F : Type} `{!NumPy F, !Utils F}.

(** [for i, x in enumerate(l): s[i] = g(x)] fills the first [len(l)] items. *)
Lemma fill_items {A} (g : A → F) (l : list A) (s0 : list F) :
  let r := foldl (λ s '(i, x), <[i := g x]> s) s0 (enumerate l) in
  length r = length s0 ∧
  ∀ i x, l !! i = Some x → i < length s0 → r !! i = Some (g x).
Proof.
  induction l as [|x l IH] using rev_ind; simpl.
  - split; [done|]. intros i x Hx. by rewrite lookup_nil in Hx.
  - rewrite enumerate_snoc, foldl_app. simpl.
    destruct IH as [Hlen Hi]. split; [by rewrite length_insert|].
    intros i y Hy Hlt.
    destruct (decide (i = length l)) as [->|Hne].
    + rewrite lookup_app_r, Nat.sub_diag in Hy by lia. injection Hy as <-.
      apply list_lookup_insert_eq. lia.
    + assert (i < length l).
      { apply lookup_lt_Some in Hy. rewrite length_app in Hy. simpl in Hy. lia. }
      rewrite list_lookup_insert_ne by done.
      apply Hi; [|done]. by rewrite lookup_app_l in Hy.
Qed.

Lemma sf_moments_eq (c_j qs : list F) :
  sf_moments c_j qs = (λ q, np_mean (fast_power_array (f_abs <$> c_j) q)) <$> qs.
Proof.
  unfold sf_moments.
  pose proof (fill_items (λ q, np_mean (fast_power_array (f_abs <$> c_j) q)) qs
                (np_zeros (length qs))) as [Hlen Hi].
  cbv zeta in *. unfold np_zeros in *. rewrite length_replicate in *.
  apply list_eq. intros i. rewrite list_lookup_fmap.
  destruct (qs !! i) as [q|] eqn:Hq; simpl.
  - apply Hi; [done|]. by apply lookup_lt_Some in Hq.
  - apply lookup_ge_None. apply lookup_ge_None in Hq. lia.
Qed.

Lemma shape_zeros2 (r c : nat) : shape (np_zeros2 r c) r c.
Proof.
  unfold shape, np_zeros2, np_zeros. split; [by rewrite length_replicate|].
  apply Forall_replicate. by rewrite length_replicate.
Qed.

Lemma shape_row (m : list (list F)) (r c i : nat) (row : list F) :
  shape m r c → m !! i = Some row → length row = c.
Proof. intros [_ Hrows] Hi. by eapply (Forall_lookup_1 _ _ _ _ Hrows Hi). Qed.

Lemma set_column_lookup (j : nat) (col : list F) (m : list (list F)) (i : nat) :
  set_column j col m !! i =
    row ← m !! i; v ← col !! i; Some (<[j := v]> row).
Proof. unfold set_column. apply lookup_zip_with. Qed.

Lemma shape_set_column (j : nat) (col : list F) (m : list (list F)) (r c : nat) :
  shape m r c → length col = r → shape (set_column j col m) r c.
Proof.
  intros [Hlen Hrows] Hcol. unfold shape, set_column. split.
  - rewrite length_zip_with. lia.
  - apply Forall_lookup_2. intros i row' Hi.
    pose proof (set_column_lookup j col m i) as Hlk. unfold set_column in Hlk.
    rewrite Hlk in Hi.
    destruct (m !! i) as [row|] eqn:Hrow; simpl in Hi; [|done].
    destruct (col !! i) as [v|]; simpl in Hi; [|done].
    injection Hi as <-. rewrite length_insert.
    by eapply (Forall_lookup_1 _ _ _ _ Hrows Hrow).
Qed.

Lemma entry_set_column_eq (j : nat) (col : list F) (m : list (list F))
    (r c i : nat) (v : F) :
  shape m r c → length col = r → j < c → col !! i = Some v →
  entry (set_column j col m) i j = Some v.
Proof.
  intros Hsh Hcol Hj Hv. unfold entry. rewrite set_column_lookup.
  assert (i < length m) as Hi.
  { destruct Hsh as [-> _]. rewrite <- Hcol. by apply lookup_lt_Some in Hv. }
  apply lookup_lt_is_Some in Hi as [row Hrow]. rewrite Hrow, Hv. simpl.
  apply list_lookup_insert_eq. by rewrite (shape_row _ _ _ _ _ Hsh Hrow).
Qed.

Lemma entry_set_column_ne (j : nat) (col : list F) (m : list (list F))
    (r c i p : nat) :
  shape m r c → length col = r → p ≠ j →
  entry (set_column j col m) i p = entry m i p.
Proof.
  intros Hsh Hcol Hne. unfold entry. rewrite set_column_lookup.
  destruct (m !! i) as [row|] eqn:Hrow; simpl; [|done].
  assert (i < length col) as Hi.
  { rewrite Hcol. destruct Hsh as [<- _]. by apply lookup_lt_Some in Hrow. }
  apply lookup_lt_is_Some in Hi as [v Hv]. rewrite Hv. simpl.
  by apply list_lookup_insert_ne.
Qed.

End Arrays.

(** ** The structure function *)

Section StructureFunctionFacts.
Context {F : Type} `{!NumPy F, !Utils F}.

(** The loop over scales, from any matrix of the right shape: the columns of
    the scales seen so far hold the moments. *)
Lemma sf_columns_filled (mrq : MultiResolutionQuantity) (qs : list F) (c : nat)
    (js : list Z) (m0 m : list (list F)) :
  shape m0 (length qs) c →
  foldM (λ values '(ind_j, j),
           c_j ← dict_get (mrq_values mrq) j;
           Ok (set_column ind_j (sf_moments c_j qs) values))
        m0 (enumerate js) = Ok m →
  shape m (length qs) c ∧
  ∀ iq q p j, qs !! iq = Some q → js !! p = Some j → p < c →
    ∃ c_j, dict_get (mrq_values mrq) j = Ok c_j ∧ entry m iq p = Some (moment c_j q).
Proof.
  intros Hsh0. revert m.
  induction js as [|j js IH] using rev_ind; intros m.
  - simpl. intros [= <-]. split; [done|].
    intros iq q p j _ Hp. by rewrite lookup_nil in Hp.
  - rewrite enumerate_snoc, foldM_app.
    destruct (foldM _ m0 (enumerate js)) as [m1|] eqn:Hm1; simpl; [|done].
    destruct (IH m1 eq_refl) as [Hsh1 Hent].
    destruct (dict_get (mrq_values mrq) j) as [c_j|] eqn:Hcj; simpl; [|done].
    intros [= <-].
    assert (length (sf_moments c_j qs) = length qs) as Hcol.
    { by rewrite sf_moments_eq, length_fmap. }
    split; [by apply shape_set_column|].
    intros iq q p j' Hq Hp Hlt.
    destruct (decide (p = length js)) as [->|Hne].
    + rewrite lookup_app_r, Nat.sub_diag in Hp by lia. injection Hp as <-.
      exists c_j. split; [done|].
      eapply entry_set_column_eq; [done..|].
      rewrite sf_moments_eq, list_lookup_fmap, Hq. done.
    + assert (p < length js).
      { apply lookup_lt_Some in Hp. rewrite length_app in Hp. simpl in Hp. lia. }
      rewrite lookup_app_l in Hp by done.
      destruct (Hent iq q p j' Hq Hp Hlt) as (c' & Hc' & He).
      exists c'. split; [done|].
      by rewrite (entry_set_column_ne _ _ _ _ _ _ _ Hsh1 Hcol Hne).
Qed.

(** What the local matrix [values] of [_compute] holds. *)
Lemma sf_local_values_spec (mrq : MultiResolutionQuantity) (qs : list F)
    (js : list Z) (m : list (list F)) :
  sf_local_values mrq qs js = Ok m →
  shape m (length qs) (length js) ∧
  ∀ iq q p j, qs !! iq = Some q → js !! p = Some j →
    ∃ c_j, dict_get (mrq_values mrq) j = Ok c_j ∧ entry m iq p = Some (moment c_j q).
Proof.
  intros Hm. unfold sf_local_values in Hm.
  destruct (sf_columns_filled mrq qs (length js) js _ m (shape_zeros2 _ _) Hm)
    as [Hsh Hent].
  split; [done|]. intros iq q p j Hq Hp.
  apply (Hent iq q p j Hq Hp). by apply lookup_lt_Some in Hp.
Qed.

(** The loop over scales cannot fail on scales that are keys of the dict. *)
Lemma sf_columns_total (mrq : MultiResolutionQuantity) (qs : list F)
    (l : list (nat * Z)) (m0 : list (list F)) :
  (∀ p j, (p, j) ∈ l → j ∈ dict_keys (mrq_values mrq)) →
  is_Ok (foldM (λ values '(ind_j, j),
                  c_j ← dict_get (mrq_values mrq) j;
                  Ok (set_column ind_j (sf_moments c_j qs) values)) m0 l).
Proof.
  revert m0. induction l as [|[p j] l IH]; intros m0 Hkeys; simpl; [by eexists|].
  destruct (dict_get_keys (mrq_values mrq) j) as [c_j Hc]; [apply (Hkeys p); by left|].
  rewrite Hc. simpl. apply IH. intros p' j' Hin. apply (Hkeys p'). by right.
Qed.

Lemma sf_local_values_total (mrq : MultiResolutionQuantity) (qs : list F) :
  is_Ok (sf_local_values mrq qs (dict_keys (mrq_values mrq))).
Proof.
  apply sf_columns_total. intros p j Hin.
  unfold enumerate in Hin. apply list_elem_of_lookup in Hin as [i Hi].
  rewrite list_lookup_imap in Hi.
  destruct (dict_keys (mrq_values mrq) !! i) as [j'|] eqn:Hj; simpl in Hi; [|done].
  injection Hi as <- <-. by eapply list_elem_of_lookup_2.
Qed.

End StructureFunctionFacts.

(** Unfold the monadic plumbing of a run. *)
Ltac py_unfold :=
  unfold mbind, mret, Py_bind, Py_ret, py_bind, py_ret, outcome_bind, outcome_ret,
    getattr, get_self, get_mrq, set_self, lift, attr; simpl.

Section StructureFunctionRun.
Context {F : Type} `{!NumPy F, !Utils F}.

Lemma SF_zeta_loop_run x nj a b inds mrq name q j1 j2 wt js vs lv zeta ic :
  for_ inds (SF_zeta_step x nj a b)
    (World mrq (SF name q j1 j2 wt js vs (Some lv) (Some zeta) (Some ic))) =
  match sf_regressions lv x nj a b (zeta, ic) inds with
  | Ok (zeta', ic') =>
      Ok (tt, World mrq (SF name q j1 j2 wt js vs (Some lv) (Some zeta') (Some ic')))
  | Raise e => Raise e
  end.
Proof.
  revert zeta ic. induction inds as [|i inds IH]; intros zeta ic; [reflexivity|].
  unfold sf_regressions in *. simpl. unfold SF_zeta_step. py_unfold.
  destruct (item lv i) as [row|]; simpl; [|reflexivity].
  destruct (linear_regression x (py_slice row a (b + 1)) nj) as [[slope icpt]|];
    simpl; [|reflexivity].
  apply IH.
Qed.

(** [__post_init__] in closed form: the three computations in sequence, and
    the attributes they leave. *)
Lemma SF_post_init_run (mrq : MultiResolutionQuantity) (s : StructureFunction) :
  SF_post_init (World mrq s) =
  match sf_local_values mrq (sf_q s) (dict_keys (mrq_values mrq)) with
  | Raise e => Raise e
  | Ok values =>
    match regression_weights (mrq_nj mrq) (sf_j1 s) (sf_j2 s) (sf_wtype s) with
    | Raise e => Raise e
    | Ok nj =>
      match sf_regressions (map (map f_log2) values)
              (arange (sf_j1 s) (sf_j2 s + 1)) nj (sf_j1 s - 1) (sf_j2 s - 1)
              (np_zeros (length (sf_q s)), np_zeros (length (sf_q s)))
              (seq 0 (length (sf_q s))) with
      | Raise e => Raise e
      | Ok (zeta, ic) =>
          Ok (tt, World mrq
                    (SF (Some (mrq_name mrq)) (sf_q s) (sf_j1 s) (sf_j2 s)
                        (sf_wtype s) (Some (dict_keys (mrq_values mrq)))
                        (sf_values s) (Some (map (map f_log2) values))
                        (Some zeta) (Some ic)))
      end
    end
  end.
Proof.
  destruct s as [name q j1 j2 wt js vs lv z0 i0].
  unfold SF_post_init, SF_compute, SF_compute_zeta. py_unfold.
  destruct (sf_local_values mrq q (dict_keys (mrq_values mrq))) as [values|];
    simpl; [|reflexivity].
  destruct (regression_weights (mrq_nj mrq) j1 j2 wt) as [nj|]; simpl; [|reflexivity].
  unfold sf_set_intercept, sf_set_zeta, sf_set_logvalues, sf_set_j, sf_set_name. simpl.
  apply SF_zeta_loop_run.
Qed.

Lemma StructureFunction_init_run (mrq : MultiResolutionQuantity) (q : list F)
    (j1 j2 : Z) (wtype : bool) :
  StructureFunction_init mrq q j1 j2 wtype =
  '(_, w) ← SF_post_init (World mrq (SF None q j1 j2 wtype None None None None None));
  Ok w.
Proof. reflexivity. Qed.

End StructureFunctionRun.

Section RegressionLoop.
Context {F : Type} `{!NumPy F, !Utils F}.

(** After [k] passes of the loop, the first [k] items of [zeta] and
    [intercept] hold the results of the regressions of the first [k] rows. *)
Lemma sf_regressions_prefix lv x nj a b (z0 i0 : list F) (k : nat) zeta ic :
  sf_regressions lv x nj a b (z0, i0) (seq 0 k) = Ok (zeta, ic) →
  length zeta = length z0 ∧ length ic = length i0 ∧
  ∀ i, i < k → ∃ row slope icpt,
    lv !! i = Some row ∧
    linear_regression x (py_slice row a (b + 1)) nj = Ok (slope, icpt) ∧
    (i < length z0 → zeta !! i = Some slope) ∧
    (i < length i0 → ic !! i = Some icpt).
Proof.
  revert zeta ic. induction k as [|k IH]; intros zeta ic.
  - simpl. intros [= <- <-]. repeat split; intros; lia.
  - rewrite seq_S. unfold sf_regressions in *. rewrite foldM_app. simpl.
    destruct (foldM _ (z0, i0) (seq 0 k)) as [[z1 i1]|] eqn:Hk; simpl; [|done].
    destruct (IH z1 i1 eq_refl) as (Hz1 & Hi1 & Hprev).
    unfold item. destruct (lv !! k) as [row|] eqn:Hrow; simpl; [|done].
    destruct (linear_regression x (py_slice row a (b + 1)) nj) as [[slope icpt]|]
      eqn:Hlr; simpl; [|done].
    intros [= <- <-]. rewrite !length_insert. repeat split; [done..|].
    intros i Hi. destruct (decide (i = k)) as [->|Hne].
    + exists row, slope, icpt. repeat split; [done..| |].
      * intros. apply list_lookup_insert_eq. lia.
      * intros. apply list_lookup_insert_eq. lia.
    + destruct (Hprev i ltac:(lia)) as (row' & s' & c' & ? & ? & Hz & Hc).
      exists row', s', c'. repeat split; [done..| |].
      * intros. rewrite list_lookup_insert_ne by done. auto.
      * intros. rewrite list_lookup_insert_ne by done. auto.
Qed.

Lemma sf_regressions_spec lv x nj a b (n : nat) zeta ic :
  sf_regressions lv x nj a b (np_zeros n, np_zeros n) (seq 0 n) = Ok (zeta, ic) →
  length zeta = n ∧ length ic = n ∧
  ∀ i, i < n → ∃ row slope icpt,
    lv !! i = Some row ∧
    linear_regression x (py_slice row a (b + 1)) nj = Ok (slope, icpt) ∧
    zeta !! i = Some slope ∧ ic !! i = Some icpt.
Proof.
  intros H. apply sf_regressions_prefix in H as (Hz & Hi & Hrows).
  unfold np_zeros in *. rewrite length_replicate in *.
  repeat split; [done..|]. intros i Hlt.
  destruct (Hrows i Hlt) as (row & s & c & ? & ? & Hs & Hc).
  exists row, s, c. repeat split; auto.
Qed.

(** The loop returns when the helper returns on every row. *)
Lemma sf_regressions_total lv x nj a b (arrays : list F * list F) (inds : list nat) :
  (∀ i, i ∈ inds → ∃ row, lv !! i = Some row ∧
                     is_Ok (linear_regression x (py_slice row a (b + 1)) nj)) →
  is_Ok (sf_regressions lv x nj a b arrays inds).
Proof.
  revert arrays. induction inds as [|i inds IH]; intros [z0 i0] Hrows.
  - by eexists.
  - unfold sf_regressions in *. simpl.
    destruct (Hrows i) as (row & Hrow & [[s c] Hlr]); [by left|].
    unfold item. rewrite Hrow. simpl. rewrite Hlr. simpl.
    apply IH. intros i' Hi'. apply Hrows. by right.
Qed.

(** The loop only reads the window of each row. *)
Lemma sf_regressions_ext lv1 lv2 x nj a b (arrays : list F * list F) (inds : list nat) :
  (∀ i, i ∈ inds → (λ row, py_slice row a (b + 1)) <$> item lv1 i
                 = (λ row, py_slice row a (b + 1)) <$> item lv2 i) →
  sf_regressions lv1 x nj a b arrays inds = sf_regressions lv2 x nj a b arrays inds.
Proof.
  intros Hwin. unfold sf_regressions. apply foldM_ext.
  intros [zeta ic] i Hi. specialize (Hwin i Hi).
  destruct (item lv1 i) as [r1|e1], (item lv2 i) as [r2|e2]; simpl in *;
    try congruence.
Qed.

End RegressionLoop.

Section StructureFunctionClaims.
Context {F : Type} `{!NumPy F, !Utils F}.

(** A construction that returns went through the three computations, and
    the object holds exactly what they produced. *)
Lemma StructureFunction_init_inv (mrq : MultiResolutionQuantity) (q : list F)
    (j1 j2 : Z) (wtype : bool) (w : world StructureFunction) :
  StructureFunction_init mrq q j1 j2 wtype = Ok w →
  ∃ values nj zeta ic,
    sf_local_values mrq q (dict_keys (mrq_values mrq)) = Ok values ∧
    regression_weights (mrq_nj mrq) j1 j2 wtype = Ok nj ∧
    sf_regressions (map (map f_log2) values) (arange j1 (j2 + 1)) nj
      (j1 - 1) (j2 - 1) (np_zeros (length q), np_zeros (length q))
      (seq 0 (length q)) = Ok (zeta, ic) ∧
    w = World mrq (SF (Some (mrq_name mrq)) q j1 j2 wtype
                      (Some (dict_keys (mrq_values mrq))) None
                      (Some (map (map f_log2) values)) (Some zeta) (Some ic)).
Proof.
  rewrite StructureFunction_init_run, SF_post_init_run.
  unfold mbind, outcome_bind. simpl.
  destruct (sf_local_values _ _ _) as [values|]; [|done].
  destruct (regression_weights _ _ _ _) as [nj|]; [|done].
  destruct (sf_regressions (map (map f_log2) values) _ _ _ _ _ _)
    as [[zeta ic]|] eqn:Hz; [|done].
  intros [= <-]. exists values, nj, zeta, ic. repeat split. exact Hz.
Qed.

Lemma StructureFunction_new_inv (mrq : MultiResolutionQuantity) (q : list F)
    (j1 j2 : Z) (wtype : bool) (sf : StructureFunction) :
  StructureFunction_new mrq q j1 j2 wtype = Ok sf →
  StructureFunction_init mrq q j1 j2 wtype = Ok (World mrq sf).
Proof.
  unfold StructureFunction_new, fmap, outcome_fmap.
  destruct (StructureFunction_init mrq q j1 j2 wtype) as [w|] eqn:Hw; [|done].
  intros [= <-]. apply StructureFunction_init_inv in Hw as (?&?&?&?&_&_&_&->). done.
Qed.

End StructureFunctionClaims.

(** ** Boolean masks *)

Lemma select_nil {A} (a : list A) (mask : list bool) :
  length a = length mask →
  select a mask = [] ↔ ∀ b, b ∈ mask → b = false.
Proof.
  revert mask. induction a as [|x a IH]; intros [|b mask] Hlen; simpl in *;
    try discriminate.
  - split; [|done]. intros _ b Hb. by apply elem_of_nil in Hb.
  - injection Hlen as Hlen. destruct b.
    + split; [done|]. intros H. specialize (H true). discriminate H. by left.
    + rewrite (IH mask Hlen). split.
      * intros H b Hb. apply elem_of_cons in Hb as [->|Hb]; [done|by apply H].
      * intros H b Hb. apply H. by right.
Qed.

Lemma select_first {A} (a : list A) (mask : list bool) (i : nat) (z : A) :
  length a = length mask →
  mask !! i = Some true →
  (∀ k, k < i → mask !! k = Some false) →
  a !! i = Some z →
  ∃ rest, select a mask = z :: rest.
Proof.
  revert mask i. induction a as [|x a IH]; intros [|b mask] i Hlen Hi Hbefore Hz;
    simpl in *; try discriminate.
  injection Hlen as Hlen. destruct i as [|i]; simpl in *.
    + injection Hi as ->. injection Hz as ->. by eexists.
    + pose proof (Hbefore 0 ltac:(lia)) as H0. simpl in H0. injection H0 as ->.
      apply (IH mask i Hlen Hi); [|done].
      intros k Hk. apply (Hbefore (S k)). lia.
Qed.

Section StructureFunctionTheorems.
Context {F : Type} `{!NumPy F, !Utils F}.

(** C1 (the code departs from its documentation). The docstring lists the
    attribute [values], the matrix S(j, q), and the dataclass declares the
    field; [_compute] builds that matrix in a local variable and assigns
    [self.logvalues] only. On every object that construction returns the
    attribute [values] is absent. What the claim says of the matrix holds of
    the local one: one row per exponent and one column per scale of the
    quantity, the item at row [q_i] and the column of scale [j] is the mean
    of [fast_power(|coefficients(j)|, q_i)], and [logvalues] is its log2. *)
Theorem structure_function_values_never_stored (mrq : MultiResolutionQuantity)
    (q : list F) (j1 j2 : Z) (wtype : bool) (sf : StructureFunction) :
  StructureFunction_new mrq q j1 j2 wtype = Ok sf →
  sf_values sf = None ∧
  ∃ values,
    sf_local_values mrq q (dict_keys (mrq_values mrq)) = Ok values ∧
    sf_j sf = Some (dict_keys (mrq_values mrq)) ∧
    sf_logvalues sf = Some (map (map f_log2) values) ∧
    shape values (length q) (length (dict_keys (mrq_values mrq))) ∧
    ∀ iq q_i p j,
      q !! iq = Some q_i → dict_keys (mrq_values mrq) !! p = Some j →
      ∃ c_j, dict_get (mrq_values mrq) j = Ok c_j ∧
             entry values iq p = Some (np_mean (fast_power_array (f_abs <$> c_j) q_i)).
Proof.
  intros Hnew. apply StructureFunction_new_inv, StructureFunction_init_inv in Hnew
    as (values & nj & zeta & ic & Hv & _ & _ & Hw).
  injection Hw as ->. split; [done|]. exists values.
  destruct (sf_local_values_spec _ _ _ _ Hv) as [Hsh Hent]. done.
Qed.

(** When the scale list holds j1, ..., j2 at the positions j1-1, ..., j2-1,
    the slice [[j1-1 : j2]] has one item per scale of the window. *)
Lemma window_aligned_bounds (js : list Z) (j1 j2 : Z) :
  (1 ≤ j1 ≤ j2)%Z → window_aligned js j1 j2 →
  window_start (length js) j1 = Z.to_nat (j1 - 1) ∧
  window_stop (length js) j2 - window_start (length js) j1
    = length (arange j1 (j2 + 1)).
Proof.
  intros Hj Hal.
  assert (arange j1 (j2 + 1) !! Z.to_nat (j2 - j1) = Some j2) as Hlast.
  { unfold arange. apply lookup_seqZ. lia. }
  apply Hal, lookup_lt_Some in Hlast.
  unfold window_start, window_stop, slice_bound, arange. rewrite length_seqZ.
  destruct (Z.ltb_spec (j1 - 1) 0), (Z.ltb_spec j2 0); lia.
Qed.

(** C2. On every constructed StructureFunction, with x = (j1, ..., j2) and
    the weights the counts of the scales j1..j2 when [wtype] is set and ones
    otherwise, [zeta[i]] and [intercept[i]] are the slope and the intercept
    that [linear_regression] returns for x and an ordinate vector y that is
    taken by position: item k of y is log2 S(j, q_i) for the scale j that
    the scale list holds at position [j1 - 1 + k] (clipped to the list), and
    y stops at position [j2 - 1]. It is the window
    [logvalues[q_i, j1..j2]] of the claim when the scale list holds j1, ...,
    j2 at the positions j1-1, ..., j2-1; on any other scale list the
    regression pairs the scales of x with the moments of other scales. *)
Theorem zeta_window_is_taken_by_position (mrq : MultiResolutionQuantity)
    (q : list F) (j1 j2 : Z) (wtype : bool) (sf : StructureFunction) :
  StructureFunction_new mrq q j1 j2 wtype = Ok sf →
  let x := arange j1 (j2 + 1) in
  let js := dict_keys (mrq_values mrq) in
  let a := window_start (length js) j1 in
  let b := window_stop (length js) j2 in
  ∃ zeta intercepts nj,
    sf_zeta sf = Some zeta ∧ sf_intercept sf = Some intercepts ∧
    length zeta = length q ∧ length intercepts = length q ∧
    (wtype = false → nj = np_ones (length x)) ∧
    (wtype = true → length nj = length x ∧
       ∀ k j, x !! k = Some j →
         ∃ n, dict_get (mrq_nj mrq) j = Ok n ∧ nj !! k = Some (of_int n)) ∧
    ∀ i q_i, q !! i = Some q_i →
      ∃ y slope intercept,
        linear_regression x y nj = Ok (slope, intercept) ∧
        zeta !! i = Some slope ∧ intercepts !! i = Some intercept ∧
        length y = b - a ∧
        (∀ k, k < b - a →
           ∃ j c_j, js !! (a + k) = Some j ∧
                    dict_get (mrq_values mrq) j = Ok c_j ∧
                    y !! k = Some (log_moment c_j q_i)) ∧
        ((1 ≤ j1 ≤ j2)%Z → window_aligned js j1 j2 →
           scale_window mrq q_i j1 j2 = Ok y).
Proof.
  intros Hnew x js a b. apply StructureFunction_new_inv, StructureFunction_init_inv in Hnew
    as (values & nj & zeta & ic & Hv & Hnj & Hz & Hw).
  injection Hw as ->. simpl.
  apply sf_regressions_spec in Hz as (Hlz & Hli & Hrows).
  destruct (sf_local_values_spec _ _ _ _ Hv) as [Hsh Hent].
  exists zeta, ic, nj. split_and!; try done.
  - intros ->. simpl in Hnj. by injection Hnj as <-.
  - intros ->. simpl in Hnj. unfold get_nj_interv in Hnj.
    apply traverse_Ok in Hnj as [Hlen' Hnj]. split; [done|].
    intros k j Hk. destruct (Hnj k j Hk) as (y & Hy & Hlk).
    destruct (dict_get (mrq_nj mrq) j) as [n|]; simpl in Hy; [|done].
    injection Hy as <-. by exists n.
  - intros i q_i Hq. pose proof (lookup_lt_Some _ _ _ Hq) as Hi.
    destruct (Hrows i Hi) as (row & s & c & Hrow & Hlr & Hs & Hc).
    replace (j2 - 1 + 1)%Z with j2 in Hlr by lia.
    rewrite list_lookup_fmap in Hrow.
    destruct (values !! i) as [r|] eqn:Hr; simpl in Hrow; [|done].
    injection Hrow as <-.
    pose proof (shape_row _ _ _ _ _ Hsh Hr) as Hlr'.
    destruct (window_items (map f_log2 r) (length js) j1 j2) as [Hly Hitems];
      [by rewrite length_map|].
    fold js a b in Hly, Hitems.
    assert (∀ k, k < b - a →
              ∃ j c_j, js !! (a + k) = Some j ∧
                       dict_get (mrq_values mrq) j = Ok c_j ∧
                       py_slice (map f_log2 r) (j1 - 1) j2 !! k
                         = Some (log_moment c_j q_i)) as Hpos.
    { intros k Hk. destruct (Hitems k Hk) as [Hlt ->].
      destruct (lookup_lt_is_Some_2 js (a + k) Hlt) as [j Hj].
      destruct (Hent i q_i (a + k) j Hq Hj) as (c_j & Hcj & He).
      exists j, c_j. split_and!; [done..|].
      unfold entry in He. rewrite Hr in He. simpl in He.
      by rewrite list_lookup_fmap, He. }
    exists (py_slice (map f_log2 r) (j1 - 1) j2), s, c.
    split_and!; [done..|].
    intros Hj Hal.
    destruct (window_aligned_bounds js j1 j2 Hj Hal) as [Ha Hba].
    fold a b in Ha, Hba.
    apply traverse_Ok_intro; [by etrans|].
    intros k j Hk. pose proof (lookup_lt_Some _ _ _ Hk) as Hklt.
    rewrite <- Hba in Hklt.
    destruct (Hpos k Hklt) as (j' & c_j & Hj' & Hcj & Hy).
    pose proof (Hal k j Hk) as Hjk. fold js in Hjk. rewrite <- Ha, Hj' in Hjk.
    injection Hjk as ->. rewrite Hcj. simpl. by exists (log_moment c_j q_i).
Qed.

(** C8. On every constructed StructureFunction, [get_H()] returns [None]
    exactly when no exponent of [q] equals 2; otherwise it returns
    [zeta[i] / 2] for the first position [i] whose exponent equals 2. *)
Theorem get_H_is_half_zeta_at_two (mrq : MultiResolutionQuantity)
    (q : list F) (j1 j2 : Z) (wtype : bool) (sf : StructureFunction) :
  StructureFunction_new mrq q j1 j2 wtype = Ok sf →
  (get_H sf = Ok None ↔ ∀ q_i, q_i ∈ q → f_eqb q_i (of_int 2) = false) ∧
  (∀ i q_i, q !! i = Some q_i → f_eqb q_i (of_int 2) = true →
     (∀ k q_k, k < i → q !! k = Some q_k → f_eqb q_k (of_int 2) = false) →
     ∃ zeta z, sf_zeta sf = Some zeta ∧ zeta !! i = Some z ∧
               get_H sf = Ok (Some (f_div z (of_int 2)))).
Proof.
  intros Hnew. apply StructureFunction_new_inv, StructureFunction_init_inv in Hnew
    as (values & nj & zeta & ic & _ & _ & Hz & Hw).
  injection Hw as ->.
  apply sf_regressions_spec in Hz as (Hlz & _ & _).
  set (mask := (λ x, f_eqb x (of_int 2)) <$> q).
  assert (length zeta = length mask) as Hlen by (unfold mask; by rewrite length_fmap).
  assert (∀ H, get_H (SF (Some (mrq_name mrq)) q j1 j2 wtype
                   (Some (dict_keys (mrq_values mrq))) None
                   (Some (map (map f_log2) values)) (Some zeta) (Some ic)) = H ↔
               match select zeta mask with
               | H0 :: _ => Ok (Some (f_div H0 (of_int 2)))
               | [] => Ok None
               end = H) as Hget.
  { intros H. unfold get_H, mask_index. simpl. fold mask.
    destruct (decide (length zeta = length mask)); [done|done]. }
  split.
  - rewrite Hget. split.
    + intros Hsel q_i Hq.
      assert (select zeta mask = []) as Hnil by (by destruct (select zeta mask)).
      apply (proj1 (select_nil _ _ Hlen) Hnil).
      unfold mask. apply list_elem_of_fmap. by exists q_i.
    + intros Hall.
      assert (select zeta mask = []) as ->; [|done].
      apply (select_nil _ _ Hlen). intros b Hb.
      unfold mask in Hb. apply list_elem_of_fmap in Hb as (q_i & -> & Hq). auto.
  - intros i q_i Hq Htwo Hfirst.
    assert (i < length zeta) as Hi by (rewrite Hlz; by apply lookup_lt_Some in Hq).
    apply lookup_lt_is_Some in Hi as [z Hzi].
    exists zeta, z. split_and!; [done..|].
    destruct (select_first zeta mask i z Hlen) as [rest Hsel]; [| |done|].
    + unfold mask. by rewrite list_lookup_fmap, Hq; simpl; rewrite Htwo.
    + intros k Hk. unfold mask. rewrite list_lookup_fmap.
      assert (k < length q) as Hkq by (apply lookup_lt_Some in Hq; lia).
      apply lookup_lt_is_Some in Hkq as [q_k Hqk]. rewrite Hqk. simpl.
      by rewrite (Hfirst k q_k Hk Hqk).
    + apply Hget. by rewrite Hsel.
Qed.

End StructureFunctionTheorems.

(** ** The construction on the store *)

Section StoreFacts.
Context {F : Type} `{!NumPy F, !Utils F}.
Implicit Types (h : list (Store.object (F := F))) (l : Store.loc).

Lemma bind_run {A B} (m : Store.St A) (f : A → Store.St B) h :
  (m ≫= f) h = match m h with
               | (Ok a, h') => f a h'
               | (Raise e, h') => (Raise e, h')
               end.
Proof. reflexivity. Qed.

Lemma load_quantity_run h l n a b :
  h !! l = Some (Store.Quantity n a b) → Store.load_quantity l h = (Ok (n, a, b), h).
Proof. intros H. unfold Store.load_quantity. rewrite bind_run. unfold Store.load. by rewrite H. Qed.

Lemma load_counts_run h l d :
  h !! l = Some (Store.CountDict d) → Store.load_counts l h = (Ok d, h).
Proof. intros H. unfold Store.load_counts. rewrite bind_run. unfold Store.load. by rewrite H. Qed.

Lemma load_arrays_run h l d :
  h !! l = Some (Store.ArrayDict d) → Store.load_arrays l h = (Ok d, h).
Proof. intros H. unfold Store.load_arrays. rewrite bind_run. unfold Store.load. by rewrite H. Qed.

Lemma load_ints_run h l a :
  h !! l = Some (Store.Ints a) → Store.load_ints l h = (Ok a, h).
Proof. intros H. unfold Store.load_ints. rewrite bind_run. unfold Store.load. by rewrite H. Qed.

Lemma load_array_run h l a :
  h !! l = Some (Store.Array a) → Store.load_array l h = (Ok a, h).
Proof. intros H. unfold Store.load_array. rewrite bind_run. unfold Store.load. by rewrite H. Qed.

Lemma load_matrix_run h l m :
  h !! l = Some (Store.Matrix m) → Store.load_matrix l h = (Ok m, h).
Proof. intros H. unfold Store.load_matrix. rewrite bind_run. unfold Store.load. by rewrite H. Qed.

Lemma load_estimator_run h l s :
  h !! l = Some (Store.Object s) → Store.load_estimator l h = (Ok s, h).
Proof. intros H. unfold Store.load_estimator. rewrite bind_run. unfold Store.load. by rewrite H. Qed.

Lemma setattr_run h l s f :
  h !! l = Some (Store.Object s) →
  Store.setattr l f h = (Ok tt, <[l := Store.Object (f s)]> h).
Proof.
  intros H. unfold Store.setattr. by rewrite bind_run, (load_estimator_run _ _ _ H).
Qed.

Lemma array_setitem_run h l a i v :
  h !! l = Some (Store.Array a) → i < length a →
  Store.array_setitem l i v h = (Ok tt, <[l := Store.Array (<[i := v]> a)]> h).
Proof.
  intros H Hi. unfold Store.array_setitem.
  rewrite bind_run, (load_array_run _ _ _ H). by rewrite decide_True.
Qed.

Lemma matrix_setcolumn_run h m rows col items j :
  h !! m = Some (Store.Matrix rows) → h !! col = Some (Store.Array items) →
  Store.matrix_setcolumn m j col h
    = (Ok tt, <[m := Store.Matrix (set_column j items rows)]> h).
Proof.
  intros Hm Hc. unfold Store.matrix_setcolumn.
  by rewrite bind_run, (load_matrix_run _ _ _ Hm), bind_run, (load_array_run _ _ _ Hc).
Qed.

(** ** Stores that grow *)

Lemma unchanged_refl W h : unchanged_outside W h h.
Proof. by intros l o Hl _. Qed.

Lemma unchanged_trans W h1 h2 h3 :
  unchanged_outside W h1 h2 → unchanged_outside W h2 h3 → unchanged_outside W h1 h3.
Proof. intros H12 H23 l o Hl Hw. apply H23; [|done]. by apply H12. Qed.

Lemma unchanged_weaken W W' h h' :
  (∀ l, l ∈ W → l ∈ W') → unchanged_outside W h h' → unchanged_outside W' h h'.
Proof. intros Hsub H l o Hl Hw. apply H; [done|]. intros Hin. by apply Hw, Hsub. Qed.

Lemma unchanged_alloc W h (o : Store.object) : unchanged_outside W h (h ++ [o]).
Proof. intros l o' Hl _. by apply lookup_app_l_Some. Qed.

Lemma unchanged_update W h l (o : Store.object) :
  l ∈ W → unchanged_outside W h (<[l := o]> h).
Proof.
  intros Hin l' o' Hl Hw. rewrite list_lookup_insert_ne; [done|].
  intros ->. done.
Qed.

(** A location that is new for [h0] can be written without touching [h0]. *)
Lemma unchanged_new W h0 h h' :
  (∀ l, l ∈ W → h0 !! l = None) →
  unchanged_outside [] h0 h → unchanged_outside W h h' → unchanged_outside [] h0 h'.
Proof.
  intros Hnew H0 H l o Hl _. apply H; [by apply H0; [|apply not_elem_of_nil]|].
  intros Hin. apply Hnew in Hin. congruence.
Qed.

Lemma lookup_new h (o : Store.object) : (h ++ [o]) !! length h = Some o.
Proof. by rewrite lookup_app_r, Nat.sub_diag. Qed.

Lemma lookup_updated h l (o o' : Store.object) :
  h !! l = Some o → <[l := o']> h !! l = Some o'.
Proof. intros H. apply list_lookup_insert_eq. by apply lookup_lt_Some in H. Qed.

Lemma lookup_fresh h : h !! length h = None.
Proof. by apply lookup_ge_None. Qed.

End StoreFacts.

(** Lookups in a store built by allocations and updates. *)
Ltac st_length :=
  repeat (rewrite length_insert || rewrite length_app); simpl; lia.

Section StoreLoops.
Context {F : Type} `{!NumPy F, !Utils F}.
Implicit Types (h : list (Store.object (F := F))) (l : nat).

Lemma unchanged_step W h hx l (o : Store.object) :
  unchanged_outside W h hx → l ∈ W ∨ h !! l = None →
  unchanged_outside W h (<[l := o]> hx).
Proof.
  intros Hx Hl l' o' Hl' Hw. rewrite list_lookup_insert_ne; [by apply Hx|].
  intros ->. destruct Hl as [?|Hnone]; [done|]. congruence.
Qed.

Lemma unchanged_grow W h hx (o : Store.object) :
  unchanged_outside W h hx → unchanged_outside W h (hx ++ [o]).
Proof. intros Hx l o' Hl Hw. apply lookup_app_l_Some. by apply Hx. Qed.

(** A location that is free in a store was free in every store it grew
    from. *)
Lemma fresh_for_base h0 h : unchanged_outside [] h0 h → h0 !! length h = None.
Proof.
  intros H0. destruct (h0 !! length h) as [o|] eqn:Ho; [|done].
  pose proof (H0 _ _ Ho (not_elem_of_nil _)) as Ho'. by rewrite lookup_fresh in Ho'.
Qed.

Lemma lookup_new_at h (o : Store.object) (n : nat) :
  n = length h → (h ++ [o]) !! n = Some o.
Proof. intros ->. apply lookup_new. Qed.

(** Writing locations that did not exist keeps what existed. *)
Lemma unchanged_chain W W' h hx hy :
  unchanged_outside W h hx → unchanged_outside W' hx hy →
  (∀ l, l ∈ W' → l ∈ W ∨ h !! l = None) →
  unchanged_outside W h hy.
Proof.
  intros Hx Hy Hnew l o Hl Hw. apply Hy; [by apply Hx|].
  intros Hin. destruct (Hnew _ Hin) as [?|?]; [done|congruence].
Qed.

Lemma fresh_after W h hx :
  unchanged_outside W h hx → (∀ l, l ∈ W → l < length hx) →
  h !! length hx = None.
Proof.
  intros Hx Hin. destruct (h !! length hx) as [o|] eqn:Ho; [|done].
  destruct (decide (length hx ∈ W)) as [Hw|Hout].
  - apply Hin in Hw. lia.
  - pose proof (Hx _ _ Ho Hout) as Ho'. by rewrite lookup_fresh in Ho'.
Qed.

Lemma enumerate_elem {A} (l : list A) (i : nat) (x : A) :
  (i, x) ∈ enumerate l → l !! i = Some x.
Proof.
  unfold enumerate. intros Hin. apply elem_of_lookup_imap in Hin as (i' & x' & Heq & Hl).
  by injection Heq as -> ->.
Qed.

(** The loop over the exponents (lines 81-82): it writes the items of
    [s_j] and nothing else. *)
Lemma moments_loop (c_j s_j : nat) (c : list F) (l : list (nat * F)) :
  ∀ h (s : list F),
    h !! c_j = Some (Store.Array c) → h !! s_j = Some (Store.Array s) →
    c_j ≠ s_j → (∀ i q, (i, q) ∈ l → i < length s) →
    Store.for_ l (λ '(ind_q, q),
                    m ← Store.SF_moment c_j q; Store.array_setitem s_j ind_q m) h
    = (Ok tt,
       <[s_j := Store.Array
                  (foldl (λ s_j '(ind_q, q),
                            <[ind_q := np_mean (fast_power_array (f_abs <$> c) q)]> s_j)
                         s l)]> h).
Proof.
  induction l as [|[i q] l IH]; intros h s Hc Hs Hne Hi; simpl.
  - by rewrite list_insert_id.
  - rewrite bind_run, bind_run. unfold Store.SF_moment.
    rewrite bind_run, (load_array_run _ _ _ Hc).
    cbv beta iota. unfold mret, Store.St_ret, Store.ret. cbv beta iota.
    rewrite (array_setitem_run _ _ _ _ _ Hs) by (apply (Hi i q); by left).
    rewrite (IH _ (<[i := np_mean (fast_power_array (f_abs <$> c) q)]> s)).
    + by rewrite list_insert_insert_eq.
    + by rewrite list_lookup_insert_ne.
    + by eapply lookup_updated.
    + done.
    + intros i' q' Hin. rewrite length_insert. apply (Hi i' q'). by right.
Qed.

(** The coefficient arrays behind a represented dict. *)
Lemma dict_get_represented h (vals : list (Z * list F)) (d : list (Z * nat)) (j : Z) :
  Forall2 (λ '(j, c) '(j', l'), j = j' ∧ h !! l' = Some (Store.Array c)) vals d →
  match dict_get vals j, dict_get d j with
  | Ok c, Ok l' => h !! l' = Some (Store.Array c)
  | Raise e, Raise e' => e = e'
  | _, _ => False
  end.
Proof.
  induction 1 as [|[j1 c] [j2 l'] vals d [-> Hl] _ IH]; simpl; [done|].
  destruct (decide (j = j2)); [done|apply IH].
Qed.

Lemma dict_keys_represented h (vals : list (Z * list F)) (d : list (Z * nat)) :
  Forall2 (λ '(j, c) '(j', l'), j = j' ∧ h !! l' = Some (Store.Array c)) vals d →
  dict_keys d = dict_keys vals.
Proof.
  unfold dict_keys. induction 1 as [|[j1 c] [j2 l'] vals d [-> Hl] _ IH]; simpl; [done|].
  by f_equal.
Qed.

(** The loop of [_compute_zeta] (lines 104-108): it writes the items of the
    arrays behind [self.zeta] and [self.intercept] and nothing else. *)
Lemma zeta_loop (self xl wl lvl zl il : nat) (s : Store.Estimator)
    (lv : list (list F)) (xs : list Z) (w : list F) (a b : Z) (inds : list nat) :
  Store.e_logvalues s = Some lvl → Store.e_zeta s = Some zl →
  Store.e_intercept s = Some il →
  zl ≠ il → self ≠ zl → self ≠ il → lvl ≠ zl → lvl ≠ il →
  xl ≠ zl → xl ≠ il → wl ≠ zl → wl ≠ il →
  ∀ h (z ic : list F),
    h !! self = Some (Store.Object s) → h !! lvl = Some (Store.Matrix lv) →
    h !! xl = Some (Store.Ints xs) → h !! wl = Some (Store.Array w) →
    h !! zl = Some (Store.Array z) → h !! il = Some (Store.Array ic) →
    (∀ i, i ∈ inds → i < length z ∧ i < length ic) →
    ∃ r h',
      Store.for_ inds (Store.SF_zeta_step self xl wl a b) h = (r, h') ∧
      unchanged_outside [zl; il] h h' ∧
      match sf_regressions lv xs w a b (z, ic) inds with
      | Ok (z', ic') =>
          r = Ok tt ∧ h' !! zl = Some (Store.Array z') ∧
          h' !! il = Some (Store.Array ic')
      | Raise e => r = Raise e
      end.
Proof.
  intros Hlv Hz Hi Hzi Hsz Hsi Hlz Hli Hxz Hxi Hwz Hwi.
  induction inds as [|i inds IH]; intros h z ic Hs Hm Hx Hw Hzl Hil Hlen.
  - simpl. exists (Ok tt), h. split; [done|]. split; [apply unchanged_refl|done].
  - destruct (Hlen i ltac:(left)) as [Hiz Hii].
    cbn [Store.for_]. rewrite bind_run. unfold Store.SF_zeta_step at 1.
    rewrite bind_run, (load_estimator_run _ _ _ Hs). cbv beta iota.
    rewrite bind_run, Hlv. unfold Store.lift at 1. simpl attr. cbv beta iota.
    rewrite bind_run, (load_matrix_run _ _ _ Hm). cbv beta iota.
    rewrite bind_run. unfold Store.lift at 1.
    unfold sf_regressions. cbn [foldM].
    destruct (item lv i) as [row|e]; simpl mbind; cbv beta iota.
    2:{ exists (Raise e), h. split; [done|]. split; [apply unchanged_refl|done]. }
    rewrite bind_run, (load_ints_run _ _ _ Hx). cbv beta iota.
    rewrite bind_run, (load_array_run _ _ _ Hw). cbv beta iota.
    rewrite bind_run. unfold Store.lift at 1.
    destruct (linear_regression xs (py_slice row a (b + 1)) w) as [[slope icpt]|e];
      simpl mbind; cbv beta iota.
    2:{ exists (Raise e), h. split; [done|]. split; [apply unchanged_refl|done]. }
    rewrite bind_run, (load_estimator_run _ _ _ Hs). cbv beta iota.
    rewrite bind_run, Hz. unfold Store.lift at 1. simpl attr. cbv beta iota.
    rewrite bind_run, (array_setitem_run _ _ _ _ _ Hzl Hiz). cbv beta iota.
    rewrite bind_run, (load_estimator_run _ _ s)
      by (by rewrite list_lookup_insert_ne).
    cbv beta iota.
    rewrite bind_run, Hi. unfold Store.lift at 1. simpl attr. cbv beta iota.
    rewrite (array_setitem_run _ _ ic)
      by (by rewrite ?list_lookup_insert_ne).
    set (h2 := <[il := _]> _).
    destruct (IH h2 (<[i := slope]> z) (<[i := icpt]> ic))
      as (r & h' & Hrun & Hun & Hres).
    + unfold h2. by rewrite !list_lookup_insert_ne.
    + unfold h2. by rewrite !list_lookup_insert_ne.
    + unfold h2. by rewrite !list_lookup_insert_ne.
    + unfold h2. by rewrite !list_lookup_insert_ne.
    + unfold h2. rewrite list_lookup_insert_ne by done. by eapply lookup_updated.
    + unfold h2. eapply lookup_updated. by rewrite list_lookup_insert_ne.
    + intros i' Hin. rewrite !length_insert. apply Hlen. by right.
    + exists r, h'. split; [exact Hrun|]. split; [|exact Hres].
      eapply unchanged_trans; [|exact Hun]. unfold h2.
      apply unchanged_step; [|left; apply list_elem_of_In; simpl; auto].
      apply unchanged_step; [|left; apply list_elem_of_In; simpl; auto].
      apply unchanged_refl.
Qed.

End StoreLoops.

Section Construction.
Context {F : Type} `{!NumPy F, !Utils F}.
Implicit Types (h : list (Store.object (F := F))) (l : nat).

(** The store [h0] of the caller holds the quantity [mrq] behind [mrq_l] and
    the exponents [qs] behind [q_l]; [self] is free in it. *)
Variables (h0 : list (Store.object (F := F))) (mrq_l q_l self : nat).
Variables (mrq : MultiResolutionQuantity (F := F)) (qs : list F).
Variables (njl vl : nat) (d : list (Z * nat)).
Hypothesis Hmrq : h0 !! mrq_l = Some (Store.Quantity (mrq_name mrq) njl vl).
Hypothesis Hnj : h0 !! njl = Some (Store.CountDict (mrq_nj mrq)).
Hypothesis Hvl : h0 !! vl = Some (Store.ArrayDict d).
Hypothesis Hd :
  Forall2 (λ '(j, c) '(j', l'), j = j' ∧ h0 !! l' = Some (Store.Array c))
          (mrq_values mrq) d.
Hypothesis Hq : h0 !! q_l = Some (Store.Array qs).
Hypothesis Hself0 : h0 !! self = None.

Lemma base_lookup h l (o : Store.object) :
  unchanged_outside [] h0 h → h0 !! l = Some o → h !! l = Some o.
Proof using Type. intros G Hl. apply G; [done|apply not_elem_of_nil]. Qed.

(** The loop over the scales (lines 76-84): it fills the matrix behind
    [values], creates one array [s_j] per scale and changes nothing else. *)
Lemma values_loop (values : nat) (s : Store.Estimator) (l : list (nat * Z)) :
  h0 !! values = None → values ≠ self → Store.e_q s = q_l →
  ∀ h v,
    unchanged_outside [] h0 h → h !! self = Some (Store.Object s) →
    h !! values = Some (Store.Matrix v) → length v = length qs →
    ∃ r h',
      Store.for_ l (λ '(ind_j, j),
        '(_, _, d) ← Store.load_quantity mrq_l;
        d ← Store.load_arrays d;
        c_j ← Store.lift (dict_get d j);
        v ← Store.load_matrix values;
        s_j ← Store.alloc (Store.Array (np_zeros (length v)));
        s ← Store.load_estimator self;
        qs ← Store.load_array (Store.e_q s);
        Store.for_ (enumerate qs) (λ '(ind_q, q),
          m ← Store.SF_moment c_j q;
          Store.array_setitem s_j ind_q m);;
        Store.matrix_setcolumn values ind_j s_j) h = (r, h') ∧
      unchanged_outside [values] h h' ∧
      match foldM (λ values '(ind_j, j),
                     c_j ← dict_get (mrq_values mrq) j;
                     Ok (set_column ind_j (sf_moments c_j qs) values)) v l with
      | Ok v' => r = Ok tt ∧ h' !! values = Some (Store.Matrix v')
      | Raise e => r = Raise e
      end.
Proof using All.
  intros Hv0 Hvs Hsq. induction l as [|[i j] l IH]; intros h v G Hs Hv Hlen.
  - simpl. exists (Ok tt), h. split; [done|]. split; [apply unchanged_refl|done].
  - cbn [Store.for_ foldM]. rewrite bind_run.
    rewrite bind_run, (load_quantity_run _ _ _ _ _ (base_lookup _ _ _ G Hmrq)).
    cbv beta iota.
    rewrite bind_run, (load_arrays_run _ _ _ (base_lookup _ _ _ G Hvl)).
    cbv beta iota. rewrite bind_run. unfold Store.lift at 1.
    pose proof (dict_get_represented h0 _ _ j Hd) as Hj.
    destruct (dict_get (mrq_values mrq) j) as [c|e], (dict_get d j) as [c_l|e'];
      try done.
    + rewrite bind_run, (load_matrix_run _ _ _ Hv). cbv beta iota.
      rewrite bind_run. unfold Store.alloc at 1. cbv beta iota.
      set (s_j := length h).
      assert (values < s_j) as Hvlt by (by apply lookup_lt_Some in Hv).
      assert (self < s_j) as Hslt by (by apply lookup_lt_Some in Hs).
      assert (c_l < s_j) as Hclt
        by (apply (base_lookup _ _ _ G) in Hj; by apply lookup_lt_Some in Hj).
      rewrite bind_run, (load_estimator_run _ _ s) by (by apply lookup_app_l_Some).
      cbv beta iota.
      rewrite bind_run, (load_array_run _ _ qs)
        by (rewrite Hsq; apply lookup_app_l_Some; by apply (base_lookup _ _ _ G)).
      cbv beta iota. rewrite bind_run.
      rewrite (moments_loop c_l s_j c (enumerate qs) _ (np_zeros (length v))).
      2:{ apply lookup_app_l_Some. by apply (base_lookup _ _ _ G). }
      2:{ apply lookup_new. }
      2:{ lia. }
      2:{ intros i' q' Hin. apply enumerate_elem, lookup_lt_Some in Hin.
          unfold np_zeros. rewrite length_replicate. lia. }
      cbv beta iota. rewrite Hlen. fold (sf_moments c qs).
      rewrite (matrix_setcolumn_run _ _ v _ (sf_moments c qs)).
      2:{ rewrite list_lookup_insert_ne by lia. by apply lookup_app_l_Some. }
      2:{ eapply lookup_updated. apply lookup_new. }
      set (h3 := <[values := _]> _).
      destruct (IH h3 (set_column i (sf_moments c qs) v)) as (r & h' & Hrun & Hun & Hres).
      * unfold h3. apply unchanged_step; [|by right].
        apply unchanged_step; [|right; by apply fresh_for_base].
        by apply unchanged_grow.
      * unfold h3. rewrite !list_lookup_insert_ne by lia. by apply lookup_app_l_Some.
      * unfold h3. eapply lookup_updated.
        rewrite list_lookup_insert_ne by lia. by apply lookup_app_l_Some.
      * unfold set_column. rewrite length_zip_with, sf_moments_eq, length_fmap. lia.
      * exists r, h'. split; [exact Hrun|]. split; [|exact Hres].
        eapply unchanged_trans; [|exact Hun]. unfold h3.
        apply unchanged_step; [|left; by left].
        apply unchanged_step; [|right; apply lookup_fresh].
        apply unchanged_grow, unchanged_refl.
    + exists (Raise e'), h. subst e'. simpl.
      split; [done|]. split; [apply unchanged_refl|done].
Qed.

(** [_compute]: on the store it creates the matrix [values], one array per
    scale and the matrix [logvalues], and assigns [self.logvalues]; of the
    objects that existed it changes [self] only. *)
Lemma SF_compute_run (s : Store.Estimator) (jl : nat) h :
  Store.e_q s = q_l → Store.e_j s = Some jl →
  unchanged_outside [] h0 h → h !! self = Some (Store.Object s) →
  h !! jl = Some (Store.Ints (dict_keys (mrq_values mrq))) →
  ∃ r h',
    Store.SF_compute self mrq_l h = (r, h') ∧
    unchanged_outside [self] h h' ∧
    match sf_local_values mrq qs (dict_keys (mrq_values mrq)) with
    | Ok values =>
        r = Ok tt ∧
        ∃ lv, h !! lv = None ∧
              h' !! lv = Some (Store.Matrix (map (map f_log2) values)) ∧
              h' !! self = Some (Store.Object (Store.set_logvalues lv s))
    | Raise e => r = Raise e
    end.
Proof using All.
  intros Hsq Hsj G Hs Hjl. unfold Store.SF_compute.
  rewrite bind_run, (load_estimator_run _ _ _ Hs). cbv beta iota.
  rewrite bind_run, (load_array_run _ _ qs) by (rewrite Hsq; by apply (base_lookup _ _ _ G)).
  cbv beta iota. rewrite bind_run, Hsj. unfold Store.lift at 1. simpl attr. cbv beta iota.
  rewrite bind_run, (load_ints_run _ _ _ Hjl). cbv beta iota.
  rewrite bind_run. unfold Store.alloc at 1. cbv beta iota.
  set (values := length h). set (js := dict_keys (mrq_values mrq)).
  assert (self < values) as Hslt by (by apply lookup_lt_Some in Hs).
  destruct (values_loop values s (enumerate js)
              (fresh_for_base _ _ G) ltac:(lia) Hsq
              (h ++ [Store.Matrix (np_zeros2 (length qs) (length js))])
              (np_zeros2 (length qs) (length js)))
    as (r1 & h1 & Hrun & Hun & Hres).
  { by apply unchanged_grow. }
  { by apply lookup_app_l_Some. }
  { apply lookup_new. }
  { unfold np_zeros2. by rewrite length_replicate. }
  rewrite bind_run, Hrun. unfold sf_local_values. fold js.
  assert (unchanged_outside [self] h h1) as Hh1.
  { eapply unchanged_chain; [apply unchanged_grow, unchanged_refl|exact Hun|].
    intros l Hl. apply list_elem_of_singleton in Hl as ->. right. apply lookup_fresh. }
  destruct (foldM _ _ (enumerate js)) as [v'|e].
  - destruct Hres as [-> Hv']. cbv beta iota.
    rewrite bind_run, (load_matrix_run _ _ _ Hv'). cbv beta iota.
    rewrite bind_run. unfold Store.alloc at 1. cbv beta iota.
    assert (h1 !! self = Some (Store.Object s)) as Hs1.
    { apply Hun; [by apply lookup_app_l_Some|].
      intros Hin. apply list_elem_of_singleton in Hin. lia. }
    rewrite (setattr_run _ _ s) by (by apply lookup_app_l_Some).
    eexists _, _. split; [reflexivity|]. split.
    + apply unchanged_step; [|left; by left]. by apply unchanged_grow.
    + split; [done|]. exists (length h1). split_and!.
      * apply (fresh_after [self] _ _ Hh1). intros l Hl.
        apply list_elem_of_singleton in Hl as ->. by apply lookup_lt_Some in Hs1.
      * rewrite list_lookup_insert_ne; [apply lookup_new|].
        apply lookup_lt_Some in Hs1. lia.
      * eapply lookup_updated. by apply lookup_app_l_Some.
  - rewrite Hres. eexists _, _. split; [reflexivity|]. split; [exact Hh1|done].
Qed.

(** [_compute_zeta]: on the store it creates the arrays [zeta],
    [intercept], [x] and the weights, assigns [self.zeta] and
    [self.intercept] and fills the two arrays; of the objects that existed
    it changes [self] only. *)
Lemma SF_compute_zeta_run (s : Store.Estimator) (lvl : nat) (lv : list (list F)) h :
  Store.e_q s = q_l → Store.e_logvalues s = Some lvl →
  unchanged_outside [] h0 h → h !! self = Some (Store.Object s) →
  h !! lvl = Some (Store.Matrix lv) → lvl ≠ self →
  let j1 := Store.e_j1 s in
  let j2 := Store.e_j2 s in
  ∃ r h',
    Store.SF_compute_zeta self mrq_l h = (r, h') ∧
    unchanged_outside [self] h h' ∧
    match regression_weights (mrq_nj mrq) j1 j2 (Store.e_wtype s) with
    | Raise e => r = Raise e
    | Ok nj =>
      match sf_regressions lv (arange j1 (j2 + 1)) nj (j1 - 1) (j2 - 1)
              (np_zeros (length qs), np_zeros (length qs))
              (seq 0 (length qs)) with
      | Raise e => r = Raise e
      | Ok (zeta, ic) =>
          r = Ok tt ∧
          ∃ zl il, h !! zl = None ∧ h !! il = None ∧
            h' !! zl = Some (Store.Array zeta) ∧ h' !! il = Some (Store.Array ic) ∧
            h' !! lvl = Some (Store.Matrix lv) ∧
            h' !! self = Some (Store.Object
                                 (Store.set_intercept il (Store.set_zeta zl s)))
      end
    end.
Proof using All.
  intros Hsq Hslv G Hs Hlv Hne j1 j2.
  pose proof (base_lookup _ _ _ G Hq) as Hq'.
  pose proof (base_lookup _ _ _ G Hmrq) as Hmrq'.
  pose proof (base_lookup _ _ _ G Hnj) as Hnj'.
  pose proof (lookup_lt_Some _ _ _ Hs) as Hslt.
  pose proof (lookup_lt_Some _ _ _ Hlv) as Hllt.
  pose proof (lookup_lt_Some _ _ _ Hq') as Hqlt.
  pose proof (lookup_lt_Some _ _ _ Hmrq') as Hmlt.
  pose proof (lookup_lt_Some _ _ _ Hnj') as Hnlt.
  assert (q_l ≠ self) as Hqs by (intros ->; congruence).
  assert (mrq_l ≠ self) as Hms by (intros ->; congruence).
  assert (njl ≠ self) as Hns by (intros ->; congruence).
  unfold Store.SF_compute_zeta.
  rewrite bind_run, (load_estimator_run _ _ _ Hs). cbv beta iota.
  rewrite bind_run, (load_array_run _ _ qs) by (by rewrite Hsq). cbv beta iota.
  rewrite bind_run. unfold Store.alloc at 1. cbv beta iota.
  set (zeros := Store.Array (np_zeros (length qs))).
  set (s1 := Store.set_zeta (length h) s).
  rewrite bind_run, (setattr_run _ _ s) by (by apply lookup_app_l_Some).
  cbv beta iota. fold s1.
  set (hB := <[self := Store.Object s1]> (h ++ [zeros])).
  assert (length hB = length h + 1) as HlB by (unfold hB; st_length).
  assert (hB !! self = Some (Store.Object s1)) as HsB.
  { unfold hB. apply list_lookup_insert_eq. st_length. }
  assert (∀ l o, l ≠ self → h !! l = Some o → hB !! l = Some o) as HoldB.
  { intros l o Hl Ho. unfold hB. rewrite list_lookup_insert_ne by done.
    by apply lookup_app_l_Some. }
  assert (hB !! length h = Some zeros) as HzB.
  { unfold hB. rewrite list_lookup_insert_ne by lia. apply lookup_new. }
  rewrite bind_run, (load_estimator_run _ _ _ HsB). cbv beta iota.
  rewrite bind_run, (load_array_run _ _ qs)
    by (simpl; rewrite Hsq; apply HoldB; [lia|done]).
  cbv beta iota.
  rewrite bind_run. unfold Store.alloc at 1. cbv beta iota. fold zeros.
  rewrite HlB. set (s2 := Store.set_intercept (length h + 1) s1).
  rewrite bind_run, (setattr_run _ _ s1) by (by apply lookup_app_l_Some).
  cbv beta iota. fold s2.
  set (hD := <[self := Store.Object s2]> (hB ++ [zeros])).
  assert (length hD = length h + 2) as HlD by (unfold hD; st_length).
  assert (hD !! self = Some (Store.Object s2)) as HsD.
  { unfold hD. apply list_lookup_insert_eq. st_length. }
  assert (∀ l o, l ≠ self → hB !! l = Some o → hD !! l = Some o) as HoldD.
  { intros l o Hl Ho. unfold hD. rewrite list_lookup_insert_ne by done.
    by apply lookup_app_l_Some. }
  assert (hD !! (length h + 1) = Some zeros) as HiD.
  { unfold hD. rewrite list_lookup_insert_ne by lia. apply lookup_new_at. lia. }
  rewrite bind_run, (load_estimator_run _ _ _ HsD). cbv beta iota.
  rewrite bind_run. unfold Store.alloc at 1. cbv beta iota. rewrite HlD.
  change (Store.e_j1 s2) with j1. change (Store.e_j2 s2) with j2.
  set (x := arange j1 (j2 + 1)).
  set (hE := hD ++ [Store.Ints x]).
  assert (length hE = length h + 3) as HlE by (unfold hE; st_length).
  assert (∀ l o, hD !! l = Some o → hE !! l = Some o) as HoldE.
  { intros l o Ho. by apply lookup_app_l_Some. }
  assert (hE !! (length h + 2) = Some (Store.Ints x)) as HxE.
  { apply lookup_new_at. lia. }
  assert (unchanged_outside [self] h hE) as HunE.
  { unfold hE, hD, hB. apply unchanged_grow.
    apply unchanged_step; [|left; by left]. apply unchanged_grow.
    apply unchanged_step; [|left; by left]. apply unchanged_grow, unchanged_refl. }
  rewrite bind_run, (load_estimator_run _ _ s2) by (by apply HoldE). cbv beta iota.
  rewrite bind_run.
  change (Store.e_wtype s2) with (Store.e_wtype s).
  change (Store.e_j1 s2) with j1. change (Store.e_j2 s2) with j2.
  assert (∃ rw hF,
            (if Store.e_wtype s then Store.get_nj_interv mrq_l j1 j2
             else xs ← Store.load_ints (length h + 2);
                  Store.alloc (Store.Array (np_ones (length xs)))) hE = (rw, hF) ∧
            match regression_weights (mrq_nj mrq) j1 j2 (Store.e_wtype s) with
            | Raise e => rw = Raise e ∧ hF = hE
            | Ok nj => rw = Ok (length h + 3) ∧ hF = hE ++ [Store.Array nj]
            end) as (rw & hF & Hrw & Hw).
  { destruct (Store.e_wtype s); simpl regression_weights.
    - unfold Store.get_nj_interv.
      rewrite bind_run, (load_quantity_run _ _ (mrq_name mrq) njl vl)
        by (apply HoldE, HoldD, HoldB; [lia|lia|done]).
      cbv beta iota.
      rewrite bind_run, (load_counts_run _ _ (mrq_nj mrq))
        by (apply HoldE, HoldD, HoldB; [lia|lia|done]).
      cbv beta iota. rewrite bind_run. unfold Store.lift at 1.
      destruct (get_nj_interv (mrq_nj mrq) j1 j2) as [w|e].
      + unfold Store.alloc. rewrite HlE. by eexists _, _.
      + by eexists _, _.
    - rewrite bind_run, (load_ints_run _ _ _ HxE). cbv beta iota.
      unfold Store.alloc. rewrite HlE. by eexists _, _. }
  rewrite Hrw.
  destruct (regression_weights (mrq_nj mrq) j1 j2 (Store.e_wtype s)) as [nj|e].
  2:{ destruct Hw as [-> ->]. eexists _, _. split; [reflexivity|]. split; [exact HunE|done]. }
  destruct Hw as [-> ->]. cbv beta iota.
  set (hF := hE ++ [Store.Array nj]).
  assert (∀ l o, hE !! l = Some o → hF !! l = Some o) as HoldF.
  { intros l o Ho. by apply lookup_app_l_Some. }
  rewrite bind_run, (load_estimator_run _ _ s2) by (by apply HoldF, HoldE).
  cbv beta iota.
  rewrite bind_run, (load_array_run _ _ qs)
    by (simpl; rewrite Hsq; apply HoldF, HoldE, HoldD, HoldB; [lia|lia|done]).
  cbv beta iota.
  change (Store.e_j1 s2) with j1. change (Store.e_j2 s2) with j2.
  destruct (zeta_loop self (length h + 2) (length h + 3) lvl (length h) (length h + 1)
              s2 lv x nj (j1 - 1) (j2 - 1) (seq 0 (length qs))
              Hslv eq_refl eq_refl ltac:(lia) ltac:(lia) ltac:(lia) ltac:(lia)
              ltac:(lia) ltac:(lia) ltac:(lia) ltac:(lia) ltac:(lia)
              hF (np_zeros (length qs)) (np_zeros (length qs)))
    as (r & h' & Hrun & Hun & Hres).
  { by apply HoldF, HoldE. }
  { apply HoldF, HoldE, HoldD, HoldB; [lia|lia|done]. }
  { by apply HoldF. }
  { apply lookup_new_at. lia. }
  { apply HoldF, HoldE, HoldD; [lia|done]. }
  { by apply HoldF, HoldE. }
  { intros i Hi. apply elem_of_seq in Hi. unfold np_zeros.
    rewrite length_replicate. lia. }
  exists r, h'. split; [exact Hrun|].
  assert (unchanged_outside [self] h h') as Hun'.
  { eapply unchanged_chain; [|exact Hun|].
    - unfold hF. by apply unchanged_grow.
    - intros l Hl. right. apply lookup_ge_None.
      apply list_elem_of_In in Hl. simpl in Hl. lia. }
  split; [exact Hun'|].
  destruct (sf_regressions lv x nj _ _ _ _) as [[zeta ic]|e]; [|done].
  destruct Hres as (-> & Hz' & Hi'). split; [done|].
  exists (length h), (length h + 1).
  split_and!; [apply lookup_fresh|apply lookup_ge_None; lia|done|done| |].
  - apply Hun; [by apply HoldF, HoldE, HoldD, HoldB; [lia|lia|]|].
    intros Hin. apply list_elem_of_In in Hin. simpl in Hin. lia.
  - apply Hun; [by apply HoldF, HoldE|].
    intros Hin. apply list_elem_of_In in Hin. simpl in Hin. lia.
Qed.

(** [__post_init__] on the store, against the value-level computations. *)
Lemma SF_post_init_store (j1 j2 : Z) (wtype : bool) h :
  let s0 := Store.MkEstimator None q_l j1 j2 wtype None None None None in
  let js := dict_keys (mrq_values mrq) in
  unchanged_outside [] h0 h → h !! self = Some (Store.Object s0) →
  ∃ r h',
    Store.SF_post_init self mrq_l h = (r, h') ∧
    unchanged_outside [self] h h' ∧
    match sf_local_values mrq qs js with
    | Raise e => r = Raise e
    | Ok values =>
      match regression_weights (mrq_nj mrq) j1 j2 wtype with
      | Raise e => r = Raise e
      | Ok nj =>
        match sf_regressions (map (map f_log2) values) (arange j1 (j2 + 1)) nj
                (j1 - 1) (j2 - 1) (np_zeros (length qs), np_zeros (length qs))
                (seq 0 (length qs)) with
        | Raise e => r = Raise e
        | Ok (zeta, ic) =>
            r = Ok tt ∧
            holds h' self q_l
              (SF (Some (mrq_name mrq)) qs j1 j2 wtype (Some js) None
                  (Some (map (map f_log2) values)) (Some zeta) (Some ic))
        end
      end
    end.
Proof using All.
  intros s0 js G Hs.
  pose proof (base_lookup _ _ _ G Hmrq) as Hmrq'.
  pose proof (base_lookup _ _ _ G Hvl) as Hvl'.
  pose proof (lookup_lt_Some _ _ _ Hs) as Hslt.
  assert (mrq_l ≠ self) as Hms by (intros ->; congruence).
  assert (vl ≠ self) as Hvs by (intros ->; congruence).
  unfold Store.SF_post_init.
  rewrite bind_run, (load_quantity_run _ _ _ _ _ Hmrq'). cbv beta iota.
  rewrite bind_run, (setattr_run _ _ _ _ Hs). cbv beta iota.
  set (sA := Store.set_name (mrq_name mrq) s0).
  rewrite bind_run, (load_quantity_run _ _ (mrq_name mrq) njl vl)
    by (by rewrite list_lookup_insert_ne).
  cbv beta iota.
  rewrite bind_run, (load_arrays_run _ _ d) by (by rewrite list_lookup_insert_ne).
  cbv beta iota.
  rewrite bind_run. unfold Store.alloc at 1. cbv beta iota.
  rewrite length_insert, (dict_keys_represented _ _ _ Hd). fold js.
  rewrite bind_run, (setattr_run _ _ sA)
    by (apply lookup_app_l_Some, list_lookup_insert_eq; lia).
  cbv beta iota.
  set (sC := Store.set_j (length h) sA).
  set (hC := <[self := Store.Object sC]> (<[self := Store.Object sA]> h ++ [Store.Ints js])).
  assert (unchanged_outside [self] h hC) as HunC.
  { unfold hC. apply unchanged_step; [|left; by left]. apply unchanged_grow.
    apply unchanged_step; [|left; by left]. apply unchanged_refl. }
  assert (unchanged_outside [] h0 hC) as GC.
  { eapply (unchanged_new [self]); [|exact G|exact HunC].
    intros l Hl. by apply list_elem_of_singleton in Hl as ->. }
  assert (hC !! self = Some (Store.Object sC)) as HsC.
  { unfold hC. apply list_lookup_insert_eq. st_length. }
  assert (hC !! length h = Some (Store.Ints js)) as HjC.
  { unfold hC. rewrite list_lookup_insert_ne by lia. apply lookup_new_at.
    by rewrite length_insert. }
  destruct (SF_compute_run sC (length h) hC eq_refl eq_refl GC HsC HjC)
    as (r1 & h1 & Hrun1 & Hun1 & Hres1).
  rewrite bind_run, Hrun1. fold js in Hres1.
  assert (unchanged_outside [self] h h1) as Hh1
    by (eapply unchanged_trans; [exact HunC|exact Hun1]).
  destruct (sf_local_values mrq qs js) as [values|e].
  2:{ rewrite Hres1. eexists _, _. split; [reflexivity|]. split; [exact Hh1|done]. }
  destruct Hres1 as (-> & lvl & Hlnew & Hlv1 & Hs1). cbv beta iota.
  assert (lvl ≠ self) as Hls by (intros ->; congruence).
  assert (unchanged_outside [] h0 h1) as G1.
  { eapply (unchanged_new [self]); [|exact GC|exact Hun1].
    intros l Hl. by apply list_elem_of_singleton in Hl as ->. }
  destruct (SF_compute_zeta_run (Store.set_logvalues lvl sC) lvl
              (map (map f_log2) values) h1 eq_refl eq_refl G1 Hs1 Hlv1 Hls)
    as (r2 & h2 & Hrun2 & Hun2 & Hres2).
  rewrite Hrun2. exists r2, h2. split; [done|].
  split; [eapply unchanged_trans; [exact Hh1|exact Hun2]|].
  simpl in Hres2.
  destruct (regression_weights (mrq_nj mrq) j1 j2 wtype) as [nj|e]; [|done].
  destruct (sf_regressions _ _ nj _ _ _ _) as [[zeta ic]|e]; [|done].
  destruct Hres2 as (-> & zl & il & _ & _ & Hz2 & Hi2 & Hlv2 & Hs2).
  split; [done|]. exists (length h), lvl, zl, il. simpl.
  split_and!; [exact Hs2| |  |done..].
  - apply (base_lookup h2 _ _); [|exact Hq].
    eapply (unchanged_new [self]); [|exact G1|exact Hun2].
    intros l Hl. by apply list_elem_of_singleton in Hl as ->.
  - apply Hun2; [apply Hun1; [exact HjC|]|];
      intros Hin; apply list_elem_of_singleton in Hin; lia.
Qed.

End Construction.

Section StoreTheorems.
Context {F : Type} `{!NumPy F, !Utils F}.

Lemma represents_mono (h h' : list (Store.object (F := F))) (l : nat)
    (mrq : MultiResolutionQuantity) :
  (∀ l o, h !! l = Some o → h' !! l = Some o) →
  represents h l mrq → represents h' l mrq.
Proof.
  intros Hsub (nj & values & d & Hq & Hnj & Hv & Hd).
  exists nj, values, d. split_and!; [by apply Hsub..|].
  eapply Forall2_impl; [exact Hd|].
  intros [j c] [j' l'] [-> Hl]. split; [done|by apply Hsub].
Qed.

(** C10. The construction on a store of shared objects. Whatever the store
    of the caller holds besides the quantity and the array of exponents,
    and whether construction returns or raises, every object that was in
    the store is in it afterwards, at its location, as it was: the quantity,
    its dicts [nj] and [values], its coefficient arrays, the array [q], and
    anything else. What the construction writes in place ([s_j], [values],
    [self.zeta], [self.intercept], the attributes of [self]) are objects
    that it created. Its outcome is the one of the value-level construction
    on the contents of the quantity and of [q]: the same exception, or a new
    object whose arrays hold the values of the attributes. *)
Theorem construction_changes_no_object_of_the_caller
    (h : list (Store.object (F := F))) (mrq_ref q_ref : nat)
    (mrq : MultiResolutionQuantity) (q : list F) (j1 j2 : Z) (wtype : bool) :
  represents h mrq_ref mrq → h !! q_ref = Some (Store.Array q) →
  ∃ res h',
    Store.StructureFunction_new mrq_ref q_ref j1 j2 wtype h = (res, h') ∧
    (∀ l o, h !! l = Some o → h' !! l = Some o) ∧
    represents h' mrq_ref mrq ∧
    match res with
    | Ok self =>
        h !! self = None ∧
        ∃ sf, StructureFunction_new mrq q j1 j2 wtype = Ok sf ∧
              holds h' self q_ref sf
    | Raise e => StructureFunction_new mrq q j1 j2 wtype = Raise e
    end.
Proof.
  intros Hrep Hq. pose proof Hrep as (njl & vl & d & Hm & Hnj & Hvl & Hd).
  unfold Store.StructureFunction_new.
  rewrite bind_run. unfold Store.alloc at 1. cbv beta iota.
  rewrite bind_run. unfold Store.lift at 1.
  change (bind_arguments SF_post_init_params (post_init_args SF_fields))
    with (Ok (zip SF_post_init_params (post_init_args SF_fields))).
  cbv beta iota.
  destruct (SF_post_init_store h mrq_ref q_ref (length h) mrq q njl vl d
              Hm Hnj Hvl Hd Hq (lookup_fresh h) j1 j2 wtype
              (h ++ [Store.Object
                       (Store.MkEstimator None q_ref j1 j2 wtype None None None None)]))
    as (r & h' & Hrun & Hun & Hres).
  { apply unchanged_alloc. }
  { apply lookup_new. }
  rewrite bind_run, Hrun.
  assert (∀ l o, h !! l = Some o → h' !! l = Some o) as Hframe.
  { intros l o Hl. apply Hun; [by apply lookup_app_l_Some|].
    intros Hin. apply list_elem_of_singleton in Hin.
    apply lookup_lt_Some in Hl. lia. }
  assert (StructureFunction_new mrq q j1 j2 wtype =
          match sf_local_values mrq q (dict_keys (mrq_values mrq)) with
          | Raise e => Raise e
          | Ok values =>
            match regression_weights (mrq_nj mrq) j1 j2 wtype with
            | Raise e => Raise e
            | Ok nj =>
              match sf_regressions (map (map f_log2) values) (arange j1 (j2 + 1)) nj
                      (j1 - 1) (j2 - 1) (np_zeros (length q), np_zeros (length q))
                      (seq 0 (length q)) with
              | Raise e => Raise e
              | Ok (zeta, ic) =>
                  Ok (SF (Some (mrq_name mrq)) q j1 j2 wtype
                         (Some (dict_keys (mrq_values mrq))) None
                         (Some (map (map f_log2) values)) (Some zeta) (Some ic))
              end
            end
          end) as Hpure.
  { unfold StructureFunction_new.
    rewrite StructureFunction_init_run, SF_post_init_run.
    unfold mbind, outcome_bind, fmap, outcome_fmap. simpl.
    destruct (sf_local_values mrq q _) as [values|]; [|done].
    destruct (regression_weights _ _ _ _) as [nj|]; [|done].
    destruct (sf_regressions _ _ nj _ _ _ _) as [[zeta ic]|]; done. }
  rewrite Hpure.
  destruct (sf_local_values mrq q _) as [values|e].
  2:{ rewrite Hres. eexists _, _. split; [reflexivity|].
      split; [exact Hframe|]. split; [by eapply represents_mono|done]. }
  destruct (regression_weights _ _ _ _) as [nj|e].
  2:{ rewrite Hres. eexists _, _. split; [reflexivity|].
      split; [exact Hframe|]. split; [by eapply represents_mono|done]. }
  destruct (sf_regressions _ _ nj _ _ _ _) as [[zeta ic]|e].
  2:{ rewrite Hres. eexists _, _. split; [reflexivity|].
      split; [exact Hframe|]. split; [by eapply represents_mono|done]. }
  destruct Hres as [-> Hholds]. cbv beta iota.
  eexists _, _. split; [reflexivity|].
  split; [exact Hframe|]. split; [by eapply represents_mono|].
  split; [apply lookup_fresh|]. eexists. split; [reflexivity|exact Hholds].
Qed.

End StoreTheorems.

(** ** The multifractal spectrum *)

Section SpectrumFacts.
Context {F : Type} `{!NumPy F, !Utils F}.

Lemma mfs_R_spec (m qs : list F) (R_j : list (list F)) :
  mfs_R m qs = Ok R_j → R_j = R_vector m <$> qs.
Proof.
  unfold mfs_R, np_stack. destruct qs as [|q qs]; simpl; [done|].
  intros [= <-]. f_equal. rewrite <- list_fmap_compose. done.
Qed.

Lemma mfs_R_total (m qs : list F) : qs ≠ [] → is_Ok (mfs_R m qs).
Proof. unfold mfs_R, np_stack. destruct qs; [done|]. intros _. by eexists. Qed.

(** The loop over scales, from any pair of matrices with enough rows: the
    rows of the scales seen so far hold the U and V of these scales. *)
Lemma mfs_rows_filled (mrq : MultiResolutionQuantity) (qs : list F)
    (js : list Z) (U0 V0 U V : list (list F)) :
  foldM (λ '(U, V) '(ind_j, j),
           nj ← dict_get (mrq_nj mrq) j;
           c_j ← dict_get (mrq_values mrq) j;
           let mrq_values_j := f_abs <$> c_j in
           R_j ← mfs_R mrq_values_j qs;
           let V' := <[ind_j := mfs_V_row mrq_values_j R_j]> V in
           let U' := <[ind_j := mfs_U_row nj R_j]> U in
           Ok (U', V'))
        (U0, V0) (enumerate js) = Ok (U, V) →
  length U = length U0 ∧ length V = length V0 ∧
  ∀ p j, js !! p = Some j →
    ∃ n c_j R_j,
      dict_get (mrq_nj mrq) j = Ok n ∧ dict_get (mrq_values mrq) j = Ok c_j ∧
      mfs_R (f_abs <$> c_j) qs = Ok R_j ∧
      (p < length U0 → U !! p = Some (mfs_U_row n R_j)) ∧
      (p < length V0 → V !! p = Some (mfs_V_row (f_abs <$> c_j) R_j)).
Proof.
  revert U V. induction js as [|j js IH] using rev_ind; intros U V.
  - simpl. intros [= <- <-]. split_and!; [done..|].
    intros p j Hp. by rewrite lookup_nil in Hp.
  - rewrite enumerate_snoc, foldM_app.
    destruct (foldM _ (U0, V0) (enumerate js)) as [[U1 V1]|] eqn:H1; simpl; [|done].
    destruct (IH U1 V1 eq_refl) as (HU1 & HV1 & Hrows).
    destruct (dict_get (mrq_nj mrq) j) as [n|] eqn:Hn; simpl; [|done].
    destruct (dict_get (mrq_values mrq) j) as [c_j|] eqn:Hc; simpl; [|done].
    destruct (mfs_R (f_abs <$> c_j) qs) as [R_j|] eqn:HR; simpl; [|done].
    intros [= <- <-]. rewrite !length_insert. split_and!; [done..|].
    intros p j' Hp. destruct (decide (p = length js)) as [->|Hne].
    + rewrite lookup_app_r, Nat.sub_diag in Hp by lia. injection Hp as <-.
      exists n, c_j, R_j. split_and!; [done..| |].
      * intros. apply list_lookup_insert_eq. lia.
      * intros. apply list_lookup_insert_eq. lia.
    + assert (p < length js).
      { apply lookup_lt_Some in Hp. rewrite length_app in Hp. simpl in Hp. lia. }
      rewrite lookup_app_l in Hp by done.
      destruct (Hrows p j' Hp) as (n' & c' & R' & ? & ? & ? & HU & HV).
      exists n', c', R'. split_and!; [done..| |].
      * intros. rewrite list_lookup_insert_ne by done. auto.
      * intros. rewrite list_lookup_insert_ne by done. auto.
Qed.

Lemma mfs_local_UV_spec (mrq : MultiResolutionQuantity) (qs : list F)
    (js : list Z) (U V : list (list F)) :
  mfs_local_UV mrq qs js = Ok (U, V) →
  length U = length js ∧ length V = length js ∧
  ∀ p j, js !! p = Some j →
    ∃ n c_j,
      dict_get (mrq_nj mrq) j = Ok n ∧ dict_get (mrq_values mrq) j = Ok c_j ∧
      U !! p = Some (mfs_U_row n (R_vector (f_abs <$> c_j) <$> qs)) ∧
      V !! p = Some (mfs_V_row (f_abs <$> c_j) (R_vector (f_abs <$> c_j) <$> qs)).
Proof.
  intros H. apply mfs_rows_filled in H as (HU & HV & Hrows).
  unfold np_zeros2 in *. rewrite length_replicate in *.
  split_and!; [done..|]. intros p j Hp.
  destruct (Hrows p j Hp) as (n & c & R & Hn & Hc & HR & HUp & HVp).
  apply mfs_R_spec in HR as ->. apply lookup_lt_Some in Hp.
  exists n, c. split_and!; auto.
Qed.

(** The regression loop of the spectrum: what [Dq] and [hq] hold. *)
Lemma mfs_regressions_prefix U V x wj j1 j2 (D0 h0 : list F) (k : nat) Dq hq :
  foldM (λ '(Dq, hq) ind_q,
           y ← column_slice U (j1 - 1) j2 ind_q;
           z ← column_slice V (j1 - 1) j2 ind_q;
           '(slope_1, _) ← linear_regression x y wj;
           '(slope_2, _) ← linear_regression x z wj;
           Ok (<[ind_q := f_add (of_int 1) slope_1]> Dq, <[ind_q := slope_2]> hq))
        (D0, h0) (seq 0 k) = Ok (Dq, hq) →
  length Dq = length D0 ∧ length hq = length h0 ∧
  ∀ i, i < k → ∃ y z slope_1 i1 slope_2 i2,
    column_slice U (j1 - 1) j2 i = Ok y ∧ column_slice V (j1 - 1) j2 i = Ok z ∧
    linear_regression x y wj = Ok (slope_1, i1) ∧
    linear_regression x z wj = Ok (slope_2, i2) ∧
    (i < length D0 → Dq !! i = Some (f_add (of_int 1) slope_1)) ∧
    (i < length h0 → hq !! i = Some slope_2).
Proof.
  revert Dq hq. induction k as [|k IH]; intros Dq hq.
  - simpl. intros [= <- <-]. split_and!; [done..|]. intros; lia.
  - rewrite seq_S, foldM_app. simpl.
    destruct (foldM _ (D0, h0) (seq 0 k)) as [[D1 h1]|] eqn:Hk; simpl; [|done].
    destruct (IH D1 h1 eq_refl) as (HD1 & Hh1 & Hprev).
    destruct (column_slice U (j1 - 1) j2 k) as [y|] eqn:Hy; simpl; [|done].
    destruct (column_slice V (j1 - 1) j2 k) as [z|] eqn:Hz; simpl; [|done].
    destruct (linear_regression x y wj) as [[s1 i1]|] eqn:Hl1; simpl; [|done].
    destruct (linear_regression x z wj) as [[s2 i2]|] eqn:Hl2; simpl; [|done].
    intros [= <- <-]. rewrite !length_insert. split_and!; [done..|].
    intros i Hi. destruct (decide (i = k)) as [->|Hne].
    + exists y, z, s1, i1, s2, i2. split_and!; [done..| |].
      * intros. apply list_lookup_insert_eq. lia.
      * intros. apply list_lookup_insert_eq. lia.
    + destruct (Hprev i ltac:(lia)) as (y' & z' & a & b & c & d & ? & ? & ? & ? & HD & Hh).
      exists y', z', a, b, c, d. split_and!; [done..| |].
      * intros. rewrite list_lookup_insert_ne by done. auto.
      * intros. rewrite list_lookup_insert_ne by done. auto.
Qed.

Lemma mfs_regressions_spec U V x wj j1 j2 (n : nat) Dq hq :
  mfs_regressions U V x wj j1 j2 n = Ok (Dq, hq) →
  length Dq = n ∧ length hq = n ∧
  ∀ i, i < n → ∃ y z slope_1 i1 slope_2 i2,
    column_slice U (j1 - 1) j2 i = Ok y ∧ column_slice V (j1 - 1) j2 i = Ok z ∧
    linear_regression x y wj = Ok (slope_1, i1) ∧
    linear_regression x z wj = Ok (slope_2, i2) ∧
    Dq !! i = Some (f_add (of_int 1) slope_1) ∧ hq !! i = Some slope_2.
Proof.
  intros H. apply mfs_regressions_prefix in H as (HD & Hh & Hrows).
  unfold np_zeros in *. rewrite length_replicate in *.
  split_and!; [done..|]. intros i Hi.
  destruct (Hrows i Hi) as (y & z & a & b & c & d & ? & ? & ? & ? & HDi & Hhi).
  exists y, z, a, b, c, d. split_and!; auto.
Qed.

(** [_compute] in closed form. *)
Lemma MFS_compute_run (mrq : MultiResolutionQuantity) name nj js j1 j2 wt q Dq0 hq0 U0 V0 :
  MFS_compute (World mrq (MFS name nj (Some js) j1 j2 wt q Dq0 hq0 U0 V0)) =
  match mfs_local_UV mrq q js with
  | Raise e => Raise e
  | Ok (U, V) =>
    match (if wt then nj' ← attr nj; get_nj_interv nj' j1 j2
           else Ok (np_ones (length (arange j1 (j2 + 1))))) with
    | Raise e => Raise e
    | Ok wj =>
      match mfs_regressions U V (arange j1 (j2 + 1)) wj j1 j2 (length q) with
      | Raise e => Raise e
      | Ok (Dq, hq) =>
          Ok (tt, World mrq (MFS name nj (Some js) j1 j2 wt q
                                 (Some Dq) (Some hq) (Some U) (Some V)))
      end
    end
  end.
Proof.
  unfold MFS_compute. py_unfold.
  destruct (mfs_local_UV mrq q js) as [[U V]|]; simpl; [|reflexivity].
  destruct wt; simpl.
  - destruct nj as [nj'|]; simpl; [|reflexivity].
    destruct (get_nj_interv nj' j1 j2) as [wj|]; simpl; [|reflexivity].
    destruct (mfs_regressions _ _ _ _ _ _ _) as [[Dq hq]|]; reflexivity.
  - destruct (mfs_regressions _ _ _ _ _ _ _) as [[Dq hq]|]; reflexivity.
Qed.

End SpectrumFacts.

Section SpectrumTheorems.
Context {F : Type} `{!NumPy F, !Utils F}.

(** The body of [__post_init__] in closed form. *)
Lemma MFS_post_init_run (mrq : MultiResolutionQuantity) (s : MultifractalSpectrum) :
  MFS_post_init (World mrq s) =
  MFS_compute (World mrq (MFS (Some (mrq_name mrq)) (Some (mrq_nj mrq))
                              (Some (dict_keys (mrq_values mrq)))
                              (mfs_j1 s) (mfs_j2 s) (mfs_wtype s) (mfs_q s)
                              (mfs_Dq s) (mfs_hq s) (mfs_U s) (mfs_V s))).
Proof. destruct s. reflexivity. Qed.

(** A column of a window of rows, item by item. *)
Lemma column_slice_items (m : list (list F)) (n : nat) (j1 j2 : Z) (i : nat)
    (y : list F) :
  length m = n → column_slice m (j1 - 1) j2 i = Ok y →
  length y = window_stop n j2 - window_start n j1 ∧
  ∀ k, k < window_stop n j2 - window_start n j1 →
    window_start n j1 + k < n ∧
    entry m (window_start n j1 + k) i = y !! k ∧ is_Some (y !! k).
Proof.
  intros Hn Hy. unfold column_slice in Hy.
  apply traverse_Ok in Hy as [Hlen Hitems].
  destruct (window_items m n j1 j2 Hn) as [Hlw Hw].
  split; [by rewrite Hlen|].
  intros k Hk. destruct (Hw k Hk) as [Hlt Hlk]. split; [done|].
  destruct (lookup_lt_is_Some_2 m (window_start n j1 + k) ltac:(lia)) as [row Hrow].
  rewrite Hrow in Hlk. destruct (Hitems k row Hlk) as (v & Hv & Hyk).
  unfold item in Hv. unfold entry. rewrite Hrow, Hyk. simpl.
  destruct (row !! i); [|done]. injection Hv as ->. split; [done|by eexists].
Qed.

(** C3. Whenever the body of [__post_init__] returns: at the row of each
    scale j, with m = |coefficients(j)| and n = nj[j], and for each exponent
    q_i, with R = power(m, q_i) / sum(power(m, q_i)), V[j, q_i] =
    sum(R * log2(m)) and U[j, q_i] = log2(n) + sum(R * log2(R)); and, with
    x = (j1, ..., j2) and the chosen weights, Dq[q_i] is 1 plus the slope and
    hq[q_i] is the slope of the regressions of x on two ordinate vectors
    that are taken by position: item k is U, or V, of the scale that the
    scale list holds at position [j1 - 1 + k] (clipped to the list), up to
    position [j2 - 1]. They are the windows [U[j1..j2, q_i]] and
    [V[j1..j2, q_i]] of the claim when the scale list holds j1, ..., j2 at the
    positions j1-1, ..., j2-1. *)
Theorem spectrum_windows_are_taken_by_position (mrq : MultiResolutionQuantity)
    (s : MultifractalSpectrum) (w' : world MultifractalSpectrum) :
  MFS_post_init (World mrq s) = Ok (tt, w') →
  let q := mfs_q s in
  let j1 := mfs_j1 s in
  let j2 := mfs_j2 s in
  let x := arange j1 (j2 + 1) in
  let js := dict_keys (mrq_values mrq) in
  let a := window_start (length js) j1 in
  let b := window_stop (length js) j2 in
  ∃ U V Dq hq wj,
    mfs_U (w_self w') = Some U ∧ mfs_V (w_self w') = Some V ∧
    mfs_Dq (w_self w') = Some Dq ∧ mfs_hq (w_self w') = Some hq ∧
    length U = length js ∧ length V = length js ∧
    length Dq = length q ∧ length hq = length q ∧
    (∀ p j iq q_i, js !! p = Some j → q !! iq = Some q_i →
       ∃ n c_j,
         dict_get (mrq_nj mrq) j = Ok n ∧ dict_get (mrq_values mrq) j = Ok c_j ∧
         entry U p iq = Some (spec_U n c_j q_i) ∧
         entry V p iq = Some (spec_V c_j q_i)) ∧
    (mfs_wtype s = false → wj = np_ones (length x)) ∧
    (mfs_wtype s = true → length wj = length x ∧
       ∀ k j, x !! k = Some j →
         ∃ n, dict_get (mrq_nj mrq) j = Ok n ∧ wj !! k = Some (of_int n)) ∧
    ∀ iq q_i, q !! iq = Some q_i →
      ∃ y z slope_1 i1 slope_2 i2,
        linear_regression x y wj = Ok (slope_1, i1) ∧
        linear_regression x z wj = Ok (slope_2, i2) ∧
        Dq !! iq = Some (f_add (of_int 1) slope_1) ∧ hq !! iq = Some slope_2 ∧
        length y = b - a ∧ length z = b - a ∧
        (∀ k, k < b - a →
           ∃ j n c_j,
             js !! (a + k) = Some j ∧
             dict_get (mrq_nj mrq) j = Ok n ∧ dict_get (mrq_values mrq) j = Ok c_j ∧
             y !! k = Some (spec_U n c_j q_i) ∧ z !! k = Some (spec_V c_j q_i)) ∧
        ((1 ≤ j1 ≤ j2)%Z → window_aligned js j1 j2 →
           scale_window_U mrq q_i j1 j2 = Ok y ∧
           scale_window_V mrq q_i j1 j2 = Ok z).
Proof.
  rewrite MFS_post_init_run, MFS_compute_run.
  intros Hrun q j1 j2 x js a b. simpl in Hrun. fold q j1 j2 x js in Hrun.
  destruct (mfs_local_UV mrq q js) as [[U V]|] eqn:HUV; [|done].
  destruct (if mfs_wtype s then _ else _) as [wj|] eqn:Hwj; [|done].
  destruct (mfs_regressions U V x wj j1 j2 (length q)) as [[Dq hq]|] eqn:Hreg; [|done].
  injection Hrun as <-. simpl.
  apply mfs_local_UV_spec in HUV as (HlU & HlV & Hrows).
  apply mfs_regressions_spec in Hreg as (HlD & Hlh & Hreg).
  assert (∀ p j iq q_i, js !! p = Some j → q !! iq = Some q_i →
            ∃ n c_j,
              dict_get (mrq_nj mrq) j = Ok n ∧ dict_get (mrq_values mrq) j = Ok c_j ∧
              entry U p iq = Some (spec_U n c_j q_i) ∧
              entry V p iq = Some (spec_V c_j q_i)) as Hent.
  { intros p j iq q_i Hp Hq. destruct (Hrows p j Hp) as (n & c_j & Hn & Hc & HU & HV).
    exists n, c_j. split_and!; [done..| |].
    - unfold entry. rewrite HU. simpl. unfold mfs_U_row.
      rewrite !list_lookup_fmap. fold q. rewrite Hq. done.
    - unfold entry. rewrite HV. simpl. unfold mfs_V_row.
      rewrite !list_lookup_fmap. fold q. rewrite Hq. done. }
  exists U, V, Dq, hq, wj. split_and!; try done.
  - intros Hwt. rewrite Hwt in Hwj. by injection Hwj as <-.
  - intros Hwt. rewrite Hwt in Hwj. simpl in Hwj. unfold get_nj_interv in Hwj.
    apply traverse_Ok in Hwj as [Hlen' Hnj]. split; [done|].
    intros k j Hk. destruct (Hnj k j Hk) as (v & Hv & Hlk).
    destruct (dict_get (mrq_nj mrq) j) as [n|]; simpl in Hv; [|done].
    injection Hv as <-. by exists n.
  - intros iq q_i Hq. pose proof (lookup_lt_Some _ _ _ Hq) as Hiq.
    destruct (Hreg iq Hiq) as (y & z & s1 & i1 & s2 & i2 & Hy & Hz & H1 & H2 & HD & Hh).
    destruct (column_slice_items U (length js) j1 j2 iq y HlU Hy) as [Hly Hyk].
    destruct (column_slice_items V (length js) j1 j2 iq z HlV Hz) as [Hlz Hzk].
    fold a b in Hly, Hyk, Hlz, Hzk.
    assert (∀ k, k < b - a →
              ∃ j n c_j,
                js !! (a + k) = Some j ∧
                dict_get (mrq_nj mrq) j = Ok n ∧ dict_get (mrq_values mrq) j = Ok c_j ∧
                y !! k = Some (spec_U n c_j q_i) ∧ z !! k = Some (spec_V c_j q_i))
      as Hpos.
    { intros k Hk. destruct (Hyk k Hk) as (Hlt & HUk & _).
      destruct (Hzk k Hk) as (_ & HVk & _).
      destruct (lookup_lt_is_Some_2 js (a + k) Hlt) as [j Hj].
      destruct (Hent (a + k) j iq q_i Hj Hq) as (n & c_j & Hn & Hc & HU & HV).
      exists j, n, c_j. split_and!; [done..| |]; congruence. }
    exists y, z, s1, i1, s2, i2. split_and!; [done..|].
    intros Hj Hal.
    destruct (window_aligned_bounds js j1 j2 Hj Hal) as [Ha Hba].
    fold a b in Ha, Hba.
    split; apply traverse_Ok_intro; try (by etrans).
    + intros k j Hk. pose proof (lookup_lt_Some _ _ _ Hk) as Hklt.
      rewrite <- Hba in Hklt.
      destruct (Hpos k Hklt) as (j' & n & c_j & Hj' & Hn & Hc & HU & _).
      pose proof (Hal k j Hk) as Hjk. fold js in Hjk. rewrite <- Ha, Hj' in Hjk.
      injection Hjk as ->. rewrite Hn, Hc. simpl. by eexists.
    + intros k j Hk. pose proof (lookup_lt_Some _ _ _ Hk) as Hklt.
      rewrite <- Hba in Hklt.
      destruct (Hpos k Hklt) as (j' & n & c_j & Hj' & Hn & Hc & _ & HV).
      pose proof (Hal k j Hk) as Hjk. fold js in Hjk. rewrite <- Ha, Hj' in Hjk.
      injection Hjk as ->. rewrite Hc. simpl. by eexists.
Qed.

(** C4. Construction of a MultifractalSpectrum raises [TypeError] on every
    input: the generated [__init__] calls [__post_init__] with the one
    init-only variable, [mrq], and [__post_init__] declares four required
    parameters. *)
Theorem spectrum_construction_raises_TypeError :
  post_init_args MFS_fields = ["mrq"] ∧
  MFS_post_init_params = ["mrq"; "j1"; "j2"; "wtype"] ∧
  ∀ (mrq : MultiResolutionQuantity) (j1 j2 : Z) (wtype : bool) (q : list F),
    MultifractalSpectrum_new mrq j1 j2 wtype q = Raise TypeError.
Proof. split_and!; reflexivity. Qed.

End SpectrumTheorems.

(** ** The power primitive *)

(** C5. [fast_power(x, q)] as the specification describes it: when q == 0
    every element of the result is exactly 1, also where the element of x
    is 0; when q != 0 an element that is 0 gives exactly 0, and any other
    element gives the real power of numpy. *)
Theorem fast_power_boundary {F : Type} `{!NumPy F} (x : list F) (q : F) :
  fast_power_array (Utils0 := spec_utils) x q =
    if f_eqb q (of_int 0) then replicate (length x) (of_int 1)
    else (λ x_i, if f_eqb x_i (of_int 0) then of_int 0 else f_power x_i q) <$> x.
Proof.
  unfold fast_power_array. simpl. unfold spec_fast_power.
  destruct (f_eqb q (of_int 0)); [|done].
  induction x as [|x_i x IH]; simpl; [done|]. by rewrite <- IH.
Qed.

(** ** Where exceptions come from *)

Lemma foldM_Raise {A B} (f : B → A → outcome B) (b : B) (l : list A) (e : exn) :
  foldM f b l = Raise e → ∃ b' x, x ∈ l ∧ f b' x = Raise e.
Proof.
  revert b. induction l as [|x l IH]; intros b; simpl; [done|].
  destruct (f b x) as [b1|e1] eqn:Hf; simpl.
  - intros H. destruct (IH b1 H) as (b' & y & Hy & Hfy).
    exists b', y. split; [by right | done].
  - intros [= ->]. exists b, x. split; [by left | done].
Qed.

Lemma traverse_Raise {A B} (f : A → outcome B) (l : list A) (e : exn) :
  traverse f l = Raise e → ∃ x, x ∈ l ∧ f x = Raise e.
Proof.
  induction l as [|x l IH]; simpl; [done|].
  destruct (f x) as [y|e1] eqn:Hf; simpl.
  - destruct (traverse f l) as [ys|e2]; simpl; [done|].
    intros [= ->]. destruct (IH eq_refl) as (z & Hz & Hfz).
    exists z. split; [by right | done].
  - intros [= ->]. exists x. split; [by left | done].
Qed.

Lemma dict_get_Raise {K V} `{EqDecision K} (d : list (K * V)) (k : K) (e : exn) :
  dict_get d k = Raise e → e = KeyError.
Proof.
  induction d as [|[k' v] d IH]; simpl; [by intros [= <-]|].
  destruct (decide (k = k')); [done | apply IH].
Qed.

Section Exceptions.
Context {F : Type} `{!NumPy F, !Utils F}.

Lemma get_nj_interv_Raise (nj : list (Z * Z)) (j1 j2 : Z) (e : exn) :
  get_nj_interv nj j1 j2 = Raise e → e = KeyError.
Proof.
  intros H. apply traverse_Raise in H as (j & _ & Hj).
  destruct (dict_get nj j) as [n|e'] eqn:Hn; simpl in Hj; [done|].
  injection Hj as <-. by eapply dict_get_Raise.
Qed.

Lemma regression_weights_Raise (nj : list (Z * Z)) (j1 j2 : Z) (wt : bool) (e : exn) :
  regression_weights nj j1 j2 wt = Raise e → e = KeyError.
Proof. destruct wt; simpl; [apply get_nj_interv_Raise | done]. Qed.

Lemma sf_regressions_Raise lv x nj a b (arrays : list F * list F) inds (e : exn) :
  sf_regressions lv x nj a b arrays inds = Raise e →
  (∃ i, i ∈ inds ∧ lv !! i = None ∧ e = IndexError) ∨
  (∃ row, row ∈ lv ∧ linear_regression x (py_slice row a (b + 1)) nj = Raise e).
Proof.
  intros H. apply foldM_Raise in H as ([z c] & i & Hi & H).
  unfold item in H. destruct (lv !! i) as [row|] eqn:Hrow; simpl in H.
  - right. destruct (linear_regression x (py_slice row a (b + 1)) nj)
      as [[s t]|e'] eqn:Hlr; simpl in H; [done|].
    injection H as <-. exists row. split; [by eapply list_elem_of_lookup_2 | done].
  - left. injection H as <-. by exists i.
Qed.

Lemma column_slice_Raise (m : list (list F)) (a b : Z) (i : nat) (e : exn) :
  column_slice m a b i = Raise e → e = IndexError.
Proof.
  intros H. apply traverse_Raise in H as (row & _ & H).
  unfold item in H. destruct (row !! i); [done|]. by injection H as <-.
Qed.

Lemma mfs_local_UV_Raise (mrq : MultiResolutionQuantity) (qs : list F) (js : list Z)
    (e : exn) :
  mfs_local_UV mrq qs js = Raise e → e = KeyError ∨ e = ValueError.
Proof.
  intros H. apply foldM_Raise in H as ([U V] & [p j] & _ & H).
  destruct (dict_get (mrq_nj mrq) j) as [n|e1] eqn:Hn; simpl in H;
    [|injection H as <-; left; by eapply dict_get_Raise].
  destruct (dict_get (mrq_values mrq) j) as [c|e1] eqn:Hc; simpl in H;
    [|injection H as <-; left; by eapply dict_get_Raise].
  unfold mfs_R, np_stack in H. destruct qs; simpl in H; [|done].
  injection H as <-. by right.
Qed.

Lemma mfs_regressions_Raise U V x wj j1 j2 (n : nat) (e : exn) :
  mfs_regressions U V x wj j1 j2 n = Raise e → e = IndexError ∨ helper_raises e.
Proof.
  intros H. apply foldM_Raise in H as ([D h] & i & _ & H).
  destruct (column_slice U (j1 - 1) j2 i) as [y|e1] eqn:Hy; simpl in H;
    [|injection H as <-; left; by eapply column_slice_Raise].
  destruct (column_slice V (j1 - 1) j2 i) as [z|e1] eqn:Hz; simpl in H;
    [|injection H as <-; left; by eapply column_slice_Raise].
  destruct (linear_regression x y wj) as [[s1 i1]|e1] eqn:H1; simpl in H;
    [|injection H as <-; right; by eexists _, _, _].
  destruct (linear_regression x z wj) as [[s2 i2]|e1] eqn:H2; simpl in H; [done|].
  injection H as <-. right. by eexists _, _, _.
Qed.




(** C6, as the code has it. No check is made on the window. Whatever j1 and
    j2 are, also equal or outside the scales of the quantity, construction of
    a StructureFunction returns a populated object as soon as the weights can
    be read and the regression helper returns on the window
    [logvalues[i, j1-1 : j2]] of every row; and when construction raises, the
    exception is the [KeyError] of a scale without a count, or the exception
    that the helper raised on the window of some row. *)
Theorem construction_has_no_window_check
    (mrq : MultiResolutionQuantity) (q : list F) (j1 j2 : Z) (wtype : bool)
    (values : list (list F)) :
  sf_local_values mrq q (dict_keys (mrq_values mrq)) = Ok values →
  let x := arange j1 (j2 + 1) in
  let logvalues := map (map f_log2) values in
  (∀ nj,
     regression_weights (mrq_nj mrq) j1 j2 wtype = Ok nj →
     (∀ row, row ∈ logvalues →
        is_Ok (linear_regression x (py_slice row (j1 - 1) j2) nj)) →
     ∃ zeta intercepts,
       StructureFunction_new mrq q j1 j2 wtype =
         Ok (SF (Some (mrq_name mrq)) q j1 j2 wtype
                (Some (dict_keys (mrq_values mrq))) None (Some logvalues)
                (Some zeta) (Some intercepts))) ∧
  (∀ e,
     StructureFunction_new mrq q j1 j2 wtype = Raise e →
     (e = KeyError ∧ regression_weights (mrq_nj mrq) j1 j2 wtype = Raise e) ∨
     (∃ nj row,
        regression_weights (mrq_nj mrq) j1 j2 wtype = Ok nj ∧ row ∈ logvalues ∧
        linear_regression x (py_slice row (j1 - 1) j2) nj = Raise e)).
Proof.
  intros Hv x logvalues.
  pose proof (sf_local_values_spec _ _ _ _ Hv) as [[Hlen _] _].
  assert (∀ i, i ∈ seq 0 (length q) → is_Some (logvalues !! i)) as Hrows.
  { intros i Hi. apply elem_of_seq in Hi. apply lookup_lt_is_Some.
    unfold logvalues. rewrite length_map. lia. }
  unfold StructureFunction_new.
  rewrite StructureFunction_init_run, SF_post_init_run.
  unfold mbind, outcome_bind, fmap, outcome_fmap. simpl. rewrite Hv.
  fold x logvalues. split.
  - intros nj Hnj Hlr. rewrite Hnj.
    destruct (sf_regressions_total logvalues x nj (j1 - 1) (j2 - 1)
                (np_zeros (length q), np_zeros (length q)) (seq 0 (length q)))
      as [[zeta ic] Hz].
    { intros i Hi. destruct (Hrows i Hi) as [row Hrow]. exists row. split; [done|].
      replace (j2 - 1 + 1)%Z with j2 by lia. apply Hlr.
      by eapply list_elem_of_lookup_2. }
    rewrite Hz. by exists zeta, ic.
  - intros e.
    destruct (regression_weights (mrq_nj mrq) j1 j2 wtype) as [nj|e1] eqn:Hnj.
    + destruct (sf_regressions logvalues x nj _ _ _ _) as [[zeta ic]|e2] eqn:Hz; [done|].
      intros [= <-]. right.
      apply sf_regressions_Raise in Hz as [(i & Hi & Hnone & _)|(row & Hrow & Hlr)].
      * destruct (Hrows i Hi) as [row Hrow]. by rewrite Hnone in Hrow.
      * exists nj, row. replace (j2 - 1 + 1)%Z with j2 in Hlr by lia. done.
    + intros [= <-]. left. split; [|done]. by eapply regression_weights_Raise.
Qed.

End Exceptions.

(** ** Non-interference: only the window is read *)

Section Window.
Context {F : Type} `{!NumPy F, !Utils F}.

Lemma in_slice_lt (n : nat) (a b : Z) (p : nat) : in_slice n a b p → p < n.
Proof.
  unfold in_slice. pose proof (slice_bound_range (Z.of_nat n) b ltac:(lia)). lia.
Qed.

Lemma get_nj_interv_ext (nj1 nj2 : list (Z * Z)) (j1 j2 : Z) :
  (∀ j, (j1 ≤ j ≤ j2)%Z → dict_get nj1 j = dict_get nj2 j) →
  get_nj_interv nj1 j1 j2 = get_nj_interv nj2 j1 j2.
Proof.
  intros Hagree. unfold get_nj_interv. apply traverse_ext.
  intros j Hj. unfold arange in Hj. apply elem_of_seqZ in Hj.
  rewrite Hagree by lia. done.
Qed.

(** Rows of [logvalues] computed from two quantities agree on the window. *)
Lemma logvalues_window_agree (m1 m2 : MultiResolutionQuantity) (q : list F)
    (js : list Z) (v1 v2 : list (list F)) (a b : Z) (i : nat) :
  sf_local_values m1 q js = Ok v1 →
  sf_local_values m2 q js = Ok v2 →
  (∀ p j, js !! p = Some j → in_slice (length js) a b p →
          dict_get (mrq_values m1) j = dict_get (mrq_values m2) j) →
  i < length q →
  (λ row, py_slice row a b) <$> item (map (map f_log2) v1) i =
  (λ row, py_slice row a b) <$> item (map (map f_log2) v2) i.
Proof.
  intros H1 H2 Hagree Hi.
  destruct (sf_local_values_spec _ _ _ _ H1) as [Hsh1 Hent1].
  destruct (sf_local_values_spec _ _ _ _ H2) as [Hsh2 Hent2].
  pose proof Hsh1 as [Hl1 _]. pose proof Hsh2 as [Hl2 _].
  destruct (lookup_lt_is_Some_2 v1 i ltac:(lia)) as [r1 Hr1].
  destruct (lookup_lt_is_Some_2 v2 i ltac:(lia)) as [r2 Hr2].
  destruct (lookup_lt_is_Some_2 q i Hi) as [q_i Hq].
  pose proof (shape_row _ _ _ _ _ Hsh1 Hr1) as Hlr1.
  pose proof (shape_row _ _ _ _ _ Hsh2 Hr2) as Hlr2.
  unfold item. rewrite !list_lookup_fmap, Hr1, Hr2. simpl. f_equal.
  apply py_slice_ext; [by rewrite !length_map, Hlr1, Hlr2|].
  intros p Hp. rewrite length_map, Hlr1 in Hp.
  destruct (lookup_lt_is_Some_2 js p (in_slice_lt _ _ _ _ Hp)) as [j Hj].
  destruct (Hent1 i q_i p j Hq Hj) as (c1 & Hc1 & He1).
  destruct (Hent2 i q_i p j Hq Hj) as (c2 & Hc2 & He2).
  rewrite (Hagree p j Hj Hp), Hc2 in Hc1. injection Hc1 as <-.
  unfold entry in He1, He2. rewrite Hr1 in He1. rewrite Hr2 in He2. simpl in *.
  by rewrite !list_lookup_fmap, He1, He2.
Qed.

(** Rows of [U] and [V] computed from two quantities agree on the window. *)
Lemma UV_window_agree (m1 m2 : MultiResolutionQuantity) (q : list F)
    (js : list Z) (U1 V1 U2 V2 : list (list F)) (a b : Z) :
  mfs_local_UV m1 q js = Ok (U1, V1) →
  mfs_local_UV m2 q js = Ok (U2, V2) →
  (∀ p j, js !! p = Some j → in_slice (length js) a b p →
          dict_get (mrq_values m1) j = dict_get (mrq_values m2) j ∧
          dict_get (mrq_nj m1) j = dict_get (mrq_nj m2) j) →
  py_slice U1 a b = py_slice U2 a b ∧ py_slice V1 a b = py_slice V2 a b.
Proof.
  intros H1 H2 Hagree.
  apply mfs_local_UV_spec in H1 as (HlU1 & HlV1 & Hrows1).
  apply mfs_local_UV_spec in H2 as (HlU2 & HlV2 & Hrows2).
  assert (∀ p, in_slice (length js) a b p → U1 !! p = U2 !! p ∧ V1 !! p = V2 !! p)
    as Hrows.
  { intros p Hp.
    destruct (lookup_lt_is_Some_2 js p (in_slice_lt _ _ _ _ Hp)) as [j Hj].
    destruct (Hrows1 p j Hj) as (n1 & c1 & Hn1 & Hc1 & -> & ->).
    destruct (Hrows2 p j Hj) as (n2 & c2 & Hn2 & Hc2 & -> & ->).
    destruct (Hagree p j Hj Hp) as [Hc Hn].
    rewrite Hc, Hc2 in Hc1. rewrite Hn, Hn2 in Hn1.
    injection Hc1 as <-. injection Hn1 as <-. done. }
  split; apply py_slice_ext; try lia.
  - intros p Hp. rewrite HlU1 in Hp. by apply Hrows.
  - intros p Hp. rewrite HlV1 in Hp. by apply Hrows.
Qed.

(** C9, as the code has it. Two quantities with the same scale list that
    agree on the coefficient arrays and the counts at the list positions
    that the slice [[j1-1 : j2]] reads, and on the counts of the scales
    j1..j2 (the weights are looked up by scale, not by position) when the
    regression is weighted, give the same [zeta] and [intercept]; and the
    same [Dq] and [hq] whenever the body of [__post_init__] of the spectrum
    returns on both. Coefficients at the other positions are not read by
    the regressions. *)
Theorem regressions_read_window_only (m1 m2 : MultiResolutionQuantity)
    (q : list F) (j1 j2 : Z) (wtype : bool) :
  let js := dict_keys (mrq_values m1) in
  dict_keys (mrq_values m2) = js →
  (∀ p j, js !! p = Some j → in_slice (length js) (j1 - 1) j2 p →
     dict_get (mrq_values m1) j = dict_get (mrq_values m2) j ∧
     dict_get (mrq_nj m1) j = dict_get (mrq_nj m2) j) →
  (wtype = true →
     ∀ j, (j1 ≤ j ≤ j2)%Z → dict_get (mrq_nj m1) j = dict_get (mrq_nj m2) j) →
  sf_zeta <$> StructureFunction_new m1 q j1 j2 wtype =
    sf_zeta <$> StructureFunction_new m2 q j1 j2 wtype ∧
  sf_intercept <$> StructureFunction_new m1 q j1 j2 wtype =
    sf_intercept <$> StructureFunction_new m2 q j1 j2 wtype ∧
  ∀ w1 w2,
    MFS_post_init (World m1 (MFS None None None j1 j2 wtype q None None None None))
      = Ok (tt, w1) →
    MFS_post_init (World m2 (MFS None None None j1 j2 wtype q None None None None))
      = Ok (tt, w2) →
    mfs_Dq (w_self w1) = mfs_Dq (w_self w2) ∧ mfs_hq (w_self w1) = mfs_hq (w_self w2).
Proof.
  intros js Hkeys Hagree Hcounts.
  assert (regression_weights (mrq_nj m1) j1 j2 wtype =
          regression_weights (mrq_nj m2) j1 j2 wtype) as Hw.
  { destruct wtype; simpl; [|done]. apply get_nj_interv_ext. by apply Hcounts. }
  assert (sf_zeta <$> StructureFunction_new m1 q j1 j2 wtype =
            sf_zeta <$> StructureFunction_new m2 q j1 j2 wtype ∧
          sf_intercept <$> StructureFunction_new m1 q j1 j2 wtype =
            sf_intercept <$> StructureFunction_new m2 q j1 j2 wtype) as [Hz Hi].
  { unfold StructureFunction_new.
    rewrite !StructureFunction_init_run, !SF_post_init_run.
    unfold mbind, outcome_bind, fmap, outcome_fmap. simpl.
    destruct (sf_local_values_total m1 q) as [v1 Hv1].
    destruct (sf_local_values_total m2 q) as [v2 Hv2].
    rewrite Hv1, Hv2, <- Hw. rewrite Hkeys in Hv2. fold js in Hv1.
    destruct (regression_weights (mrq_nj m1) j1 j2 wtype) as [nj|]; [|done].
    rewrite (sf_regressions_ext (map (map f_log2) v1) (map (map f_log2) v2)).
    - destruct (sf_regressions (map (map f_log2) v2) _ _ _ _ _ _) as [[z c]|]; done.
    - intros i Hi. apply elem_of_seq in Hi.
      replace (j2 - 1 + 1)%Z with j2 by lia.
      apply (logvalues_window_agree m1 m2 q js); [done..| |lia].
      intros p j Hj Hp. exact (proj1 (Hagree p j Hj Hp)). }
  split_and!; [done..|].
  intros w1 w2. rewrite !MFS_post_init_run, !MFS_compute_run. simpl.
  rewrite Hkeys. fold js.
  destruct (mfs_local_UV m1 q js) as [[U1 V1]|] eqn:H1; [|done].
  destruct (mfs_local_UV m2 q js) as [[U2 V2]|] eqn:H2; [|done].
  destruct (UV_window_agree m1 m2 q js U1 V1 U2 V2 (j1 - 1) j2 H1 H2 Hagree)
    as [HU HV].
  assert ((if wtype then get_nj_interv (mrq_nj m1) j1 j2
           else Ok (np_ones (length (arange j1 (j2 + 1))))) =
          (if wtype then get_nj_interv (mrq_nj m2) j1 j2
           else Ok (np_ones (length (arange j1 (j2 + 1)))))) as Hw'.
  { destruct wtype; [apply Hw | done]. }
  rewrite <- Hw'.
  destruct (if wtype then _ else _) as [wj|]; [|done].
  assert (mfs_regressions U1 V1 (arange j1 (j2 + 1)) wj j1 j2 (length q) =
          mfs_regressions U2 V2 (arange j1 (j2 + 1)) wj j1 j2 (length q)) as ->.
  { unfold mfs_regressions. apply foldM_ext. intros [D h] i _.
    unfold column_slice. by rewrite HU, HV. }
  destruct (mfs_regressions U2 V2 _ wj j1 j2 (length q)) as [[Dq hq]|]; [|done].
  by intros [= <-] [= <-].
Qed.

End Window.

(** * Concrete runs *)

Example run_structure_function_A :
  StructureFunction_new mrq_A q_A 1 4 false = Ok sf_A.
Proof. vm_compute. reflexivity. Qed.

Example run_spectrum_A :
  MFS_compute (World mrq_A spectrum_A_before) = Ok (tt, World mrq_A spectrum_A_after).
Proof. vm_compute. reflexivity. Qed.

Example fast_power_zero_exponent :
  fast_power_array (Utils0 := spec_utils) [Some 0%Q; Some 2%Q; Some (1 # 2)%Q] (Some 0%Q)
  = [Some 1%Q; Some 1%Q; Some 1%Q].
Proof. vm_compute. reflexivity. Qed.

Example fast_power_negative_exponent :
  fast_power_array (Utils0 := spec_utils) [Some 0%Q; Some 2%Q; Some (1 # 2)%Q] (Some (-1)%Q)
  = [Some 0%Q; Some (1 # 2)%Q; Some 2%Q].
Proof. vm_compute. reflexivity. Qed.

(** The helper of the specification raises only these two exceptions. *)
Lemma spec_linear_regression_raises {F : Type} `{!NumPy F} x (y w : list F) e :
  spec_linear_regression x y w = Raise e →
  e = ValueError ∨ e = DegenerateRegressionError.
Proof.
  unfold spec_linear_regression.
  destruct (negb _); [intros [= <-]; by left|].
  destruct (all_equal x); [intros [= <-]; by right | done].
Qed.

(** C1, at a concrete input: the object built from [mrq_A] has no [values],
    and its [logvalues] is the log2 of the local matrix. *)
Lemma structure_function_values_never_stored_witness :
  StructureFunction_new mrq_A q_A 1 4 false = Ok sf_A ∧
  sf_values sf_A = None ∧
  sf_logvalues sf_A = Some [ [Some 0%Q; Some 2%Q; Some 4%Q; Some 8%Q];
                             [Some 0%Q; Some 1%Q; Some 2%Q; Some 4%Q] ].
Proof.
  assert (StructureFunction_new mrq_A q_A 1 4 false = Ok sf_A) as H
    by (vm_compute; reflexivity).
  split; [exact H|].
  split; [exact (proj1 (structure_function_values_never_stored _ _ _ _ _ _ H))|].
  reflexivity.
Defined.

(** C2 on a scale list that does not start at 1: [mrq_B1] has the scales
    2, 3, 4, 5 and the window is 2..4. The code regresses x = (2, 3, 4) on
    the row positions 1..3, the moments of the scales 3, 4, 5: the last
    ordinate is log2 S(5, 1) = 1 and [zeta] is 1/2. The window of the claim,
    the scales 2, 3, 4, holds 0, 0, 0 and its slope is 0. *)
Lemma zeta_window_is_taken_by_position_witness :
  StructureFunction_new mrq_B1 [Some 1%Q] 2 4 false = Ok sf_B1 ∧
  (∃ y, linear_regression (arange 2 (4 + 1)) y (np_ones 3)
          = Ok (Some (1 # 2)%Q, Some (-7 # 6)%Q) ∧
        length y = 3 ∧ y !! 2 = Some (log_moment [Some 2%Q] (Some 1%Q)) ∧
        log_moment [Some 2%Q] (Some 1%Q) = Some 1%Q) ∧
  sf_zeta sf_B1 = Some [Some (1 # 2)%Q] ∧
  scale_window mrq_B1 (Some 1%Q) 2 4 = Ok [Some 0%Q; Some 0%Q; Some 0%Q] ∧
  linear_regression (arange 2 (4 + 1)) [Some 0%Q; Some 0%Q; Some 0%Q] (np_ones 3)
    = Ok (Some 0%Q, Some 0%Q).
Proof.
  assert (StructureFunction_new mrq_B1 [Some 1%Q] 2 4 false = Ok sf_B1) as H
    by (vm_compute; reflexivity).
  split; [exact H|].
  split; [|split_and!; vm_compute; reflexivity].
  destruct (zeta_window_is_taken_by_position _ _ _ _ _ _ H)
    as (zeta & ic & nj & Hz & Hic & _ & _ & Hnj & _ & Hrows).
  destruct (Hrows 0 (Some 1%Q) eq_refl)
    as (y & slope & icpt & Hlr & Hs & Hi & Hlen & Hpos & _).
  destruct (Hpos 2 ltac:(vm_compute; lia)) as (j & c_j & Hj & Hc & Hy).
  vm_compute in Hj. injection Hj as <-.
  vm_compute in Hc. injection Hc as <-.
  simpl in Hz, Hic. injection Hz as <-. injection Hic as <-.
  injection Hs as <-. injection Hi as <-.
  rewrite (Hnj eq_refl) in Hlr.
  exists y. split_and!; [exact Hlr|exact Hlen|exact Hy|vm_compute; reflexivity].
Defined.

(** C8, at a concrete input: the first exponent of [q_A] is 2. *)
Lemma get_H_is_half_zeta_at_two_witness :
  StructureFunction_new mrq_A q_A 1 4 false = Ok sf_A ∧
  get_H sf_A = Ok (Some (Some (13 # 10)%Q)) ∧
  get_H sf_A ≠ Ok None.
Proof.
  assert (StructureFunction_new mrq_A q_A 1 4 false = Ok sf_A) as H
    by (vm_compute; reflexivity).
  destruct (get_H_is_half_zeta_at_two _ _ _ _ _ _ H) as [Hnone Hsome].
  split; [exact H|]. split; [vm_compute; reflexivity|].
  intros Hn. pose proof (proj1 Hnone Hn (Some 2%Q) ltac:(left)) as Hf.
  vm_compute in Hf. discriminate Hf.
Defined.

(** C10, at a concrete store: a run that returns (the new object is at
    location 9 and holds the attributes of [sf_A]) and a run that raises
    (the window 3..6 leaves the four scales: the helper raises
    [ValueError]); after both, the nine objects of the caller are as they
    were. *)
Lemma construction_changes_no_object_of_the_caller_witness :
  represents store_A 1 mrq_A ∧ store_A !! 8 = Some (Store.Array q_A) ∧
  (∃ h', Store.StructureFunction_new 1 8 1 4 false store_A = (Ok 9, h') ∧
         (∀ l o, store_A !! l = Some o → h' !! l = Some o) ∧
         holds h' 9 8 sf_A) ∧
  (∃ h', Store.StructureFunction_new 1 8 3 6 false store_A = (Raise ValueError, h') ∧
         (∀ l o, store_A !! l = Some o → h' !! l = Some o) ∧
         StructureFunction_new mrq_A q_A 3 6 false = Raise ValueError).
Proof.
  assert (represents store_A 1 mrq_A) as Hrep.
  { exists 2, 3, [(1%Z, 4); (2%Z, 5); (3%Z, 6); (4%Z, 7)].
    split_and!; [reflexivity..|]. repeat constructor. }
  split; [exact Hrep|]. split; [reflexivity|]. split.
  - destruct (construction_changes_no_object_of_the_caller store_A 1 8 mrq_A q_A
                1 4 false Hrep eq_refl) as (res & h' & Hrun & Hframe & _ & Hres).
    vm_compute in Hrun. injection Hrun as <- <-.
    destruct Hres as (_ & sf & Hsf & Hholds).
    assert (StructureFunction_new mrq_A q_A 1 4 false = Ok sf_A) as HA
      by (vm_compute; reflexivity).
    rewrite HA in Hsf. injection Hsf as <-.
    eexists. split; [vm_compute; reflexivity|]. split; [exact Hframe|exact Hholds].
  - destruct (construction_changes_no_object_of_the_caller store_A 1 8 mrq_A q_A
                3 6 false Hrep eq_refl) as (res & h' & Hrun & Hframe & _ & Hres).
    vm_compute in Hrun. injection Hrun as <- <-.
    eexists. split; [vm_compute; reflexivity|]. split; [exact Hframe|exact Hres].
Defined.

(** C3 on a scale list that does not start at 1: [mrq_S] has the scales
    2, 3, 4, 5 and the window is 2..4. For the exponent 1 the body of
    [__post_init__] regresses x = (2, 3, 4) on the rows 1..3 of [U] and [V],
    those of the scales 3, 4, 5: the last ordinates are U = 1/4 and V = 5/4
    of scale 5, so that Dq = 1 + 1/8 and hq = 5/8. The windows of the claim,
    the scales 2, 3, 4, hold 0, 0, 0: slope 0, Dq = 1 and hq = 0. *)
Lemma spectrum_windows_are_taken_by_position_witness :
  MFS_post_init (World mrq_S spectrum_S) = Ok (tt, World mrq_S spectrum_S_after) ∧
  mfs_Dq spectrum_S_after = Some [Some 1%Q; Some (9 # 8)%Q] ∧
  mfs_hq spectrum_S_after = Some [Some (3 # 8)%Q; Some (5 # 8)%Q] ∧
  (∃ y z slope_1 i1 slope_2 i2,
     linear_regression (arange 2 (4 + 1)) y (np_ones 3) = Ok (slope_1, i1) ∧
     linear_regression (arange 2 (4 + 1)) z (np_ones 3) = Ok (slope_2, i2) ∧
     (mfs_Dq spectrum_S_after ≫= (.!! 1)) = Some (f_add (of_int 1) slope_1) ∧
     (mfs_hq spectrum_S_after ≫= (.!! 1)) = Some slope_2 ∧
     length y = 3 ∧ length z = 3 ∧
     y !! 2 = Some (spec_U 4 [Some 4%Q; Some (-2)%Q; Some 1%Q; Some 1%Q] (Some 1%Q)) ∧
     z !! 2 = Some (spec_V [Some 4%Q; Some (-2)%Q; Some 1%Q; Some 1%Q] (Some 1%Q))) ∧
  spec_U 4 [Some 4%Q; Some (-2)%Q; Some 1%Q; Some 1%Q] (Some 1%Q) = Some (1 # 4)%Q ∧
  spec_V [Some 4%Q; Some (-2)%Q; Some 1%Q; Some 1%Q] (Some 1%Q) = Some (5 # 4)%Q ∧
  scale_window_U mrq_S (Some 1%Q) 2 4 = Ok [Some 0%Q; Some 0%Q; Some 0%Q] ∧
  scale_window_V mrq_S (Some 1%Q) 2 4 = Ok [Some 0%Q; Some 0%Q; Some 0%Q] ∧
  linear_regression (arange 2 (4 + 1)) [Some 0%Q; Some 0%Q; Some 0%Q] (np_ones 3)
    = Ok (Some 0%Q, Some 0%Q).
Proof.
  assert (MFS_post_init (World mrq_S spectrum_S)
          = Ok (tt, World mrq_S spectrum_S_after)) as H by (vm_compute; reflexivity).
  split; [exact H|].
  split; [reflexivity|]. split; [reflexivity|].
  split; [|split_and!; vm_compute; reflexivity].
  destruct (spectrum_windows_are_taken_by_position _ _ _ H)
    as (U & V & Dq & hq & wj & _ & _ & HD & Hh & _ & _ & _ & _ & _ & Hwj & _ & Hrows).
  destruct (Hrows 1 (Some 1%Q) eq_refl)
    as (y & z & s1 & i1 & s2 & i2 & H1 & H2 & HDi & Hhi & Hly & Hlz & Hpos & _).
  destruct (Hpos 2 ltac:(vm_compute; lia)) as (j & n & c_j & Hj & Hn & Hc & Hy & Hz).
  vm_compute in Hj. injection Hj as <-.
  vm_compute in Hn. injection Hn as <-.
  vm_compute in Hc. injection Hc as <-.
  rewrite (Hwj eq_refl) in H1, H2.
  simpl in HD, Hh. injection HD as <-. injection Hh as <-.
  exists y, z, s1, i1, s2, i2.
  split_and!; [exact H1|exact H2|exact HDi|exact Hhi|exact Hly|exact Hlz|exact Hy|exact Hz].
Defined.

(** C6 fails on the code: a window of one point, or a window that leaves
    the scales of the quantity, never raises InvalidWindowError. On [mrq_A]
    (scales 1..4): with j1 = j2 = 2 the helper of the specification fails
    (DegenerateRegressionError) and with the unguarded helper construction
    returns an object whose [zeta] is not finite; with the window 3..6 the
    outcome is the [ValueError] of the helper (unweighted) or the [KeyError]
    of the missing count (weighted); with no exponent, construction returns
    for any window. *)
Lemma one_point_window_is_not_rejected :
  StructureFunction_new mrq_A [Some 2%Q] 2 2 false = Raise DegenerateRegressionError ∧
  StructureFunction_new (Utils0 := unguarded_utils) mrq_A [Some 2%Q] 2 2 false =
    Ok (SF (Some "A") [Some 2%Q] 2 2 false (Some [1; 2; 3; 4]%Z) None
           (Some [[Some 0%Q; Some 2%Q; Some 4%Q; Some 8%Q]])
           (Some [None]) (Some [None])) ∧
  StructureFunction_new mrq_A [Some 2%Q] 3 6 false = Raise ValueError ∧
  StructureFunction_new mrq_A [Some 2%Q] 3 6 true = Raise KeyError ∧
  StructureFunction_new mrq_A [] 0 9 false =
    Ok (SF (Some "A") [] 0 9 false (Some [1; 2; 3; 4]%Z) None
           (Some []) (Some []) (Some [])).
Proof. split_and!; vm_compute; reflexivity. Qed.

(** C6 as amended, at a concrete input: the window of one point, with the
    unguarded helper. *)
Lemma construction_has_no_window_check_witness :
  ∃ zeta intercepts,
    StructureFunction_new (Utils0 := unguarded_utils) mrq_A [Some 2%Q] 2 2 false =
      Ok (SF (Some "A") [Some 2%Q] 2 2 false (Some [1; 2; 3; 4]%Z) None
             (Some [[Some 0%Q; Some 2%Q; Some 4%Q; Some 8%Q]])
             (Some zeta) (Some intercepts)).
Proof.
  assert (sf_local_values (Utils0 := unguarded_utils) mrq_A [Some 2%Q]
            (dict_keys (mrq_values mrq_A))
          = Ok [[Some 1%Q; Some 4%Q; Some 16%Q; Some 256%Q]]) as Hv
    by (vm_compute; reflexivity).
  destruct (construction_has_no_window_check (Utils0 := unguarded_utils)
              mrq_A [Some 2%Q] 2 2 false _ Hv) as [Hreturns _].
  apply (Hreturns [Some 1%Q]).
  - vm_compute. reflexivity.
  - intros row Hrow. apply list_elem_of_In in Hrow.
    destruct Hrow as [<-|[]]. vm_compute. eexists. reflexivity.
Defined.



(** C9 fails on the code. [mrq_B1] and [mrq_B2] have the same scale list
    (2, 3, 4, 5) and the same coefficient arrays and counts at the list
    positions 1..3, the positions j1-1 .. j2-1 of the window j1 = 2, j2 = 4;
    they differ at position 0 (scale 2). The weighted regression takes the
    counts of the scales 2, 3, 4: [zeta] is 1/2 for one and 7/16 for the
    other, and so is [hq]. *)
Lemma counts_outside_window_positions_change_zeta :
  dict_keys (mrq_values mrq_B1) = dict_keys (mrq_values mrq_B2) ∧
  py_slice (mrq_values mrq_B1) (2 - 1) 4 = py_slice (mrq_values mrq_B2) (2 - 1) 4 ∧
  py_slice (mrq_nj mrq_B1) (2 - 1) 4 = py_slice (mrq_nj mrq_B2) (2 - 1) 4 ∧
  sf_zeta <$> StructureFunction_new mrq_B1 [Some 1%Q] 2 4 true
    = Ok (Some [Some (1 # 2)%Q]) ∧
  sf_zeta <$> StructureFunction_new mrq_B2 [Some 1%Q] 2 4 true
    = Ok (Some [Some (7 # 16)%Q]) ∧
  (λ '(_, w), mfs_hq (w_self w)) <$>
      MFS_post_init (World mrq_B1 (MFS None None None 2 4 true [Some 1%Q]
                                       None None None None))
    = Ok (Some [Some (1 # 2)%Q]) ∧
  (λ '(_, w), mfs_hq (w_self w)) <$>
      MFS_post_init (World mrq_B2 (MFS None None None 2 4 true [Some 1%Q]
                                       None None None None))
    = Ok (Some [Some (7 # 16)%Q]) ∧
  Qeq_bool (1 # 2) (7 # 16) = false.
Proof. split_and!; vm_compute; reflexivity. Qed.

(** C9 as amended, at a concrete input: [mrq_A] and [mrq_A4] differ at
    scale 4 only, outside the window 1..3. *)
Lemma regressions_read_window_only_witness :
  mrq_values mrq_A ≠ mrq_values mrq_A4 ∧
  sf_zeta <$> StructureFunction_new mrq_A q_A 1 3 true =
    sf_zeta <$> StructureFunction_new mrq_A4 q_A 1 3 true ∧
  sf_intercept <$> StructureFunction_new mrq_A q_A 1 3 true =
    sf_intercept <$> StructureFunction_new mrq_A4 q_A 1 3 true.
Proof.
  split; [discriminate|].
  assert (dict_keys (mrq_values mrq_A4) = dict_keys (mrq_values mrq_A)) as Hkeys
    by reflexivity.
  destruct (regressions_read_window_only mrq_A mrq_A4 q_A 1 3 true Hkeys)
    as (Hz & Hi & _); [| |by split].
  - intros [|[|[|[|p]]]] j Hj Hp; simpl in Hj; try discriminate Hj.
    1-3: injection Hj as <-; split; reflexivity.
    unfold in_slice in Hp. vm_compute in Hp. destruct Hp as [_ Hp]. discriminate Hp.
  - intros _ j Hj.
    assert (j = 1 ∨ j = 2 ∨ j = 3)%Z as [->|[->| ->]] by lia; reflexivity.
Defined.

(** * Further properties *)

(** ** The accessors *)

Section Accessors.
Context {F : Type} `{!NumPy F, !Utils F}.

(** Selecting with the mask [q == 2] in an array as long as [q]. *)
Lemma mask_two_first (a q : list F) (i : nat) (q_i z : F) :
  length a = length q →
  q !! i = Some q_i → f_eqb q_i (of_int 2) = true →
  (∀ k q_k, k < i → q !! k = Some q_k → f_eqb q_k (of_int 2) = false) →
  a !! i = Some z →
  ∃ rest, mask_index a ((λ x, f_eqb x (of_int 2)) <$> q) = Ok (z :: rest).
Proof.
  intros Hlen Hq Htwo Hfirst Hz. unfold mask_index.
  rewrite decide_True by (by rewrite length_fmap).
  destruct (select_first a ((λ x, f_eqb x (of_int 2)) <$> q) i z) as [rest ->];
    [by rewrite length_fmap | | |done|by exists rest].
  - by rewrite list_lookup_fmap, Hq; simpl; rewrite Htwo.
  - intros k Hk. rewrite list_lookup_fmap.
    assert (k < length q) as Hkq by (apply lookup_lt_Some in Hq; lia).
    apply lookup_lt_is_Some in Hkq as [q_k Hqk]. rewrite Hqk. simpl.
    by rewrite (Hfirst k q_k Hk Hqk).
Qed.

Lemma mask_two_none (a q : list F) :
  length a = length q →
  mask_index a ((λ x, f_eqb x (of_int 2)) <$> q) = Ok [] ↔
  ∀ q_i, q_i ∈ q → f_eqb q_i (of_int 2) = false.
Proof.
  intros Hlen. unfold mask_index.
  rewrite decide_True by (by rewrite length_fmap).
  assert (length a = length ((λ x, f_eqb x (of_int 2)) <$> q)) as Hlen'
    by (by rewrite length_fmap).
  split.
  - intros [= Hnil] q_i Hq.
    apply (proj1 (select_nil _ _ Hlen') Hnil).
    apply list_elem_of_fmap. by exists q_i.
  - intros Hall. f_equal. apply (select_nil _ _ Hlen').
    intros b Hb. apply list_elem_of_fmap in Hb as (q_i & -> & Hq). auto.
Qed.

(** X1. On every constructed StructureFunction, [get_intercept()] returns [None]
    exactly when no exponent of [q] equals 2; otherwise it returns
    [intercept[i]], undivided, for the first position [i] whose exponent
    equals 2. *)
Theorem get_intercept_is_intercept_at_two (mrq : MultiResolutionQuantity)
    (q : list F) (j1 j2 : Z) (wtype : bool) (sf : StructureFunction) :
  StructureFunction_new mrq q j1 j2 wtype = Ok sf →
  (get_intercept sf = Ok None ↔ ∀ q_i, q_i ∈ q → f_eqb q_i (of_int 2) = false) ∧
  (∀ i q_i, q !! i = Some q_i → f_eqb q_i (of_int 2) = true →
     (∀ k q_k, k < i → q !! k = Some q_k → f_eqb q_k (of_int 2) = false) →
     ∃ intercepts z, sf_intercept sf = Some intercepts ∧ intercepts !! i = Some z ∧
                     get_intercept sf = Ok (Some z)).
Proof.
  intros Hnew. apply StructureFunction_new_inv, StructureFunction_init_inv in Hnew
    as (values & nj & zeta & ic & _ & _ & Hz & Hw).
  injection Hw as ->.
  apply sf_regressions_spec in Hz as (_ & Hli & _).
  unfold get_intercept. simpl. split.
  - rewrite <- (mask_two_none ic q Hli).
    destruct (mask_index ic _) as [[|z rest]|e]; simpl; split; congruence.
  - intros i q_i Hq Htwo Hfirst.
    assert (i < length ic) as Hi by (rewrite Hli; by apply lookup_lt_Some in Hq).
    apply lookup_lt_is_Some in Hi as [z Hzi].
    exists ic, z. split_and!; [done..|].
    destruct (mask_two_first ic q i q_i z Hli Hq Htwo Hfirst Hzi) as [rest ->]. done.
Qed.

(** X2. [get_H()] and [get_intercept()] report one and the same fit: when [i] is
    the first position whose exponent equals 2, the helper returned a pair
    (slope, intercept) on the window of row [i] of [logvalues], and the two
    accessors return slope / 2 and intercept. *)
Theorem accessors_report_the_fit_of_exponent_two (mrq : MultiResolutionQuantity)
    (q : list F) (j1 j2 : Z) (wtype : bool) (sf : StructureFunction)
    (i : nat) (q_i : F) :
  StructureFunction_new mrq q j1 j2 wtype = Ok sf →
  q !! i = Some q_i → f_eqb q_i (of_int 2) = true →
  (∀ k q_k, k < i → q !! k = Some q_k → f_eqb q_k (of_int 2) = false) →
  ∃ logvalues row nj slope intercept,
    sf_logvalues sf = Some logvalues ∧ logvalues !! i = Some row ∧
    regression_weights (mrq_nj mrq) j1 j2 wtype = Ok nj ∧
    linear_regression (arange j1 (j2 + 1)) (py_slice row (j1 - 1) j2) nj
      = Ok (slope, intercept) ∧
    get_H sf = Ok (Some (f_div slope (of_int 2))) ∧
    get_intercept sf = Ok (Some intercept).
Proof.
  intros Hnew Hq Htwo Hfirst.
  apply StructureFunction_new_inv, StructureFunction_init_inv in Hnew
    as (values & nj & zeta & ic & _ & Hnj & Hz & Hw).
  injection Hw as ->.
  apply sf_regressions_spec in Hz as (Hlz & Hli & Hrows).
  destruct (Hrows i) as (row & slope & icpt & Hrow & Hlr & Hs & Hc);
    [by apply lookup_lt_Some in Hq|].
  replace (j2 - 1 + 1)%Z with j2 in Hlr by lia.
  exists (map (map f_log2) values), row, nj, slope, icpt.
  split_and!; [done..| |].
  - unfold get_H. simpl.
    destruct (mask_two_first zeta q i q_i slope Hlz Hq Htwo Hfirst Hs) as [rest ->].
    done.
  - unfold get_intercept. simpl.
    destruct (mask_two_first ic q i q_i icpt Hli Hq Htwo Hfirst Hc) as [rest ->].
    done.
Qed.

End Accessors.

(** ** The window of the regressions *)

Section WindowAlignment.
Context {F : Type} `{!NumPy F, !Utils F}.



(** X5. [logvalues] and the scale list do not depend on the window or on the
    weighting: two constructions on the same quantity and exponents differ
    at most in [j1], [j2], [wtype], [zeta] and [intercept]. *)
Theorem logvalues_do_not_depend_on_window (mrq : MultiResolutionQuantity)
    (q : list F) (j1 j2 j1' j2' : Z) (wtype wtype' : bool)
    (sf sf' : StructureFunction) :
  StructureFunction_new mrq q j1 j2 wtype = Ok sf →
  StructureFunction_new mrq q j1' j2' wtype' = Ok sf' →
  sf_logvalues sf = sf_logvalues sf' ∧ sf_j sf = sf_j sf' ∧
  sf_name sf = sf_name sf' ∧ sf_values sf = sf_values sf' ∧ sf_q sf = sf_q sf'.
Proof.
  intros H1 H2.
  apply StructureFunction_new_inv, StructureFunction_init_inv in H1
    as (v1 & ? & ? & ? & Hv1 & _ & _ & Hw1).
  apply StructureFunction_new_inv, StructureFunction_init_inv in H2
    as (v2 & ? & ? & ? & Hv2 & _ & _ & Hw2).
  injection Hw1 as ->. injection Hw2 as ->. simpl.
  rewrite Hv1 in Hv2. injection Hv2 as <-. done.
Qed.

(** X6. An unweighted construction never reads the counts: two quantities with
    the same name and the same coefficients, whatever their dicts [nj], give
    the same outcome. *)
Theorem unweighted_construction_ignores_counts (m1 m2 : MultiResolutionQuantity)
    (q : list F) (j1 j2 : Z) :
  mrq_name m1 = mrq_name m2 → mrq_values m1 = mrq_values m2 →
  StructureFunction_new m1 q j1 j2 false = StructureFunction_new m2 q j1 j2 false.
Proof.
  intros Hname Hvalues. unfold StructureFunction_new.
  rewrite !StructureFunction_init_run, !SF_post_init_run.
  unfold mbind, outcome_bind, fmap, outcome_fmap. simpl.
  assert (sf_local_values m1 q (dict_keys (mrq_values m1)) =
          sf_local_values m2 q (dict_keys (mrq_values m2))) as ->.
  { unfold sf_local_values. by rewrite Hvalues. }
  rewrite Hname, Hvalues.
  destruct (sf_local_values m2 q _) as [values|]; [|done].
  destruct (sf_regressions _ _ _ _ _ _ _) as [[zeta ic]|]; done.
Qed.

(** X7. With no exponent, construction runs no regression: unweighted it returns
    for every quantity and every window, with empty [logvalues], [zeta] and
    [intercept]; weighted it still looks the counts of the scales j1..j2 up,
    and raises [KeyError] when one is missing. *)
Theorem construction_without_exponents (mrq : MultiResolutionQuantity) (j1 j2 : Z)
    (wtype : bool) :
  let empty := SF (Some (mrq_name mrq)) [] j1 j2 wtype
                  (Some (dict_keys (mrq_values mrq))) None (Some []) (Some []) (Some []) in
  StructureFunction_new mrq [] j1 j2 wtype =
    (if wtype
     then match get_nj_interv (mrq_nj mrq) j1 j2 with
          | Ok _ => Ok empty
          | Raise _ => Raise KeyError
          end
     else Ok empty) ∧
  get_H empty = Ok None.
Proof.
  intros empty. split; [|reflexivity]. unfold StructureFunction_new.
  rewrite StructureFunction_init_run, SF_post_init_run.
  unfold mbind, outcome_bind, fmap, outcome_fmap. simpl.
  destruct (sf_local_values_total mrq []) as [values Hv].
  destruct (sf_local_values_spec _ _ _ _ Hv) as [[Hlen _] _].
  destruct values; [|done]. rewrite Hv.
  destruct wtype; simpl; [|done].
  destruct (get_nj_interv (mrq_nj mrq) j1 j2) as [nj|e] eqn:Hnj; [done|].
  by rewrite (get_nj_interv_Raise _ _ _ _ Hnj).
Qed.

End WindowAlignment.

(** ** Edge cases of the spectrum *)

Lemma foldM_first_failure {A B} (f : B → A → outcome B) (e : exn) (l : list A) (b : B) :
  (∀ b x, x ∈ l → is_Ok (f b x) ∨ f b x = Raise e) →
  (∃ x, x ∈ l ∧ ∀ b, f b x = Raise e) →
  foldM f b l = Raise e.
Proof.
  revert b. induction l as [|x l IH]; intros b Hstep (y & Hy & Hfail).
  - by apply elem_of_nil in Hy.
  - simpl. destruct (Hstep b x) as [[b' Hb']|Hb']; [by left| |by rewrite Hb'].
    rewrite Hb'. simpl.
    apply elem_of_cons in Hy as [->|Hy]; [by rewrite Hfail in Hb'|].
    apply IH; [|by exists y].
    intros b0 z Hz. apply Hstep. by right.
Qed.

Section SpectrumEdges.
Context {F : Type} `{!NumPy F, !Utils F}.

(** X8. With no exponent the body of [__post_init__] of the spectrum cannot
    return as soon as the quantity has one scale: [np.stack] is given an
    empty list ([ValueError]), unless the count of the first scale is
    already missing ([KeyError]). *)
Theorem spectrum_without_exponents_raises (mrq : MultiResolutionQuantity)
    (s : MultifractalSpectrum) :
  mfs_q s = [] → mrq_values mrq ≠ [] →
  ∃ e, MFS_post_init (World mrq s) = Raise e ∧ (e = ValueError ∨ e = KeyError).
Proof.
  intros Hq Hvalues. rewrite MFS_post_init_run, MFS_compute_run, Hq.
  destruct (dict_keys (mrq_values mrq)) as [|j js] eqn:Hk.
  { unfold dict_keys in Hk. by apply fmap_nil_inv in Hk. }
  destruct (dict_get_keys (mrq_values mrq) j) as [c_j Hc]; [rewrite Hk; by left|].
  unfold mfs_local_UV, enumerate. simpl.
  destruct (dict_get (mrq_nj mrq) j) as [n|e] eqn:Hn; simpl.
  - rewrite Hc. simpl. exists ValueError. by split; [|left].
  - exists e. split; [done|]. right. by eapply dict_get_Raise.
Qed.

(** X9. The spectrum reads the count of every scale of the quantity, inside the
    window or not, weighted or not: with at least one exponent, if some
    scale of [mrq.values] has no entry in [mrq.nj] the body of
    [__post_init__] raises [KeyError]. *)
Theorem spectrum_needs_the_count_of_every_scale (mrq : MultiResolutionQuantity)
    (s : MultifractalSpectrum) (j : Z) :
  mfs_q s ≠ [] →
  j ∈ dict_keys (mrq_values mrq) → dict_get (mrq_nj mrq) j = Raise KeyError →
  MFS_post_init (World mrq s) = Raise KeyError.
Proof.
  intros Hq Hj Hmissing. rewrite MFS_post_init_run, MFS_compute_run.
  assert (mfs_local_UV mrq (mfs_q s) (dict_keys (mrq_values mrq)) = Raise KeyError)
    as ->; [|done].
  unfold mfs_local_UV. apply foldM_first_failure.
  - intros [U V] [p j'] Hin.
    assert (j' ∈ dict_keys (mrq_values mrq)) as Hj'.
    { unfold enumerate in Hin. apply list_elem_of_lookup in Hin as [i Hi].
      rewrite list_lookup_imap in Hi.
      destruct (dict_keys (mrq_values mrq) !! i) as [j0|] eqn:Hj0; simpl in Hi; [|done].
      injection Hi as <- <-. by eapply list_elem_of_lookup_2. }
    destruct (dict_get (mrq_nj mrq) j') as [n|e] eqn:Hn; simpl.
    + destruct (dict_get_keys _ _ Hj') as [c_j ->]. simpl.
      destruct (mfs_R_total (f_abs <$> c_j) (mfs_q s) Hq) as [R_j ->]. simpl.
      left. by eexists.
    + right. by rewrite (dict_get_Raise _ _ _ Hn).
  - apply list_elem_of_lookup in Hj as [p Hp].
    exists (p, j). split.
    + unfold enumerate. apply list_elem_of_lookup. exists p.
      by rewrite list_lookup_imap, Hp.
    + intros [U V]. by rewrite Hmissing.
Qed.

(** X11. [U] and [V] have one row per scale of the quantity and one column per
    exponent, and they do not depend on the window or on the weighting. *)
Theorem spectrum_UV_shape_and_window (mrq : MultiResolutionQuantity)
    (s s' : MultifractalSpectrum) (w w' : world MultifractalSpectrum) :
  MFS_post_init (World mrq s) = Ok (tt, w) →
  MFS_post_init (World mrq s') = Ok (tt, w') →
  mfs_q s = mfs_q s' →
  ∃ U V,
    mfs_U (w_self w) = Some U ∧ mfs_V (w_self w) = Some V ∧
    shape U (length (dict_keys (mrq_values mrq))) (length (mfs_q s)) ∧
    shape V (length (dict_keys (mrq_values mrq))) (length (mfs_q s)) ∧
    mfs_U (w_self w') = Some U ∧ mfs_V (w_self w') = Some V.
Proof.
  intros H1 H2 Hq.
  rewrite MFS_post_init_run, MFS_compute_run in H1, H2. rewrite <- Hq in H2.
  destruct (mfs_local_UV mrq (mfs_q s) _) as [[U V]|] eqn:HUV; [|done].
  destruct (if mfs_wtype s then _ else _) as [wj|]; [|done].
  destruct (mfs_regressions U V _ wj _ _ _) as [[Dq hq]|]; [|done].
  destruct (if mfs_wtype s' then _ else _) as [wj'|]; [|done].
  destruct (mfs_regressions U V _ wj' _ _ _) as [[Dq' hq']|]; [|done].
  injection H1 as <-. injection H2 as <-. simpl.
  apply mfs_local_UV_spec in HUV as (HlU & HlV & Hrows).
  exists U, V. split_and!; try done.
  - split; [done|]. apply Forall_lookup_2. intros p row Hrow.
    destruct (lookup_lt_is_Some_2 (dict_keys (mrq_values mrq)) p) as [j Hj];
      [rewrite <- HlU; by apply lookup_lt_Some in Hrow|].
    destruct (Hrows p j Hj) as (n & c_j & _ & _ & HU & _).
    rewrite HU in Hrow. injection Hrow as <-.
    unfold mfs_U_row. by rewrite !length_fmap.
  - split; [done|]. apply Forall_lookup_2. intros p row Hrow.
    destruct (lookup_lt_is_Some_2 (dict_keys (mrq_values mrq)) p) as [j Hj];
      [rewrite <- HlV; by apply lookup_lt_Some in Hrow|].
    destruct (Hrows p j Hj) as (n & c_j & _ & _ & _ & HV).
    rewrite HV in Hrow. injection Hrow as <-.
    unfold mfs_V_row. by rewrite !length_fmap.
Qed.

End SpectrumEdges.

(** ** The plots *)

Lemma fold_result_app {A B} (f : B → A → result B) (b : B) (l1 l2 : list A) :
  fold_result f b (l1 ++ l2) =
    match fold_result f b l1 with
    | Return b' => fold_result f b' l2
    | Throw e => Throw e
    end.
Proof.
  revert b. induction l1 as [|x l1 IH]; intros b; simpl; [done|].
  destruct (f b x); [apply IH | done].
Qed.

Lemma fold_result_single {A B} (f : B → A → result B) (b : B) (x : A) :
  fold_result f b [x] = f b x.
Proof. simpl. by destruct (f b x). Qed.

Lemma norm_index_nat (n i : nat) :
  norm_index n (Z.of_nat i) =
    if decide (i < n) then Return i else Throw (Builtin IndexError).
Proof.
  unfold norm_index.
  destruct (Z.leb_spec 0 (Z.of_nat i)), (Z.ltb_spec (Z.of_nat i) (Z.of_nat n));
    simpl; case_decide; try lia.
  - by rewrite Nat2Z.id.
  - destruct (Z.leb_spec (- Z.of_nat n) (Z.of_nat i)), (Z.ltb_spec (Z.of_nat i) 0);
      simpl; try lia; done.
Qed.

Lemma py_mod_nat (k n : nat) :
  1 ≤ n → py_mod (Z.of_nat k) (Z.of_nat n) = Return (Z.of_nat (k mod n)).
Proof.
  intros Hn. unfold py_mod. rewrite (proj2 (Z.eqb_neq _ _)) by lia.
  by rewrite Nat2Z.inj_mod.
Qed.

Lemma py_floordiv_nat (k n : nat) :
  1 ≤ n → py_floordiv (Z.of_nat k) (Z.of_nat n) = Return (Z.of_nat (k / n)).
Proof.
  intros Hn. unfold py_floordiv. rewrite (proj2 (Z.eqb_neq _ _)) by lia.
  by rewrite Nat2Z.inj_div.
Qed.

(** A grid position is the position of one index. *)
Lemma cell_index_unique (c r k n : nat) :
  r < n → c * n + r = k ↔ r = k mod n ∧ c = k / n.
Proof.
  intros Hr. split.
  - intros <-. split.
    + rewrite Nat.add_comm, Nat.Div0.mod_add. symmetry. apply Nat.mod_small. lia.
    + rewrite Nat.add_comm, Nat.div_add by lia. rewrite Nat.div_small by lia. lia.
  - intros [-> ->]. pose proof (Nat.div_mod_eq k n). lia.
Qed.

Lemma py_ceil_div_spec (a d c : Z) :
  (0 < d)%Z → py_ceil_div a d = Return c → (d * (c - 1) < a ≤ d * c)%Z.
Proof.
  intros Hd. unfold py_ceil_div. rewrite (proj2 (Z.eqb_neq _ _)) by lia.
  intros [= <-].
  pose proof (Z.div_mod (- a) d ltac:(lia)).
  pose proof (Z.mod_pos_bound (- a) d Hd). nia.
Qed.

Section PlotLoop.
Context {F : Type} `{!NumPy F}.
Implicit Types (x : list Z) (q zeta ic : list F) (lv : list (list F))
  (axes : list (list (Axes (F := F)))).

Lemma after_drawing_other ignore_q0 x j1 j2 q lv zeta ic (k idx : nat) :
  idx ≠ k →
  after_drawing ignore_q0 x j1 j2 q lv zeta ic (S k) idx =
  after_drawing ignore_q0 x j1 j2 q lv zeta ic k idx.
Proof.
  intros Hne. unfold after_drawing.
  destruct (Nat.ltb_spec idx (S k)), (Nat.ltb_spec idx k); try lia; done.
Qed.

Lemma after_drawing_skip ignore_q0 x j1 j2 q lv zeta ic (k idx : nat) :
  drawn ignore_q0 q k = false →
  after_drawing ignore_q0 x j1 j2 q lv zeta ic (S k) idx =
  after_drawing ignore_q0 x j1 j2 q lv zeta ic k idx.
Proof.
  intros Hk. destruct (decide (idx = k)) as [->|Hne];
    [|by apply after_drawing_other].
  unfold after_drawing. rewrite Hk, !andb_false_r. done.
Qed.

Lemma grid_holds_ext nrow d1 d2 (st st' : nat → Axes) axes :
  (∀ idx, st idx = st' idx) →
  grid_holds nrow d1 d2 st axes → grid_holds nrow d1 d2 st' axes.
Proof.
  intros Hst [Hlen Hrows]. split; [done|].
  intros r row Hrow. destruct (Hrows r row Hrow) as [Hl Hc].
  split; [done|]. intros c Hlt. rewrite <- Hst. by apply Hc.
Qed.

(** Replacing the axes of one position. *)
Lemma grid_holds_insert nrow d1 d2 (st st' : nat → Axes) axes (k : nat)
    (row : list Axes) :
  1 ≤ nrow → d1 ≤ nrow →
  grid_holds nrow d1 d2 st axes →
  axes !! (k mod nrow) = Some row → k / nrow < d2 →
  (∀ idx, idx ≠ k → st' idx = st idx) →
  grid_holds nrow d1 d2 st'
    (<[k mod nrow := <[k / nrow := st' k]> row]> axes).
Proof.
  intros Hnrow Hd1 [Hlen Hrows] Hrow Hc Hst.
  destruct (Hrows _ _ Hrow) as [Hlrow Hcells].
  split; [by rewrite length_insert|].
  intros r row' Hrow'.
  destruct (decide (r = k mod nrow)) as [->|Hne].
  - rewrite list_lookup_insert_eq in Hrow' by (by apply lookup_lt_Some in Hrow).
    injection Hrow' as <-. rewrite length_insert. split; [done|].
    intros c Hlt. destruct (decide (c = k / nrow)) as [->|Hcne].
    + rewrite list_lookup_insert_eq by lia. f_equal. f_equal.
      pose proof (Nat.div_mod_eq k nrow). lia.
    + rewrite list_lookup_insert_ne by done. rewrite Hcells by done.
      f_equal. symmetry. apply Hst. intros Heq.
      apply cell_index_unique in Heq as [_ ?]; [done|].
      apply Nat.mod_upper_bound. lia.
  - rewrite list_lookup_insert_ne in Hrow' by done.
    destruct (Hrows _ _ Hrow') as [Hl Hcells']. split; [done|].
    intros c Hlt. rewrite Hcells' by done. f_equal. symmetry. apply Hst.
    intros Heq. apply cell_index_unique in Heq as [? _]; [done|].
    apply lookup_lt_Some in Hrow'. lia.
Qed.

Lemma plot_exponent_skipped name q j1 j2 wt x vs lv zeta ic (nrow : Z)
    ignore_q0 axes (k : nat) (q_k : F) :
  skipped ignore_q0 q_k = true →
  plot_exponent (SF name q j1 j2 wt (Some x) vs (Some lv) (Some zeta) (Some ic))
    x nrow ignore_q0 axes (k, q_k) = Return axes.
Proof. unfold skipped, plot_exponent. by intros ->. Qed.

Lemma plot_exponent_drawn name q j1 j2 wt x vs lv zeta ic (nrow d1 d2 : nat)
    ignore_q0 axes (k : nat) (q_k : F) :
  plottable x lv zeta ic q → 1 ≤ nrow → d1 ≤ nrow →
  grid_holds nrow d1 d2 (after_drawing ignore_q0 x j1 j2 q lv zeta ic k) axes →
  q !! k = Some q_k → skipped ignore_q0 q_k = false → fits nrow d1 d2 k →
  ∃ axes',
    plot_exponent (SF name q j1 j2 wt (Some x) vs (Some lv) (Some zeta) (Some ic))
      x (Z.of_nat nrow) ignore_q0 axes (k, q_k) = Return axes' ∧
    grid_holds nrow d1 d2 (after_drawing ignore_q0 x j1 j2 q lv zeta ic (S k)) axes'.
Proof.
  intros (Hlv & Hrowlen & Hzeta & Hic) Hnrow Hd1 Hgrid Hq Hskip [Hr Hc].
  pose proof (lookup_lt_Some _ _ _ Hq) as Hk.
  destruct (lookup_lt_is_Some_2 lv k ltac:(lia)) as [y Hy].
  destruct (lookup_lt_is_Some_2 zeta k ltac:(lia)) as [slope Hs].
  destruct (lookup_lt_is_Some_2 ic k ltac:(lia)) as [icpt Hi].
  pose proof Hgrid as [Hlen Hrows].
  destruct (lookup_lt_is_Some_2 axes (k mod nrow) ltac:(lia)) as [row Hrow].
  destruct (Hrows _ _ Hrow) as [Hlrow Hcells].
  assert (after_drawing ignore_q0 x j1 j2 q lv zeta ic (S k) k
          = exponent_panel x j1 j2 q_k y slope icpt) as Hpanel.
  { unfold after_drawing, drawn, panel_at. rewrite Hq, Hskip, Hy, Hs, Hi. simpl.
    by rewrite (proj2 (Nat.ltb_lt k (S k))) by lia. }
  exists (<[k mod nrow := <[k / nrow :=
            after_drawing ignore_q0 x j1 j2 q lv zeta ic (S k) k]> row]> axes).
  split.
  - unfold plot_exponent. unfold skipped in Hskip. rewrite Hskip.
    unfold mbind, result_bind, item. simpl. rewrite Hy. simpl.
    rewrite py_mod_nat by done. rewrite norm_index_nat, decide_True by lia.
    rewrite Hrow. simpl.
    rewrite py_floordiv_nat by done. rewrite norm_index_nat, decide_True by lia.
    rewrite (Hcells _ Hc). simpl.
    assert (after_drawing ignore_q0 x j1 j2 q lv zeta ic k (k / nrow * nrow + k mod nrow)
            = blank_axes) as ->.
    { unfold after_drawing.
      replace (k / nrow * nrow + k mod nrow) with k
        by (pose proof (Nat.div_mod_eq k nrow); lia).
      by rewrite Nat.ltb_irrefl. }
    unfold ax_plot_curve.
    rewrite decide_True by (symmetry; apply Hrowlen; by eapply list_elem_of_lookup_2).
    unfold ax_decorate, mbind, result_bind, item. simpl.
    rewrite (proj2 (Nat.ltb_lt 0 (length zeta))) by lia.
    rewrite Hs. simpl. rewrite Hi. simpl. by rewrite Hpanel.
  - apply (grid_holds_insert nrow d1 d2
             (after_drawing ignore_q0 x j1 j2 q lv zeta ic k)); try done.
    intros idx Hne. by apply after_drawing_other.
Qed.

Lemma plot_exponent_overflow name q j1 j2 wt x vs lv zeta ic (nrow d1 d2 : nat)
    ignore_q0 (st : nat → Axes) axes (k : nat) (q_k : F) :
  plottable x lv zeta ic q → 1 ≤ nrow →
  grid_holds nrow d1 d2 st axes →
  q !! k = Some q_k → skipped ignore_q0 q_k = false → ¬ fits nrow d1 d2 k →
  plot_exponent (SF name q j1 j2 wt (Some x) vs (Some lv) (Some zeta) (Some ic))
    x (Z.of_nat nrow) ignore_q0 axes (k, q_k) = Throw (Builtin IndexError).
Proof.
  intros (Hlv & _) Hnrow [Hlen Hrows] Hq Hskip Hfits.
  pose proof (lookup_lt_Some _ _ _ Hq) as Hk.
  destruct (lookup_lt_is_Some_2 lv k ltac:(lia)) as [y Hy].
  unfold plot_exponent. unfold skipped in Hskip. rewrite Hskip.
  unfold mbind, result_bind, item. simpl. rewrite Hy. simpl.
  rewrite py_mod_nat by done. rewrite norm_index_nat.
  case_decide as Hr; [|done].
  destruct (lookup_lt_is_Some_2 axes (k mod nrow) Hr) as [row Hrow].
  destruct (Hrows _ _ Hrow) as [Hlrow _]. rewrite Hrow. simpl.
  rewrite py_floordiv_nat by done. rewrite norm_index_nat.
  case_decide as Hc; [|done].
  exfalso. apply Hfits. split; lia.
Qed.

End PlotLoop.

Section PlotRun.
Context {F : Type} `{!NumPy F}.
Implicit Types (x : list Z) (q zeta ic : list F) (lv : list (list F))
  (axes : list (list (Axes (F := F)))).

Lemma grid_holds_blank (nrow d1 d2 : nat) ignore_q0 x j1 j2 q lv zeta ic :
  grid_holds nrow d1 d2 (after_drawing ignore_q0 x j1 j2 q lv zeta ic 0)
    (replicate d1 (replicate d2 blank_axes)).
Proof.
  split; [by rewrite length_replicate|].
  intros r row Hrow. apply lookup_replicate in Hrow as [-> _].
  split; [by rewrite length_replicate|].
  intros c Hc. by rewrite lookup_replicate_2.
Qed.

Lemma len_flat_grid (nrow d1 d2 : nat) (st : nat → Axes) axes :
  grid_holds nrow d1 d2 st axes → len_flat axes = Z.of_nat (d1 * d2).
Proof.
  intros [Hlen Hrows]. unfold len_flat. f_equal. subst d1.
  assert (∀ row, row ∈ axes → length row = d2) as Hall.
  { intros row Hin. apply list_elem_of_lookup in Hin as [r Hr].
    by destruct (Hrows r row Hr). }
  clear Hrows. induction axes as [|row axes IH]; simpl; [done|].
  rewrite length_app, IH, Hall; [done|by left|].
  intros row' Hin. apply Hall. by right.
Qed.

(** The loop over the exponents: it goes through the first [k] positions and
    the panels drawn so far are in place, or it has stopped with
    [IndexError] on axes outside the grid. *)
Lemma plot_loop name q j1 j2 wt x vs lv zeta ic (nrow d1 d2 : nat) ignore_q0
    axes0 (k : nat) :
  plottable x lv zeta ic q → 1 ≤ nrow → d1 ≤ nrow →
  grid_holds nrow d1 d2 (after_drawing ignore_q0 x j1 j2 q lv zeta ic 0) axes0 →
  k ≤ length q →
  let step := plot_exponent
                (SF name q j1 j2 wt (Some x) vs (Some lv) (Some zeta) (Some ic))
                x (Z.of_nat nrow) ignore_q0 in
  (∃ axes,
     fold_result step axes0 (enumerate (take k q)) = Return axes ∧
     grid_holds nrow d1 d2 (after_drawing ignore_q0 x j1 j2 q lv zeta ic k) axes ∧
     ∀ i q_i, i < k → q !! i = Some q_i → skipped ignore_q0 q_i = false →
              fits nrow d1 d2 i)
  ∨ (fold_result step axes0 (enumerate (take k q)) = Throw (Builtin IndexError) ∧
     ∃ i q_i, i < k ∧ q !! i = Some q_i ∧ skipped ignore_q0 q_i = false ∧
              ¬ fits nrow d1 d2 i).
Proof.
  intros Hp Hnrow Hd1 Hgrid0 Hk step. induction k as [|k IH].
  - left. exists axes0. rewrite take_0. split_and!; [done..|]. intros; lia.
  - destruct (lookup_lt_is_Some_2 q k ltac:(lia)) as [q_k Hq].
    rewrite (take_S_r _ _ _ Hq), enumerate_snoc, fold_result_app.
    rewrite length_take_le by lia.
    destruct (IH ltac:(lia)) as [(axes & -> & Hgrid & Hfits)|(-> & i & q_i & ? & ? & ? & ?)];
      [|right; split; [done|]; exists i, q_i; split_and!; [lia|done..]].
    rewrite fold_result_single. destruct (skipped ignore_q0 q_k) eqn:Hskip.
    + left. exists axes. unfold step. rewrite plot_exponent_skipped by done.
      split_and!; [done| |].
      * eapply grid_holds_ext; [|exact Hgrid]. intros idx. symmetry.
        apply after_drawing_skip. unfold drawn. by rewrite Hq, Hskip.
      * intros i q_i Hi Hqi Hs. destruct (decide (i = k)) as [->|Hne].
        -- rewrite Hq in Hqi. injection Hqi as <-. by rewrite Hskip in Hs.
        -- apply (Hfits i q_i); [lia|done..].
    + destruct (decide (k mod nrow < d1 ∧ k / nrow < d2)) as [Hfit|Hover].
      * left.
        destruct (plot_exponent_drawn name q j1 j2 wt x vs lv zeta ic nrow d1 d2
                    ignore_q0 axes k q_k Hp Hnrow Hd1 Hgrid Hq Hskip Hfit)
          as (axes' & Hstep & Hgrid').
        exists axes'. unfold step. rewrite Hstep. split_and!; [done..|].
        intros i q_i Hi Hqi Hs. destruct (decide (i = k)) as [->|Hne]; [done|].
        apply (Hfits i q_i); [lia|done..].
      * right. unfold step.
        rewrite (plot_exponent_overflow name q j1 j2 wt x vs lv zeta ic nrow d1 d2
                   ignore_q0 _ axes k q_k Hp Hnrow Hgrid Hq Hskip Hover).
        split; [done|]. exists k, q_k. split_and!; [lia|done..].
Qed.

Lemma after_removing_start ignore_q0 x j1 j2 q lv zeta ic (idx : nat) :
  after_removing ignore_q0 x j1 j2 q lv zeta ic (length q) idx =
  after_drawing ignore_q0 x j1 j2 q lv zeta ic (length q) idx.
Proof.
  unfold after_removing. destruct (Nat.ltb_spec idx (length q)) as [?|Hge]; [done|].
  unfold after_drawing. by rewrite (proj2 (Nat.ltb_ge idx (length q))) by lia.
Qed.

(** The loop that removes the axes left over. *)
Lemma remove_loop ignore_q0 x j1 j2 q lv zeta ic (nrow d2 : nat) axes0 (m : nat) :
  1 ≤ nrow →
  grid_holds nrow nrow d2 (after_removing ignore_q0 x j1 j2 q lv zeta ic (length q)) axes0 →
  length q + m ≤ nrow * d2 →
  ∃ axes,
    fold_result (remove_axes (Z.of_nat nrow)) axes0
      (seqZ (Z.of_nat (length q)) (Z.of_nat m)) = Return axes ∧
    grid_holds nrow nrow d2
      (after_removing ignore_q0 x j1 j2 q lv zeta ic (length q + m)) axes.
Proof.
  intros Hnrow Hgrid0. induction m as [|m IH]; intros Hm.
  - exists axes0. simpl. by rewrite Nat.add_0_r.
  - destruct (IH ltac:(lia)) as (axes & Hfold & Hgrid).
    rewrite seqZ_S, fold_result_app, Hfold, fold_result_single.
    replace (Z.of_nat (length q) + Z.of_nat m)%Z with (Z.of_nat (length q + m)) by lia.
    set (j := length q + m) in *.
    pose proof Hgrid as [Hlen Hrows].
    assert (j / nrow < d2) as Hc by (apply Nat.Div0.div_lt_upper_bound; lia).
    assert (j mod nrow < nrow) as Hr by (apply Nat.mod_upper_bound; lia).
    destruct (lookup_lt_is_Some_2 axes (j mod nrow) ltac:(lia)) as [row Hrow].
    destruct (Hrows _ _ Hrow) as [Hlrow Hcells].
    exists (<[j mod nrow := <[j / nrow :=
              after_removing ignore_q0 x j1 j2 q lv zeta ic (length q + S m) j]> row]> axes).
    split.
    + unfold remove_axes, mbind, result_bind.
      rewrite py_mod_nat by done. rewrite norm_index_nat, decide_True by lia.
      rewrite Hrow. simpl.
      rewrite py_floordiv_nat by done. rewrite norm_index_nat, decide_True by lia.
      rewrite (Hcells _ Hc). simpl.
      replace (j / nrow * nrow + j mod nrow) with j
        by (pose proof (Nat.div_mod_eq j nrow); lia).
      unfold after_removing.
      rewrite (proj2 (Nat.ltb_ge j (length q))) by lia.
      rewrite Nat.ltb_irrefl.
      rewrite (proj2 (Nat.ltb_lt j (length q + S m))) by lia. done.
    + apply (grid_holds_insert nrow nrow d2
               (after_removing ignore_q0 x j1 j2 q lv zeta ic j)); try done.
      intros idx Hne. unfold after_removing.
      destruct (idx <? length q); [done|].
      destruct (Nat.ltb_spec idx (length q + S m)), (Nat.ltb_spec idx j);
        try lia; done.
Qed.

End PlotRun.

Section PlotTheorems.
Context {F : Type} `{!NumPy F, !Utils F}.

Lemma plot_dims_facts (nrow' d1 d2 : nat) (nq : Z) :
  1 ≤ nrow' → plot_dims (Z.of_nat nrow') nq = Return (Z.of_nat d1, Z.of_nat d2) →
  1 ≤ d1 ∧ 1 ≤ d2 ∧ d1 ≤ nrow' ∧
  (((1 < nq)%Z ∧ d1 = nrow' ∧
    (Z.of_nat nrow' * (Z.of_nat d2 - 1) < nq ≤ Z.of_nat nrow' * Z.of_nat d2)%Z)
   ∨ ((nq ≤ 1)%Z ∧ d1 = 1 ∧ d2 = 1)).
Proof.
  intros Hnrow. unfold plot_dims. destruct (Z.ltb_spec 1 nq) as [Hnq|Hnq].
  - destruct (py_ceil_div nq (Z.of_nat nrow')) as [c|] eqn:Hc; simpl; [|done].
    intros [= H1 H2]. apply py_ceil_div_spec in Hc; [|lia]. subst c.
    apply Nat2Z.inj in H1 as <-.
    assert (1 ≤ d2) by nia. split_and!; lia.
  - intros [= H1 H2]. assert (d1 = 1) as -> by lia. assert (d2 = 1) as -> by lia.
    split_and!; lia.
Qed.

(** A constructed object can be plotted: its arrays are consistent. *)
Lemma constructed_plottable (mrq : MultiResolutionQuantity) (q : list F)
    (j1 j2 : Z) (wtype : bool) (sf : StructureFunction) :
  StructureFunction_new mrq q j1 j2 wtype = Ok sf →
  ∃ lv zeta ic,
    sf = SF (Some (mrq_name mrq)) q j1 j2 wtype (Some (dict_keys (mrq_values mrq)))
            None (Some lv) (Some zeta) (Some ic) ∧
    plottable (dict_keys (mrq_values mrq)) lv zeta ic q.
Proof.
  intros Hnew. apply StructureFunction_new_inv, StructureFunction_init_inv in Hnew
    as (values & nj & zeta & ic & Hv & _ & Hz & Hw).
  injection Hw as ->.
  apply sf_regressions_spec in Hz as (Hlz & Hli & _).
  destruct (sf_local_values_spec _ _ _ _ Hv) as [Hsh _]. pose proof Hsh as [Hlen _].
  exists (map (map f_log2) values), zeta, ic. split; [done|].
  split_and!; [by rewrite length_map| |done..].
  intros row Hrow. apply list_elem_of_fmap in Hrow as (r & -> & Hr).
  apply list_elem_of_lookup in Hr as [i Hi]. rewrite length_map.
  by apply (shape_row _ _ _ _ _ Hsh Hi).
Qed.

(** [plot] on an object with consistent arrays and at least one exponent. *)
Lemma plot_run name (q : list F) j1 j2 wt x vs lv zeta ic formalism figlabel
    (nrow : Z) filename ignore_q0 (nrow' d1 d2 : nat) :
  let self := SF name q j1 j2 wt (Some x) vs (Some lv) (Some zeta) (Some ic) in
  plottable x lv zeta ic q → q ≠ [] →
  plot_nrow self nrow = Z.of_nat nrow' → 1 ≤ nrow' →
  plot_dims (plot_nrow self nrow) (plot_nq self ignore_q0)
    = Return (Z.of_nat d1, Z.of_nat d2) →
  ((∀ i q_i, q !! i = Some q_i → skipped ignore_q0 q_i = false → fits nrow' d1 d2 i) →
   ∃ axes,
     plot self formalism figlabel nrow filename ignore_q0 =
       Return (MkFigure figlabel axes
                 (Some (formalism ++ " - structure functions $\log_2(S(j,q))$")%string)
                 true filename) ∧
     grid_holds nrow' d1 d2
       (after_removing ignore_q0 x j1 j2 q lv zeta ic (d1 * d2)) axes) ∧
  ((∃ i q_i, q !! i = Some q_i ∧ skipped ignore_q0 q_i = false ∧ ¬ fits nrow' d1 d2 i) →
   plot self formalism figlabel nrow filename ignore_q0 = Throw (Builtin IndexError)).
Proof.
  intros self Hp Hq Hnrow Hnrow' Hdims.
  rewrite Hnrow in Hdims.
  destruct (plot_dims_facts _ _ _ _ Hnrow' Hdims) as (Hd1 & Hd2 & Hle & Hbranch).
  pose proof (plot_loop name q j1 j2 wt x vs lv zeta ic nrow' d1 d2 ignore_q0
                (replicate d1 (replicate d2 blank_axes)) (length q) Hp Hnrow' Hle
                (grid_holds_blank _ _ _ _ _ _ _ _ _ _ _) ltac:(lia)) as Hloop.
  cbv zeta in Hloop. rewrite firstn_all in Hloop. fold self in Hloop.
  assert (plot self formalism figlabel nrow filename ignore_q0 =
          match fold_result (plot_exponent self x (Z.of_nat nrow') ignore_q0)
                  (replicate d1 (replicate d2 blank_axes)) (enumerate q) with
          | Return axes =>
              match fold_result (remove_axes (Z.of_nat nrow')) axes
                      (arange (Z.of_nat (length q) - 1 + 1) (len_flat axes)) with
              | Return axes' =>
                  Return (MkFigure figlabel axes'
                    (Some (formalism ++ " - structure functions $\log_2(S(j,q))$")%string)
                    true filename)
              | Throw e => Throw e
              end
          | Throw e => Throw e
          end) as Hplot.
  { unfold plot. rewrite Hnrow, Hdims. unfold mbind, result_bind, subplots. simpl.
    rewrite (proj2 (Z.ltb_lt 0 (Z.of_nat d1))) by lia.
    rewrite (proj2 (Z.ltb_lt 0 (Z.of_nat d2))) by lia. simpl.
    rewrite !Nat2Z.id.
    destruct (fold_result _ _ (enumerate q)) as [axes|]; [|done].
    rewrite decide_False by done. done. }
  rewrite Hplot. split.
  - intros Hfits.
    destruct Hloop as [(axes & -> & Hgrid & _)|(_ & i & q_i & _ & Hqi & Hs & Hover)];
      [|destruct Hover; by apply (Hfits i q_i)].
    rewrite (len_flat_grid _ _ _ _ _ Hgrid).
    replace (Z.of_nat (length q) - 1 + 1)%Z with (Z.of_nat (length q)) by lia.
    unfold arange.
    assert (length q ≠ 0) as Hn by (by destruct q).
    destruct (decide (length q ≤ d1 * d2)) as [Hroom|Hfull].
    + destruct Hbranch as [(_ & -> & _)|(_ & -> & ->)].
      * destruct (remove_loop ignore_q0 x j1 j2 q lv zeta ic nrow' d2 axes
                    (nrow' * d2 - length q) Hnrow') as (axes' & Hrm & Hgrid');
          [|lia|].
        { eapply grid_holds_ext; [|exact Hgrid]. intros idx. symmetry.
          apply after_removing_start. }
        replace (Z.of_nat (nrow' * d2) - Z.of_nat (length q))%Z
          with (Z.of_nat (nrow' * d2 - length q)) by lia.
        rewrite Hrm. exists axes'. split; [done|].
        by replace (length q + (nrow' * d2 - length q)) with (nrow' * d2) in Hgrid' by lia.
      * rewrite seqZ_nil by lia. simpl. exists axes. split; [done|].
        eapply grid_holds_ext; [|exact Hgrid]. intros idx.
        rewrite <- after_removing_start. unfold after_removing.
        destruct (idx <? length q) eqn:E1; [done|].
        destruct (idx <? 1) eqn:E2; [|done].
        apply Nat.ltb_ge in E1. apply Nat.ltb_lt in E2. lia.
    + rewrite seqZ_nil by lia. simpl. exists axes. split; [done|].
      eapply grid_holds_ext; [|exact Hgrid]. intros idx.
      rewrite <- after_removing_start. unfold after_removing.
      destruct (idx <? length q) eqn:E1; [done|].
      destruct (idx <? d1 * d2) eqn:E2; [|done].
      apply Nat.ltb_ge in E1. apply Nat.ltb_lt in E2. lia.
  - intros (i & q_i & Hqi & Hs & Hover).
    destruct Hloop as [(axes & _ & _ & Hfits)|(-> & _)]; [|done].
    destruct Hover. apply (Hfits i q_i); [by apply lookup_lt_Some in Hqi|done..].
Qed.

End PlotTheorems.

(** ** [plot] and [plot_scaling] on constructed objects *)

Section Plotting.
Context {F : Type} `{!NumPy F, !Utils F}.

Lemma plot_dims_total (nrow' : nat) (nq : Z) :
  1 ≤ nrow' → ∃ d1 d2, plot_dims (Z.of_nat nrow') nq = Return (Z.of_nat d1, Z.of_nat d2).
Proof.
  intros Hnrow. unfold plot_dims. destruct (Z.ltb_spec 1 nq) as [Hnq|Hnq].
  - destruct (py_ceil_div nq (Z.of_nat nrow')) as [c|] eqn:Hc.
    + pose proof (py_ceil_div_spec nq (Z.of_nat nrow') c ltac:(lia) Hc) as Hb.
      assert (0 ≤ c)%Z.
      { destruct (Z.le_gt_cases 0 c) as [?|Hneg]; [done|].
        assert (Z.of_nat nrow' * c ≤ 0)%Z by nia. lia. }
      exists nrow', (Z.to_nat c). simpl. by rewrite Z2Nat.id.
    + unfold py_ceil_div in Hc. by rewrite (proj2 (Z.eqb_neq _ _)) in Hc by lia.
  - by exists 1, 1.
Qed.

Lemma plot_nrow_nat name (q : list F) j1 j2 wt j vs lv zeta ic (nrow : Z) :
  let self := SF name q j1 j2 wt j vs lv zeta ic in
  q ≠ [] → (1 ≤ nrow)%Z →
  plot_nrow self nrow = Z.of_nat (Z.to_nat (plot_nrow self nrow)) ∧
  1 ≤ Z.to_nat (plot_nrow self nrow) ≤ length q.
Proof.
  intros self Hq Hnrow. unfold self, plot_nrow. simpl.
  assert (length q ≠ 0) by (by destruct q). lia.
Qed.

Lemma plot_nq_no_skip name (q : list F) j1 j2 wt j vs lv zeta ic ignore_q0 :
  (∀ q_i, q_i ∈ q → skipped ignore_q0 q_i = false) →
  plot_nq (SF name q j1 j2 wt j vs lv zeta ic) ignore_q0 = Z.of_nat (length q).
Proof.
  intros Hs. unfold plot_nq. simpl.
  destruct (existsb _ q && ignore_q0) eqn:He; [|lia].
  apply andb_true_iff in He as [He ->].
  apply existsb_exists in He as (q_i & Hin & Hz).
  apply list_elem_of_In, Hs in Hin. unfold skipped in Hin.
  by rewrite Hz in Hin.
Qed.

Lemma plot_nq_skip name (q : list F) j1 j2 wt j vs lv zeta ic (q_z : F) :
  q_z ∈ q → f_eqb q_z (of_int 0) = true →
  plot_nq (SF name q j1 j2 wt j vs lv zeta ic) true = (Z.of_nat (length q) - 1)%Z.
Proof.
  intros Hin Hz. unfold plot_nq. simpl.
  replace (existsb (λ q0, f_eqb q0 (of_int 0)) q) with true; [simpl; lia|].
  symmetry. apply existsb_exists. exists q_z. split; [|done].
  by apply list_elem_of_In.
Qed.

(** The panel of a position that the loop drew. *)
Lemma drawn_panel x j1 j2 (q : list F) lv zeta ic ignore_q0 (i : nat) (q_i : F) :
  plottable x lv zeta ic q → q !! i = Some q_i → skipped ignore_q0 q_i = false →
  ∃ y slope icpt,
    lv !! i = Some y ∧ zeta !! i = Some slope ∧ ic !! i = Some icpt ∧
    ∀ bound, after_removing ignore_q0 x j1 j2 q lv zeta ic bound i
             = exponent_panel x j1 j2 q_i y slope icpt.
Proof.
  intros (Hlv & _ & Hz & Hic) Hq Hs. pose proof (lookup_lt_Some _ _ _ Hq) as Hi.
  destruct (lookup_lt_is_Some_2 lv i ltac:(lia)) as [y Hy].
  destruct (lookup_lt_is_Some_2 zeta i ltac:(lia)) as [slope Hsl].
  destruct (lookup_lt_is_Some_2 ic i ltac:(lia)) as [icpt Hc].
  exists y, slope, icpt. split_and!; [done..|].
  intros bound. unfold after_removing, after_drawing, drawn, panel_at.
  rewrite (proj2 (Nat.ltb_lt i (length q))) by done.
  by rewrite Hq, Hs, Hy, Hsl, Hc.
Qed.

(** X12. When every exponent that [plot] draws has its axes inside the
    grid, [plot] returns the figure: the exponent of position [i] is drawn
    in the axes of row [i mod nrow] and column [i div nrow] (the curve of its
    row of [logvalues] over the scales, the regression line, the labels); the
    axes of an exponent that was passed over stay empty and are not removed;
    the axes beyond the last exponent are removed. *)
Theorem plot_draws_each_exponent_in_its_own_axes (mrq : MultiResolutionQuantity)
    (q : list F) (j1 j2 : Z) (wtype : bool) (sf : StructureFunction)
    (formalism figlabel : string) (nrow : Z) (filename : option string)
    (ignore_q0 : bool) (d1 d2 : nat) :
  StructureFunction_new mrq q j1 j2 wtype = Ok sf →
  q ≠ [] → (1 ≤ nrow)%Z →
  let nrow' := Z.to_nat (plot_nrow sf nrow) in
  plot_dims (plot_nrow sf nrow) (plot_nq sf ignore_q0)
    = Return (Z.of_nat d1, Z.of_nat d2) →
  (∀ i q_i, q !! i = Some q_i → skipped ignore_q0 q_i = false → fits nrow' d1 d2 i) →
  ∃ fig,
    plot sf formalism figlabel nrow filename ignore_q0 = Return fig ∧
    fig_label fig = figlabel ∧ fig_drawn fig = true ∧ fig_saved fig = filename ∧
    length (fig_axes fig) = d1 ∧
    ∀ r c, r < d1 → c < d2 →
      match q !! (c * nrow' + r) with
      | Some q_i =>
          if skipped ignore_q0 q_i
          then cell (fig_axes fig) r c = Some blank_axes
          else ∃ y slope icpt,
                 (sf_logvalues sf ≫= (.!! (c * nrow' + r))) = Some y ∧
                 (sf_zeta sf ≫= (.!! (c * nrow' + r))) = Some slope ∧
                 (sf_intercept sf ≫= (.!! (c * nrow' + r))) = Some icpt ∧
                 cell (fig_axes fig) r c =
                   Some (exponent_panel (dict_keys (mrq_values mrq)) j1 j2 q_i
                           y slope icpt)
      | None => cell (fig_axes fig) r c = Some removed_axes
      end.
Proof.
  intros Hnew Hq Hnrow nrow' Hdims Hfits.
  destruct (constructed_plottable _ _ _ _ _ _ Hnew) as (lv & zeta & ic & -> & Hp).
  destruct (plot_nrow_nat (Some (mrq_name mrq)) q j1 j2 wtype
              (Some (dict_keys (mrq_values mrq))) None (Some lv) (Some zeta) (Some ic)
              nrow Hq Hnrow) as [Hn Hb].
  fold nrow' in Hn, Hb.
  destruct (plot_run _ q j1 j2 wtype _ None lv zeta ic formalism figlabel nrow
              filename ignore_q0 nrow' d1 d2 Hp Hq Hn ltac:(lia) Hdims) as [Hrun _].
  destruct (Hrun Hfits) as (axes & Hplot & Hlen & Hrows).
  rewrite Hn in Hdims.
  destruct (plot_dims_facts nrow' d1 d2 _ ltac:(lia) Hdims) as (_ & _ & _ & Hbranch).
  eexists. split; [exact Hplot|]. simpl. split_and!; [done..|].
  intros r c Hr Hc.
  destruct (lookup_lt_is_Some_2 axes r ltac:(lia)) as [row Hrow].
  destruct (Hrows r row Hrow) as [_ Hcells].
  unfold cell. rewrite Hrow. simpl. rewrite (Hcells c Hc).
  destruct (q !! (c * nrow' + r)) as [q_i|] eqn:Hqi.
  - destruct (skipped ignore_q0 q_i) eqn:Hs.
    + unfold after_removing, after_drawing, drawn.
      rewrite (proj2 (Nat.ltb_lt _ _) (lookup_lt_Some _ _ _ Hqi)).
      by rewrite Hqi, Hs.
    + destruct (drawn_panel (dict_keys (mrq_values mrq)) j1 j2 q lv zeta ic
                  ignore_q0 _ q_i Hp Hqi Hs)
        as (y & slope & icpt & Hy & Hsl & Hic & Hpanel).
      exists y, slope, icpt. by rewrite Hpanel.
  - apply lookup_ge_None in Hqi. unfold after_removing.
    rewrite (proj2 (Nat.ltb_ge _ _) Hqi).
    destruct Hbranch as [(_ & -> & _)|(_ & -> & ->)].
    + by rewrite (proj2 (Nat.ltb_lt (c * nrow' + r) (nrow' * d2))) by nia.
    + assert (length q ≠ 0) by (by destruct q). lia.
Qed.

(** X13. [plot] raises [IndexError] as soon as an exponent that it draws
    has its axes outside the grid: row [i mod nrow] or column [i div nrow] is
    not in the array that [plt.subplots] returned. *)
Theorem plot_raises_IndexError_outside_grid (mrq : MultiResolutionQuantity)
    (q : list F) (j1 j2 : Z) (wtype : bool) (sf : StructureFunction)
    (formalism figlabel : string) (nrow : Z) (filename : option string)
    (ignore_q0 : bool) (d1 d2 i : nat) (q_i : F) :
  StructureFunction_new mrq q j1 j2 wtype = Ok sf →
  (1 ≤ nrow)%Z →
  plot_dims (plot_nrow sf nrow) (plot_nq sf ignore_q0)
    = Return (Z.of_nat d1, Z.of_nat d2) →
  q !! i = Some q_i → skipped ignore_q0 q_i = false →
  ¬ fits (Z.to_nat (plot_nrow sf nrow)) d1 d2 i →
  plot sf formalism figlabel nrow filename ignore_q0 = Throw (Builtin IndexError).
Proof.
  intros Hnew Hnrow Hdims Hqi Hs Hover.
  destruct (constructed_plottable _ _ _ _ _ _ Hnew) as (lv & zeta & ic & -> & Hp).
  assert (q ≠ []) as Hq by (intros ->; done).
  destruct (plot_nrow_nat (Some (mrq_name mrq)) q j1 j2 wtype
              (Some (dict_keys (mrq_values mrq))) None (Some lv) (Some zeta) (Some ic)
              nrow Hq Hnrow) as [Hn Hb].
  destruct (plot_run _ q j1 j2 wtype _ None lv zeta ic formalism figlabel nrow
              filename ignore_q0 _ d1 d2 Hp Hq Hn ltac:(lia) Hdims) as [_ Hrun].
  apply Hrun. by exists i, q_i.
Qed.

(** X14. When no exponent is passed over (no exponent is 0, or
    [ignore_q0] is off), [plot] returns for every [nrow >= 1] and every
    exponent has its panel, at row [i mod nrow] and column [i div nrow],
    where [nrow] is the smaller of the argument and the number of
    exponents. *)
Theorem plot_returns_when_no_exponent_is_skipped (mrq : MultiResolutionQuantity)
    (q : list F) (j1 j2 : Z) (wtype : bool) (sf : StructureFunction)
    (formalism figlabel : string) (nrow : Z) (filename : option string)
    (ignore_q0 : bool) :
  StructureFunction_new mrq q j1 j2 wtype = Ok sf →
  q ≠ [] → (1 ≤ nrow)%Z →
  (∀ q_i, q_i ∈ q → skipped ignore_q0 q_i = false) →
  let nrow' := Z.to_nat (Z.min nrow (Z.of_nat (length q))) in
  ∃ fig,
    plot sf formalism figlabel nrow filename ignore_q0 = Return fig ∧
    length (fig_axes fig) = nrow' ∧
    ∀ i q_i, q !! i = Some q_i →
      ∃ y slope icpt,
        (sf_logvalues sf ≫= (.!! i)) = Some y ∧
        (sf_zeta sf ≫= (.!! i)) = Some slope ∧
        (sf_intercept sf ≫= (.!! i)) = Some icpt ∧
        cell (fig_axes fig) (i mod nrow') (i / nrow') =
          Some (exponent_panel (dict_keys (mrq_values mrq)) j1 j2 q_i y slope icpt).
Proof.
  intros Hnew Hq Hnrow Hskip nrow'.
  destruct (constructed_plottable _ _ _ _ _ _ Hnew) as (lv & zeta & ic & -> & Hp).
  destruct (plot_nrow_nat (Some (mrq_name mrq)) q j1 j2 wtype
              (Some (dict_keys (mrq_values mrq))) None (Some lv) (Some zeta) (Some ic)
              nrow Hq Hnrow) as [Hn Hb].
  change (Z.to_nat (plot_nrow _ nrow)) with nrow' in Hn, Hb.
  destruct (plot_dims_total nrow' (Z.of_nat (length q)) ltac:(lia))
    as (d1 & d2 & Hdims).
  destruct (plot_dims_facts nrow' d1 d2 _ ltac:(lia) Hdims) as (_ & _ & _ & Hbranch).
  assert (d1 = nrow' ∧ length q ≤ nrow' * d2) as [-> Hroom].
  { destruct Hbranch as [(_ & -> & Hc)|(? & -> & ->)]; [split; [done|nia]|].
    assert (length q ≠ 0) by (by destruct q). lia. }
  assert (∀ i, i < length q → fits nrow' nrow' d2 i) as Hfit.
  { intros i Hi. split; [apply Nat.mod_upper_bound; lia|].
    apply Nat.Div0.div_lt_upper_bound. lia. }
  destruct (plot_run (Some (mrq_name mrq)) q j1 j2 wtype
              (dict_keys (mrq_values mrq)) None lv zeta ic formalism figlabel nrow
              filename ignore_q0 nrow' nrow' d2 Hp Hq Hn ltac:(lia)) as [Hrun _].
  { rewrite Hn. by rewrite (plot_nq_no_skip _ _ _ _ _ _ _ _ _ _ _ Hskip). }
  destruct Hrun as (axes & Hplot & Hlen & Hrows).
  { intros i q_i Hqi _. apply Hfit. by apply lookup_lt_Some in Hqi. }
  eexists. split; [exact Hplot|]. simpl. split; [done|].
  intros i q_i Hqi. pose proof (lookup_lt_Some _ _ _ Hqi) as Hi.
  destruct (Hfit i Hi) as [Hr Hc].
  destruct (drawn_panel (dict_keys (mrq_values mrq)) j1 j2 q lv zeta ic
              ignore_q0 i q_i Hp Hqi)
    as (y & slope & icpt & Hy & Hsl & Hic & Hpanel).
  { apply Hskip. by eapply list_elem_of_lookup_2. }
  exists y, slope, icpt. split_and!; [done..|].
  destruct (lookup_lt_is_Some_2 axes (i mod nrow') ltac:(lia)) as [row Hrow].
  destruct (Hrows _ row Hrow) as [_ Hcells].
  unfold cell. rewrite Hrow. simpl. rewrite (Hcells _ Hc).
  replace (i / nrow' * nrow' + i mod nrow') with i
    by (pose proof (Nat.div_mod_eq i nrow'); lia).
  by rewrite Hpanel.
Qed.

(** X15. With [ignore_q0] on, an exponent 0 in [q] and a last exponent
    that is not 0, [plot] raises [IndexError] when [q] has two exponents, and
    when [nrow] (the smaller of the argument and [len(q)]) divides
    [len(q) - 1]: the grid is sized for the exponents drawn, but the axes are
    picked by the position in [q]. *)
Theorem plot_raises_IndexError_after_skipped_zero (mrq : MultiResolutionQuantity)
    (q : list F) (j1 j2 : Z) (wtype : bool) (sf : StructureFunction)
    (formalism figlabel : string) (nrow : Z) (filename : option string)
    (q_z q_l : F) :
  StructureFunction_new mrq q j1 j2 wtype = Ok sf →
  (1 ≤ nrow)%Z →
  q_z ∈ q → f_eqb q_z (of_int 0) = true →
  last q = Some q_l → f_eqb q_l (of_int 0) = false →
  length q = 2 ∨
    (length q - 1) mod Z.to_nat (Z.min nrow (Z.of_nat (length q))) = 0 →
  plot sf formalism figlabel nrow filename true = Throw (Builtin IndexError).
Proof.
  intros Hnew Hnrow Hin Hz Hlast Hl Hdiv.
  destruct (constructed_plottable _ _ _ _ _ _ Hnew) as (lv & zeta & ic & -> & Hp).
  assert (2 ≤ length q) as Hlen.
  { destruct q as [|a [|b q']]; simpl; [by apply elem_of_nil in Hin| |lia].
    apply list_elem_of_singleton in Hin as ->. injection Hlast as ->.
    by rewrite Hz in Hl. }
  assert (q ≠ []) as Hq by (intros ->; simpl in Hlen; lia).
  destruct (plot_nrow_nat (Some (mrq_name mrq)) q j1 j2 wtype
              (Some (dict_keys (mrq_values mrq))) None (Some lv) (Some zeta) (Some ic)
              nrow Hq Hnrow) as [Hn Hb].
  set (nrow' := Z.to_nat (Z.min nrow (Z.of_nat (length q)))) in *.
  change (Z.to_nat (plot_nrow _ nrow)) with nrow' in Hn, Hb.
  destruct (plot_dims_total nrow' (Z.of_nat (length q) - 1) ltac:(lia))
    as (d1 & d2 & Hdims).
  destruct (plot_dims_facts nrow' d1 d2 _ ltac:(lia) Hdims) as (_ & _ & _ & Hbranch).
  destruct (plot_run (Some (mrq_name mrq)) q j1 j2 wtype
              (dict_keys (mrq_values mrq)) None lv zeta ic formalism figlabel nrow
              filename true nrow' d1 d2 Hp Hq Hn ltac:(lia)) as [_ Hrun].
  { rewrite Hn. by rewrite (plot_nq_skip _ _ _ _ _ _ _ _ _ _ q_z Hin Hz). }
  apply Hrun. exists (length q - 1), q_l. split_and!.
  - rewrite last_lookup in Hlast. by replace (length q - 1) with (pred (length q)) by lia.
  - unfold skipped. by rewrite Hl.
  - intros [Hr Hc]. destruct Hbranch as [(Hnq & -> & Hceil)|(Hnq & -> & ->)].
    + destruct Hdiv as [?|Hdiv]; [lia|].
      pose proof (Nat.div_mod_eq (length q - 1) nrow') as Hdm.
      rewrite Hdiv in Hdm. nia.
    + assert (length q = 2) as Hl2 by lia. rewrite Hl2 in Hr, Hc. simpl in Hr, Hc.
      destruct (decide (nrow' = 1)) as [E|E]; [rewrite E in Hc; simpl in Hc; lia|].
      assert (nrow' = 2) as E2 by lia. rewrite E2 in Hr. simpl in Hr. lia.
Qed.

(** X16. On an object built without exponents [plot] raises
    [UnboundLocalError]: the loop over [self.q] never binds [ind_q], which
    the loop that removes the axes left over reads. *)
Theorem plot_without_exponents_raises_UnboundLocalError
    (mrq : MultiResolutionQuantity) (j1 j2 : Z) (wtype : bool)
    (sf : StructureFunction) (formalism figlabel : string) (nrow : Z)
    (filename : option string) (ignore_q0 : bool) :
  StructureFunction_new mrq [] j1 j2 wtype = Ok sf →
  plot sf formalism figlabel nrow filename ignore_q0 = Throw UnboundLocalError.
Proof.
  intros Hnew.
  destruct (constructed_plottable _ _ _ _ _ _ Hnew) as (lv & zeta & ic & -> & _).
  unfold plot, plot_nrow, plot_nq, plot_dims. simpl. done.
Qed.

(** X17. On a constructed object [plot_scaling] fails the assertion exactly
    when there are fewer than two exponents; otherwise it returns the figure
    with the one curve of [zeta] against [q]. *)
Theorem plot_scaling_needs_two_exponents (mrq : MultiResolutionQuantity)
    (q : list F) (j1 j2 : Z) (wtype : bool) (sf : StructureFunction)
    (formalism figlabel : string) (filename : option string) :
  StructureFunction_new mrq q j1 j2 wtype = Ok sf →
  (plot_scaling sf formalism figlabel filename = Throw AssertionError
     ↔ length q ≤ 1) ∧
  (1 < length q →
   ∃ zeta, sf_zeta sf = Some zeta ∧ length zeta = length q ∧
     plot_scaling sf formalism figlabel filename =
       Return (MkFigure figlabel
                 [[MkAxes [ScalingCurve q zeta] (Some (Text "q"))
                          (Some (Text "$\zeta(q)$")) false false]]
                 (Some (formalism ++ " - scaling function")%string) true filename)).
Proof.
  intros Hnew.
  destruct (constructed_plottable _ _ _ _ _ _ Hnew)
    as (lv & zeta & ic & -> & (_ & _ & Hz & _)).
  unfold plot_scaling. simpl.
  destruct (Nat.ltb_spec 1 (length q)) as [Hlt|Hle]; simpl.
  - rewrite decide_True by done. split; [split; [done|lia]|].
    intros _. by exists zeta.
  - split; [done|lia].
Qed.

End Plotting.

(** ** Concrete runs of the further properties *)

(** X1, at a concrete input: the first exponent of [q_A] is 2. *)
Lemma get_intercept_is_intercept_at_two_witness :
  StructureFunction_new mrq_A q_A 1 4 false = Ok sf_A ∧
  ∃ z, (sf_intercept sf_A ≫= (.!! 0)) = Some z ∧ get_intercept sf_A = Ok (Some z).
Proof.
  assert (StructureFunction_new mrq_A q_A 1 4 false = Ok sf_A) as H
    by (vm_compute; reflexivity).
  split; [exact H|].
  destruct (proj2 (get_intercept_is_intercept_at_two _ _ _ _ _ _ H) 0 (Some 2%Q))
    as (ics & z & Hics & Hz & Hget); [reflexivity|reflexivity|intros; lia|].
  exists z. rewrite Hics. simpl. auto.
Defined.

(** X2, at a concrete input. *)
Lemma accessors_report_the_fit_of_exponent_two_witness :
  StructureFunction_new mrq_A q_A 1 4 false = Ok sf_A ∧
  ∃ slope intercept,
    get_H sf_A = Ok (Some (f_div slope (of_int 2))) ∧
    get_intercept sf_A = Ok (Some intercept).
Proof.
  assert (StructureFunction_new mrq_A q_A 1 4 false = Ok sf_A) as H
    by (vm_compute; reflexivity).
  split; [exact H|].
  destruct (accessors_report_the_fit_of_exponent_two _ _ _ _ _ _ 0 (Some 2%Q) H)
    as (lv & row & nj & slope & icpt & _ & _ & _ & _ & HH & Hi);
    [reflexivity|reflexivity|intros; lia|].
  exists slope, icpt. auto.
Defined.



(** X5, at a concrete input: the windows 1..4, unweighted, and 1..3,
    weighted. *)
Lemma logvalues_do_not_depend_on_window_witness :
  ∃ sf', StructureFunction_new mrq_A q_A 1 4 false = Ok sf_A ∧
         StructureFunction_new mrq_A q_A 1 3 true = Ok sf' ∧
         sf_logvalues sf_A = sf_logvalues sf' ∧ sf_zeta sf_A ≠ sf_zeta sf'.
Proof.
  assert (StructureFunction_new mrq_A q_A 1 4 false = Ok sf_A) as H
    by (vm_compute; reflexivity).
  eexists. split; [exact H|].
  assert (∀ sf', StructureFunction_new mrq_A q_A 1 3 true = Ok sf' →
                 StructureFunction_new mrq_A q_A 1 3 true = Ok sf' ∧
                 sf_logvalues sf_A = sf_logvalues sf') as Hw.
  { intros sf' H'. split; [exact H'|].
    exact (proj1 (logvalues_do_not_depend_on_window _ _ _ _ _ _ _ _ _ _ H H')). }
  split; [vm_compute; reflexivity|].
  split; [apply Hw; vm_compute; reflexivity|]. vm_compute. discriminate.
Defined.

(** X6, at a concrete input: [mrq_A] and [mrq_A] without most counts. *)
Lemma unweighted_construction_ignores_counts_witness :
  StructureFunction_new mrq_A q_A 1 4 false =
  StructureFunction_new mrq_A_count1 q_A 1 4 false.
Proof.
  apply unweighted_construction_ignores_counts; reflexivity.
Defined.

(** X8, at a concrete input. *)
Lemma spectrum_without_exponents_raises_witness :
  MFS_post_init (World mrq_A spectrum_no_q) = Raise ValueError.
Proof.
  destruct (spectrum_without_exponents_raises mrq_A spectrum_no_q)
    as (e & He & _); [reflexivity|discriminate|].
  vm_compute. reflexivity.
Defined.

(** X9, at a concrete input: the count of scale 2 is missing. *)
Lemma spectrum_needs_the_count_of_every_scale_witness :
  MFS_post_init (World mrq_A_count1 spectrum_A_before) = Raise KeyError.
Proof.
  apply (spectrum_needs_the_count_of_every_scale mrq_A_count1 spectrum_A_before 2).
  - discriminate.
  - right. left.
  - vm_compute. reflexivity.
Defined.

(** X11, at a concrete input: the windows 1..4, weighted, and 2..4,
    unweighted. *)
Lemma spectrum_UV_shape_and_window_witness :
  ∃ w w', MFS_post_init (World mrq_A spectrum_A_before) = Ok (tt, w) ∧
          MFS_post_init (World mrq_A spectrum_A_24) = Ok (tt, w') ∧
          mfs_U (w_self w) = mfs_U (w_self w') ∧
          mfs_V (w_self w) = mfs_V (w_self w').
Proof.
  assert (∀ w w', MFS_post_init (World mrq_A spectrum_A_before) = Ok (tt, w) →
                  MFS_post_init (World mrq_A spectrum_A_24) = Ok (tt, w') →
                  mfs_U (w_self w) = mfs_U (w_self w') ∧
                  mfs_V (w_self w) = mfs_V (w_self w')) as Hw.
  { intros w w' H H'.
    destruct (spectrum_UV_shape_and_window _ _ _ _ _ H H' eq_refl)
      as (U & V & -> & -> & _ & _ & -> & ->). auto. }
  eexists. eexists. split; [vm_compute; reflexivity|].
  split; [vm_compute; reflexivity|]. apply Hw; vm_compute; reflexivity.
Defined.

(** X12, at a concrete input: the exponents 0, 1, 2 with [ignore_q0]. The
    grid has three rows and one column; the axes of the exponent 0 are
    empty. *)
Lemma plot_draws_each_exponent_in_its_own_axes_witness :
  StructureFunction_new mrq_A q_P 1 4 false = Ok sf_P ∧
  ∃ fig, plot sf_P "wavelet coefs" "Structure Functions" 4 None true = Return fig ∧
         length (fig_axes fig) = 3 ∧
         cell (fig_axes fig) 0 0 = Some blank_axes.
Proof.
  assert (StructureFunction_new mrq_A q_P 1 4 false = Ok sf_P) as H
    by (vm_compute; reflexivity).
  split; [exact H|].
  destruct (plot_draws_each_exponent_in_its_own_axes mrq_A q_P 1 4 false sf_P
              "wavelet coefs" "Structure Functions" 4 None true 3 1 H)
    as (fig & Hplot & _ & _ & _ & Hlen & Hcells).
  - discriminate.
  - lia.
  - vm_compute. reflexivity.
  - intros [|[|[|i]]] q_i Hq Hs; try discriminate Hq.
    + injection Hq as <-. vm_compute in Hs. discriminate Hs.
    + vm_compute. lia.
    + vm_compute. lia.
  - exists fig. split; [exact Hplot|]. split; [exact Hlen|].
    exact (Hcells 0 0 ltac:(lia) ltac:(lia)).
Defined.

(** X13, at a concrete input: the exponents 0 and 2 with the default
    arguments. *)
Lemma plot_raises_IndexError_outside_grid_witness :
  StructureFunction_new mrq_A q_Z 1 4 false = Ok sf_Z ∧
  plot sf_Z "wavelet coefs" "Structure Functions" 4 None true
    = Throw (Builtin IndexError).
Proof.
  assert (StructureFunction_new mrq_A q_Z 1 4 false = Ok sf_Z) as H
    by (vm_compute; reflexivity).
  split; [exact H|].
  apply (plot_raises_IndexError_outside_grid mrq_A q_Z 1 4 false sf_Z
           "wavelet coefs" "Structure Functions" 4 None true 1 1 1 (Some 2%Q) H).
  - lia.
  - vm_compute. reflexivity.
  - reflexivity.
  - vm_compute. reflexivity.
  - vm_compute. lia.
Defined.

(** X14, at a concrete input. *)
Lemma plot_returns_when_no_exponent_is_skipped_witness :
  StructureFunction_new mrq_A q_A 1 4 false = Ok sf_A ∧
  ∃ fig, plot sf_A "wavelet coefs" "Structure Functions" 4 None true = Return fig ∧
         length (fig_axes fig) = 2.
Proof.
  assert (StructureFunction_new mrq_A q_A 1 4 false = Ok sf_A) as H
    by (vm_compute; reflexivity).
  split; [exact H|].
  destruct (plot_returns_when_no_exponent_is_skipped mrq_A q_A 1 4 false sf_A
              "wavelet coefs" "Structure Functions" 4 None true H)
    as (fig & Hplot & Hlen & _).
  - discriminate.
  - lia.
  - intros q_i Hin. apply list_elem_of_In in Hin.
    destruct Hin as [<-|[<-|[]]]; vm_compute; reflexivity.
  - exists fig. split; [exact Hplot|exact Hlen].
Defined.

(** X15, at a concrete input: the exponents -2, -1, 0, 1, 2 with the
    default arguments. *)
Lemma plot_raises_IndexError_after_skipped_zero_witness :
  StructureFunction_new mrq_A q_S 1 4 false = Ok sf_S ∧
  plot sf_S "wavelet coefs" "Structure Functions" 4 None true
    = Throw (Builtin IndexError).
Proof.
  assert (StructureFunction_new mrq_A q_S 1 4 false = Ok sf_S) as H
    by (vm_compute; reflexivity).
  split; [exact H|].
  apply (plot_raises_IndexError_after_skipped_zero mrq_A q_S 1 4 false sf_S
           "wavelet coefs" "Structure Functions" 4 None (Some 0%Q) (Some 2%Q) H).
  - lia.
  - right. right. left.
  - vm_compute. reflexivity.
  - reflexivity.
  - vm_compute. reflexivity.
  - right. vm_compute. reflexivity.
Defined.

(** X16, at a concrete input. *)
Lemma plot_without_exponents_raises_UnboundLocalError_witness :
  ∃ sf, StructureFunction_new mrq_A [] 1 4 false = Ok sf ∧
        plot sf "wavelet coefs" "Structure Functions" 4 None true
          = Throw UnboundLocalError.
Proof.
  assert (∀ sf, StructureFunction_new mrq_A [] 1 4 false = Ok sf →
                plot sf "wavelet coefs" "Structure Functions" 4 None true
                  = Throw UnboundLocalError) as Hw.
  { intros sf H.
    exact (plot_without_exponents_raises_UnboundLocalError mrq_A 1 4 false sf
             _ _ _ _ _ H). }
  eexists. split; [vm_compute; reflexivity|]. apply Hw. vm_compute. reflexivity.
Defined.

(** X17, at a concrete input: two exponents. *)
Lemma plot_scaling_needs_two_exponents_witness :
  StructureFunction_new mrq_A q_A 1 4 false = Ok sf_A ∧
  plot_scaling sf_A "wavelet coefs" "Scaling Function" None ≠ Throw AssertionError.
Proof.
  assert (StructureFunction_new mrq_A q_A 1 4 false = Ok sf_A) as H
    by (vm_compute; reflexivity).
  split; [exact H|].
  intros Hf.
  pose proof (proj1 (proj1 (plot_scaling_needs_two_exponents mrq_A q_A 1 4 false
                              sf_A "wavelet coefs" "Scaling Function" None H)) Hf)
    as Hle.
  simpl in Hle. lia.
Defined.
